(** * HeartQL: ingestion and post-processing of a health export

    A shallow embedding of [scripts/health_to_sqlite.py] and
    [scripts/health_postprocess.py].

    Conventions used throughout.
    - A Python [str] is a list of Unicode code points ([pystr]).
    - A Python [float] is a finite value, an infinity or NaN ([pyfloat]);
      the finite values are idealised as real numbers, so there is no
      rounding and no overflow.
    - [None] is [None]; a dict with string keys is an association list in
      insertion order.
    - An SQLite table is the list of its rows in insertion order. *)

From Stdlib Require Import List Bool Arith NArith ZArith String Ascii Lia.
From Stdlib Require Import QArith Qreduction.
From Stdlib Require Import Reals Lra.
From Stdlib Require Import Permutation Sorted.
Import ListNotations.
Close Scope Q_scope.
Close Scope R_scope.

Set Implicit Arguments.

(** ** Python strings *)

Module PyStr.

Definition codepoint := N.
Definition pystr := list codepoint.

(** The code points of an ASCII literal. *)
Definition str (s : string) : pystr :=
  List.map N_of_ascii (list_ascii_of_string s).

Definition eqb (a b : pystr) : bool :=
  if list_eq_dec N.eq_dec a b then true else false.

(** [str.isspace] on one code point, which is also what [\s] matches in a
    [str] pattern: U+0009..U+000D, U+001C..U+0020, U+0085, U+00A0, U+1680,
    U+2000..U+200A, U+2028, U+2029, U+202F, U+205F, U+3000. *)
Definition is_space (c : codepoint) : bool :=
  ((9 <=? c) && (c <=? 13) || (28 <=? c) && (c <=? 32) || (c =? 133)
   || (c =? 160) || (c =? 5760) || (8192 <=? c) && (c <=? 8202)
   || (c =? 8232) || (c =? 8233) || (c =? 8239) || (c =? 8287)
   || (c =? 12288))%N.

(** [s.replace(old, new)] for a pattern [old] of one code point. *)
Definition replace1 (old : codepoint) (new : pystr) (s : pystr) : pystr :=
  flat_map (fun c => if (c =? old)%N then new else [c]) s.

Fixpoint lstrip (s : pystr) : pystr :=
  match s with
  | [] => []
  | c :: r => if is_space c then lstrip r else s
  end.

Fixpoint rstrip (s : pystr) : pystr :=
  match s with
  | [] => []
  | c :: r =>
      match rstrip r with
      | [] => if is_space c then [] else [c]
      | r' => c :: r'
      end
  end.

(** [s.strip()] *)
Definition strip (s : pystr) : pystr := rstrip (lstrip s).

(** [re.sub(r"\s+", " ", s)]: [in_run] says that the code point before
    the head of [s] was whitespace, whose run has been replaced already. *)
Fixpoint sub_ws_runs_from (in_run : bool) (s : pystr) : pystr :=
  match s with
  | [] => []
  | c :: r =>
      if is_space c
      then (if in_run then [] else [32%N]) ++ sub_ws_runs_from true r
      else c :: sub_ws_runs_from false r
  end.

Definition sub_ws_runs (s : pystr) : pystr := sub_ws_runs_from false s.

(** [s.endswith(suffix)] *)
Definition endswith (s suffix : pystr) : bool :=
  (List.length suffix <=? List.length s)%nat
  && eqb (skipn (List.length s - List.length suffix) s) suffix.

(** [s.lower()] on the ASCII letters. Code points above U+007F are kept:
    none of them lowercases to an ASCII letter of the suffixes tested in
    this program. *)
Definition lower_cp (c : codepoint) : codepoint :=
  if ((65 <=? c) && (c <=? 90))%N then (c + 32)%N else c.

Definition lower (s : pystr) : pystr := List.map lower_cp s.

End PyStr.
Import PyStr.

(** ** [health_postprocess.normalize_source_name] *)

Definition normalize_source_name (value : option pystr) : option pystr :=
  match value with
  | None => None
  | Some value =>
      let cleaned :=
        replace1 8216%N (str "'") (replace1 8217%N (str "'") value) in
      let cleaned := replace1 160%N (str " ") cleaned in
      let cleaned := strip (sub_ws_runs cleaned) in
      Some cleaned
  end.

(** ** Runtime: exceptions, dictionaries, XML elements *)

Inductive exn :=
| ParseError          (* xml.etree.ElementTree.ParseError *)
| DecodeError         (* UnicodeDecodeError, csv.Error *)
| ValueError
| OperationalError    (* sqlite3: no such table *)
| IntegrityError      (* sqlite3: PRIMARY KEY or UNIQUE violated *)
| OSError.            (* IsADirectoryError, PermissionError, ... *)

Inductive result (A : Type) :=
| Ok (a : A)
| Raise (e : exn).
Arguments Ok {A} a.
Arguments Raise {A} e.

Definition bind {A B} (m : result A) (k : A -> result B) : result B :=
  match m with
  | Ok a => k a
  | Raise e => Raise e
  end.

Notation "x <- m ;; k" := (bind m (fun x => k))
  (at level 61, m at next level, right associativity).

(** ** Python floats *)

Module PyFloat.
Local Open Scope R_scope.

(** A [float]: a finite value, an infinity with its sign, or NaN. *)
Inductive pyfloat :=
| Finite (x : R)
| Inf (negative : bool)
| NaN.

Definition is_zero (x : R) : bool :=
  if Req_EM_T x 0 then true else false.

Definition is_negative (x : R) : bool :=
  if Rlt_dec x 0 then true else false.

(** [a + b] *)
Definition fadd (a b : pyfloat) : pyfloat :=
  match a, b with
  | NaN, _ | _, NaN => NaN
  | Finite x, Finite y => Finite (x + y)
  | Finite _, Inf s | Inf s, Finite _ => Inf s
  | Inf s, Inf t => if Bool.eqb s t then Inf s else NaN
  end.

(** [a - b] *)
Definition fsub (a b : pyfloat) : pyfloat :=
  match a, b with
  | NaN, _ | _, NaN => NaN
  | Finite x, Finite y => Finite (x - y)
  | Finite _, Inf s => Inf (negb s)
  | Inf s, Finite _ => Inf s
  | Inf s, Inf t => if Bool.eqb s t then NaN else Inf s
  end.

(** [a * b] *)
Definition fmul (a b : pyfloat) : pyfloat :=
  match a, b with
  | NaN, _ | _, NaN => NaN
  | Finite x, Finite y => Finite (x * y)
  | Finite x, Inf s | Inf s, Finite x =>
      if is_zero x then NaN else Inf (xorb s (is_negative x))
  | Inf s, Inf t => Inf (xorb s t)
  end.

(** [a / d] for a literal [d] that is finite and positive. *)
Definition fdiv (a : pyfloat) (d : R) : pyfloat :=
  match a with
  | Finite x => Finite (x / d)
  | Inf s => Inf s
  | NaN => NaN
  end.

(** [a ** 2] *)
Definition fpow2 (a : pyfloat) : pyfloat :=
  match a with
  | Finite x => Finite (x ^ 2)
  | Inf _ => Inf false
  | NaN => NaN
  end.

(** [a < b]: false as soon as one of the two is NaN. *)
Definition flt (a b : pyfloat) : bool :=
  match a, b with
  | NaN, _ | _, NaN => false
  | Finite x, Finite y => if Rlt_dec x y then true else false
  | Finite _, Inf s => negb s
  | Inf s, Finite _ => s
  | Inf s, Inf t => s && negb t
  end.

(** [a <= b] *)
Definition fle (a b : pyfloat) : bool :=
  match a, b with
  | NaN, _ | _, NaN => false
  | Finite x, Finite y => if Rle_dec x y then true else false
  | Finite _, Inf s => negb s
  | Inf s, Finite _ => s
  | Inf s, Inf t => s || negb t
  end.

(** [math.radians(a)] *)
Definition radians (a : pyfloat) : pyfloat :=
  match a with
  | Finite x => Finite (x * (PI / 180))
  | Inf s => Inf s
  | NaN => NaN
  end.

(** [math.sin(a)], [math.cos(a)]: an infinite argument is a
    [ValueError] (math domain error), NaN gives NaN. *)
Definition fsin (a : pyfloat) : result pyfloat :=
  match a with
  | Finite x => Ok (Finite (sin x))
  | Inf _ => Raise ValueError
  | NaN => Ok NaN
  end.

Definition fcos (a : pyfloat) : result pyfloat :=
  match a with
  | Finite x => Ok (Finite (cos x))
  | Inf _ => Raise ValueError
  | NaN => Ok NaN
  end.

(** [math.sqrt(a)] *)
Definition fsqrt (a : pyfloat) : result pyfloat :=
  match a with
  | Finite x =>
      if is_negative x then Raise ValueError else Ok (Finite (sqrt x))
  | Inf false => Ok (Inf false)
  | Inf true => Raise ValueError
  | NaN => Ok NaN
  end.

(** [math.asin(a)] *)
Definition fasin (a : pyfloat) : result pyfloat :=
  match a with
  | Finite x =>
      if is_negative (x + 1) || is_negative (1 - x)
      then Raise ValueError
      else Ok (Finite (asin x))
  | Inf _ => Raise ValueError
  | NaN => Ok NaN
  end.

End PyFloat.
Import PyFloat.

(** What the embedding takes from the Python runtime: [float(s)] on a
    string ([None] stands for [ValueError]; ["nan"] and ["inf"] are read
    as NaN and infinity) and the code points that [\d] matches in a
    [str] pattern. *)
Class PyRuntime := {
  py_float : pystr -> option pyfloat;
  is_decimal : codepoint -> bool
}.

(** A [dict] with [str] keys, in insertion order. *)
Definition dict (V : Type) := list (pystr * V).

Fixpoint dict_get {V} (d : dict V) (k : pystr) : option V :=
  match d with
  | [] => None
  | (k', v) :: r => if PyStr.eqb k' k then Some v else dict_get r k
  end.

(** [d[k] = v] *)
Fixpoint dict_set {V} (d : dict V) (k : pystr) (v : V) : dict V :=
  match d with
  | [] => [(k, v)]
  | (k', v') :: r =>
      if PyStr.eqb k' k then (k', v) :: r else (k', v') :: dict_set r k v
  end.

(** [xml.etree.ElementTree.Element] *)
#[warnings="-register-all"]
Inductive element :=
| Element (tag : pystr) (attrib : dict pystr) (text : option pystr)
          (children : list element).

Definition tag (e : element) : pystr :=
  match e with Element t _ _ _ => t end.
Definition attrib (e : element) : dict pystr :=
  match e with Element _ a _ _ => a end.
Definition text (e : element) : option pystr :=
  match e with Element _ _ x _ => x end.
Definition children (e : element) : list element :=
  match e with Element _ _ _ c => c end.

(** [elem.clear()]: attributes, text and children go, the tag stays. *)
Definition clear (e : element) : element := Element (tag e) [] None [].

(** ** [scripts/health_to_sqlite.py] *)

Module health_to_sqlite.

(** A value bound to a [?] of an INSERT. [Json d] is the text
    [json.dumps(d, ensure_ascii=True)]. *)
Inductive cell :=
| Null
| Int (z : Z)
| Text (s : pystr)
| Real (x : pyfloat)
| Json (d : dict pystr).

Definition row := list cell.

(** The tables of [SCHEMA]. *)
Inductive table :=
| records
| workouts
| correlations
| activity_summaries
| clinical_records
| audiograms
| vision_prescriptions
| record_metadata.

Definition table_eqb (a b : table) : bool :=
  match a, b with
  | records, records | workouts, workouts | correlations, correlations
  | activity_summaries, activity_summaries
  | clinical_records, clinical_records | audiograms, audiograms
  | vision_prescriptions, vision_prescriptions
  | record_metadata, record_metadata => true
  | _, _ => false
  end.

(** Every table but [record_metadata] declares [id INTEGER PRIMARY KEY]. *)
Definition has_primary_key (t : table) : bool :=
  negb (table_eqb t record_metadata).

(** The [id] column is the first of a row. *)
Definition row_id (r : row) : option Z :=
  match r with
  | Int z :: _ => Some z
  | _ => None
  end.

Definition id_taken (z : Z) (rows : list row) : bool :=
  existsb (fun r => match row_id r with
                    | Some z' => (z' =? z)%Z
                    | None => false
                    end) rows.

(** The connection: the committed rows of each table ([init_db] has run,
    so every table exists) and the number of [conn.commit()] calls made by
    [flush]. *)
Record conn := {
  rows_of : table -> list row;
  commits : nat
}.

(** [rows_by_table = defaultdict(list)] *)
Definition buffers := table -> list row.

Definition no_rows : buffers := fun _ => [].

Definition update {A} (f : table -> A) (t : table) (v : A) : table -> A :=
  fun t' => if table_eqb t t' then v else f t'.

(** One [INSERT INTO t (...) VALUES (...)]. *)
Definition insert (t : table) (stored : list row) (r : row)
  : result (list row) :=
  match row_id r with
  | Some z =>
      if has_primary_key t && id_taken z stored
      then Raise IntegrityError
      else Ok (stored ++ [r])
  | None => Ok (stored ++ [r])
  end.

(** [cursor.executemany(INSERT ..., rows)] *)
Fixpoint executemany (t : table) (stored : list row) (rows : list row)
  : result (list row) :=
  match rows with
  | [] => Ok stored
  | r :: rest => stored' <- insert t stored r ;; executemany t stored' rest
  end.

Definition all_tables : list table :=
  [records; workouts; correlations; activity_summaries; clinical_records;
   audiograms; vision_prescriptions; record_metadata].

(** The loop of [flush] over the buffered tables. The tables do not
    interact, so the order in which the dict yields them is not
    observable; the model visits them in schema order. *)
Fixpoint flush_tables (ts : list table) (db : table -> list row)
  (rows_by_table : buffers) : result (table -> list row) :=
  match ts with
  | [] => Ok db
  | t :: rest =>
      match rows_by_table t with
      | [] => flush_tables rest db rows_by_table
      | rows =>
          stored <- executemany t (db t) rows ;;
          flush_tables rest (update db t stored) rows_by_table
      end
  end.

(** [flush(conn, rows_by_table)]: every buffer is cleared and the
    transaction committed. *)
Definition flush (c : conn) (rows_by_table : buffers)
  : result (conn * buffers) :=
  db <- flush_tables all_tables (rows_of c) rows_by_table ;;
  Ok ({| rows_of := db; commits := S (commits c) |}, no_rows).

Inductive event_kind := Start | End.

Definition event := (event_kind * element)%type.

(** The local variables of [main]. [next_id t] is the counter of table
    [t]: [record_id], [workout_id], [correlation_id],
    [activity_summary_id], [clinical_record_id], [audiogram_id],
    [vision_id]. *)
Record state := {
  db : conn;
  next_id : table -> Z;
  rows_by_table : buffers;
  in_record : bool;
  record_metadata_entries : list (option pystr * option pystr)
}.

Section WithRuntime.
Context {rt : PyRuntime}.

Definition _to_float (value : option pystr) : option pyfloat :=
  match value with
  | None => None
  | Some s => match s with [] => None | _ => py_float s end
  end.

Definition text_cell (v : option pystr) : cell :=
  match v with Some s => Text s | None => Null end.

Definition real_cell (v : option pyfloat) : cell :=
  match v with Some x => Real x | None => Null end.

Definition get (attrs : dict pystr) (k : string) : cell :=
  text_cell (dict_get attrs (str k)).

Definition get_float (attrs : dict pystr) (k : string) : cell :=
  real_cell (_to_float (dict_get attrs (str k))).

(** The tuple appended for an element of each kind. *)
Definition row_of (t : table) (id : Z) (attrs : dict pystr) : row :=
  match t with
  | records =>
      [Int id; get attrs "type"; get attrs "unit"; get attrs "value";
       get attrs "sourceName"; get attrs "sourceVersion";
       get attrs "device"; get attrs "creationDate";
       get attrs "startDate"; get attrs "endDate"]
  | workouts =>
      [Int id; get attrs "workoutActivityType";
       get_float attrs "duration"; get attrs "durationUnit";
       get_float attrs "totalEnergyBurned";
       get attrs "totalEnergyBurnedUnit";
       get_float attrs "totalDistance"; get attrs "totalDistanceUnit";
       get attrs "sourceName"; get attrs "sourceVersion";
       get attrs "device"; get attrs "creationDate";
       get attrs "startDate"; get attrs "endDate"]
  | correlations =>
      [Int id; get attrs "type"; get attrs "sourceName";
       get attrs "sourceVersion"; get attrs "device";
       get attrs "creationDate"; get attrs "startDate";
       get attrs "endDate"]
  | activity_summaries =>
      [Int id; get attrs "dateComponents";
       get_float attrs "activeEnergyBurned";
       get_float attrs "activeEnergyBurnedGoal";
       get attrs "activeEnergyBurnedUnit";
       get_float attrs "appleMoveTime";
       get_float attrs "appleMoveTimeGoal";
       get_float attrs "appleExerciseTime";
       get_float attrs "appleExerciseTimeGoal";
       get_float attrs "appleStandHours";
       get_float attrs "appleStandHoursGoal"]
  | clinical_records =>
      [Int id; get attrs "type"; get attrs "sourceName";
       get attrs "sourceVersion"; get attrs "device";
       get attrs "creationDate"; get attrs "startDate";
       get attrs "endDate"; get attrs "displayName"; Json attrs]
  | audiograms | vision_prescriptions =>
      [Int id; get attrs "sourceName"; get attrs "sourceVersion";
       get attrs "device"; get attrs "creationDate";
       get attrs "startDate"; get attrs "endDate"; Json attrs]
  | record_metadata => []
  end.

(** The element tags that write a row, with their table. *)
Definition table_of_tag (tg : pystr) : option table :=
  if PyStr.eqb tg (str "Record") then Some records
  else if PyStr.eqb tg (str "Workout") then Some workouts
  else if PyStr.eqb tg (str "Correlation") then Some correlations
  else if PyStr.eqb tg (str "ActivitySummary") then Some activity_summaries
  else if PyStr.eqb tg (str "ClinicalRecord") then Some clinical_records
  else if PyStr.eqb tg (str "Audiogram") then Some audiograms
  else if PyStr.eqb tg (str "VisionPrescription")
       then Some vision_prescriptions
  else None.

Definition append (b : buffers) (t : table) (rows : list row) : buffers :=
  update b t (b t ++ rows).

(** The [if]/[elif] chain of an ["end"] event, before [elem.clear()]. *)
Definition on_end (with_metadata : bool) (elem : element) (st : state)
  : state :=
  if PyStr.eqb (tag elem) (str "MetadataEntry") && with_metadata
     && in_record st
  then
    let key := dict_get (attrib elem) (str "key") in
    let value := dict_get (attrib elem) (str "value") in
    {| db := db st; next_id := next_id st;
       rows_by_table := rows_by_table st; in_record := in_record st;
       record_metadata_entries :=
         record_metadata_entries st ++ [(key, value)] |}
  else
    match table_of_tag (tag elem) with
    | Some t =>
        let id := (next_id st t + 1)%Z in
        let b := append (rows_by_table st) t [row_of t id (attrib elem)] in
        if table_eqb t records then
          let b :=
            if with_metadata
               && negb (Nat.eqb (List.length (record_metadata_entries st)) 0)
            then
              append b record_metadata
                (List.map (fun kv => [Int id; text_cell (fst kv);
                                      text_cell (snd kv)])
                   (record_metadata_entries st))
            else b in
          {| db := db st; next_id := update (next_id st) t id;
             rows_by_table := b; in_record := false;
             record_metadata_entries := record_metadata_entries st |}
        else
          {| db := db st; next_id := update (next_id st) t id;
             rows_by_table := b; in_record := in_record st;
             record_metadata_entries := record_metadata_entries st |}
    | None => st
    end.

(** The test that follows [elem.clear()]. *)
Definition threshold_reached (batch_size : Z) (st : state) : bool :=
  (batch_size <=? Z.of_nat (List.length (rows_by_table st records)))%Z.

(** One iteration of the [for event, elem in iterparse(...)] loop. *)
Definition step (batch_size : Z) (with_metadata : bool) (ev : event)
  (st : state) : result state :=
  match ev with
  | (Start, elem) =>
      if PyStr.eqb (tag elem) (str "Record")
      then Ok {| db := db st; next_id := next_id st;
                 rows_by_table := rows_by_table st; in_record := true;
                 record_metadata_entries := [] |}
      else Ok st
  | (End, elem) =>
      let st := on_end with_metadata elem st in
      if threshold_reached batch_size st
      then
        cb <- flush (db st) (rows_by_table st) ;;
        Ok {| db := fst cb; next_id := next_id st;
              rows_by_table := snd cb; in_record := in_record st;
              record_metadata_entries := record_metadata_entries st |}
      else Ok st
  end.

Fixpoint run (batch_size : Z) (with_metadata : bool) (events : list event)
  (st : state) : result state :=
  match events with
  | [] => Ok st
  | ev :: rest =>
      st' <- step batch_size with_metadata ev st ;;
      run batch_size with_metadata rest st'
  end.

Definition initial (c : conn) : state :=
  {| db := c; next_id := fun _ => 0%Z; rows_by_table := no_rows;
     in_record := false; record_metadata_entries := [] |}.

(** What opening and reading [args.export] gives. *)
Inductive export :=
| NotFound                        (* [FileNotFoundError] *)
| Unreadable                      (* another [OSError] on opening *)
| Parsed (events : list event)    (* well-formed: all its events *)
| Broken (events : list event).   (* the events before a [ParseError] *)

(** [main]: the result is the connection and the exit status. Of the
    exceptions of the loop only [FileNotFoundError] is caught. *)
Definition main (c : conn) (file : export) (batch_size : Z)
  (with_metadata : bool) : result (conn * Z) :=
  match file with
  | NotFound => Ok (c, 2%Z)
  | Unreadable => Raise OSError
  | Parsed events =>
      st <- run batch_size with_metadata events (initial c) ;;
      cb <- flush (db st) (rows_by_table st) ;;
      Ok (fst cb, 0%Z)
  | Broken events =>
      _ <- run batch_size with_metadata events (initial c) ;;
      Raise ParseError
  end.

End WithRuntime.

End health_to_sqlite.

(** ** [scripts/health_postprocess.py] *)

Module health_postprocess.

(** The rows hold the values that are bound to the INSERT; SQLite keeps
    a [float] that is NaN as NULL. *)
Record route_row := {
  route_id_of : Z;
  route_file_path : pystr;
  start_time : option pystr;
  end_time : option pystr;
  point_count : nat;
  distance_km : pyfloat;
  min_lat : option pyfloat;
  max_lat : option pyfloat;
  min_lon : option pyfloat;
  max_lon : option pyfloat
}.

Record point_row := {
  point_route_id : Z;
  point_index : nat;
  point_lat : option pyfloat;
  point_lon : option pyfloat;
  point_ele : option pyfloat;
  point_time : option pystr
}.

(** [extra_json] keeps the dict that [json.dumps] serialises. *)
Record ecg_row := {
  ecg_id_of : Z;
  ecg_file_path : pystr;
  recorded_date : option pystr;
  classification : option pystr;
  symptoms : option pystr;
  sample_rate_hz : option pyfloat;
  ecg_lead : option pystr;
  ecg_unit : option pystr;
  ecg_device : option pystr;
  software_version : option pystr;
  extra_json : dict pystr
}.

Record sample_row := {
  sample_ecg_id : Z;
  sample_index : nat;
  sample_value : pyfloat
}.

(** The four tables the importers write; [None] is a table that does not
    exist. *)
Record conn := {
  workout_routes : option (list route_row);
  workout_route_points : option (list point_row);
  ecg_records : option (list ecg_row);
  ecg_samples : option (list sample_row)
}.

(** [init_db]: [CREATE TABLE IF NOT EXISTS] for each table. *)
Definition created {A} (t : option (list A)) : option (list A) :=
  match t with None => Some [] | Some rows => Some rows end.

Definition init_db (c : conn) : conn :=
  {| workout_routes := created (workout_routes c);
     workout_route_points := created (workout_route_points c);
     ecg_records := created (ecg_records c);
     ecg_samples := created (ecg_samples c) |}.

(** [list_existing]: the [file_path] column as a set. *)
Definition list_existing (paths : option (list pystr)) : list pystr :=
  match paths with
  | None => []
  | Some ps => ps
  end.

Definition mem (p : pystr) (set : list pystr) : bool :=
  existsb (PyStr.eqb p) set.

Fixpoint max_id (ids : list Z) : option Z :=
  match ids with
  | [] => None
  | z :: rest =>
      match max_id rest with
      | None => Some z
      | Some m => Some (Z.max z m)
      end
  end.

(** [_next_id]: [ids] is the [id] column of the table. *)
Definition _next_id (ids : option (list Z)) : Z :=
  match ids with
  | Some col =>
      match max_id col with
      | Some m => (m + 1)%Z
      | None => 1%Z
      end
  | None => 1%Z
  end.

(** [INSERT OR IGNORE] into a table whose [id] is the primary key and
    whose [file_path] is UNIQUE: a row that collides on either is dropped. *)
Definition insert_or_ignore {A} (id_of : A -> Z) (path_of : A -> pystr)
  (stored : list A) (r : A) : list A :=
  if existsb (fun x => (id_of x =? id_of r)%Z
                       || PyStr.eqb (path_of x) (path_of r)) stored
  then stored
  else stored ++ [r].

(** [os.path.join(dir, name)] on POSIX. *)
Definition path_join (dir name : pystr) : pystr :=
  match name with
  | 47%N :: _ => name
  | _ =>
      match dir with
      | [] => name
      | _ => if endswith dir (str "/") then dir ++ name
             else dir ++ str "/" ++ name
      end
  end.

(** Order of [str] values: by code point, the shorter first. *)
Fixpoint str_leb (a b : pystr) : bool :=
  match a, b with
  | [], _ => true
  | _ :: _, [] => false
  | x :: a', y :: b' =>
      if (x <? y)%N then true
      else if (y <? x)%N then false
      else str_leb a' b'
  end.

Fixpoint insert_sorted {F} (e : pystr * F) (l : list (pystr * F))
  : list (pystr * F) :=
  match l with
  | [] => [e]
  | x :: rest =>
      if str_leb (fst e) (fst x) then e :: l
      else x :: insert_sorted e rest
  end.

(** [sorted(os.listdir(dir))], each name kept with its file. *)
Definition sorted {F} (l : list (pystr * F)) : list (pystr * F) :=
  fold_right insert_sorted [] l.

(** [s.split(sep)] for a separator of one code point. *)
Fixpoint split1 (sep : codepoint) (s : pystr) : list pystr :=
  match s with
  | [] => [[]]
  | c :: r =>
      if (c =? sep)%N then [] :: split1 sep r
      else match split1 sep r with
           | [] => [[c]]
           | h :: t => (c :: h) :: t
           end
  end.

Definition _strip_ns (tg : pystr) : pystr :=
  List.last (split1 125%N tg) [].

(** [haversine_km]: the operands are evaluated from left to right, and
    [math.sin] and [math.cos] raise on an infinite argument. *)
Definition haversine_km (lat1 lon1 lat2 lon2 : pyfloat) : result pyfloat :=
  let r := Finite 6371.0088%R in
  let phi1 := radians lat1 in
  let phi2 := radians lat2 in
  let dphi := radians (fsub lat2 lat1) in
  let dlambda := radians (fsub lon2 lon1) in
  s1 <- fsin (fdiv dphi 2.0%R) ;;
  c1 <- fcos phi1 ;;
  c2 <- fcos phi2 ;;
  s2 <- fsin (fdiv dlambda 2.0%R) ;;
  let a := fadd (fpow2 s1) (fmul (fmul c1 c2) (fpow2 s2)) in
  q <- fsqrt a ;;
  t <- fasin q ;;
  Ok (fmul (fmul (Finite 2%R) r) t).

(** A parsed [trkpt]: [(lat, lon, ele, time)]. *)
Definition point :=
  (option pyfloat * option pyfloat * option pyfloat * option pystr)%type.

Definition lat_of (p : point) : option pyfloat := fst (fst (fst p)).
Definition lon_of (p : point) : option pyfloat := snd (fst (fst p)).
Definition ele_of (p : point) : option pyfloat := snd (fst p).
Definition time_of (p : point) : option pystr := snd p.

(** The state of the loop over [enumerate(points)]. *)
Record walk := {
  last_point : option (pyfloat * pyfloat);
  walked_km : pyfloat;
  walked_rows : list point_row
}.

(** One turn of the loop: the tests are [is not None] only, so a
    coordinate that is NaN or infinite is a coordinate. *)
Definition walk_point (route_id : Z) (w : walk) (idx : nat) (p : point)
  : result walk :=
  let row := {| point_route_id := route_id; point_index := idx;
                point_lat := lat_of p; point_lon := lon_of p;
                point_ele := ele_of p; point_time := time_of p |} in
  match lat_of p, lon_of p with
  | Some lat, Some lon =>
      km <- match last_point w with
            | Some lp =>
                d <- haversine_km lat lon (fst lp) (snd lp) ;;
                Ok (fadd (walked_km w) d)
            | None => Ok (walked_km w)
            end ;;
      Ok {| last_point := Some (lat, lon); walked_km := km;
            walked_rows := walked_rows w ++ [row] |}
  | _, _ =>
      Ok {| last_point := last_point w; walked_km := walked_km w;
            walked_rows := walked_rows w ++ [row] |}
  end.

Fixpoint walk_points (route_id : Z) (w : walk) (idx : nat)
  (points : list point) : result walk :=
  match points with
  | [] => Ok w
  | p :: rest =>
      w' <- walk_point route_id w idx p ;;
      walk_points route_id w' (S idx) rest
  end.

(** [distance_km] as [import_workout_routes] computes it for [points]. *)
Definition route_distance (points : list point) : result pyfloat :=
  w <- walk_points 0%Z
         {| last_point := None; walked_km := Finite 0.0%R;
            walked_rows := [] |} 0 points ;;
  Ok (walked_km w).

Fixpoint keep_some {A} (l : list (option A)) : list A :=
  match l with
  | [] => []
  | Some x :: r => x :: keep_some r
  | None :: r => keep_some r
  end.

(** [min(xs) if xs else None], [max(xs) if xs else None]: the first
    item is kept until a later one compares below, respectively above,
    it; no item compares with NaN. *)
Definition min_or_none (xs : list pyfloat) : option pyfloat :=
  match xs with
  | [] => None
  | x :: r =>
      Some (fold_left (fun cur item => if flt item cur then item else cur)
              r x)
  end.

Definition max_or_none (xs : list pyfloat) : option pyfloat :=
  match xs with
  | [] => None
  | x :: r =>
      Some (fold_left (fun cur item => if flt cur item then item else cur)
              r x)
  end.

(** [_flush_routes]: the buffers come back cleared. *)
Definition _flush_routes (c : conn) (route_rows : list route_row)
  (point_rows : list point_row)
  : result (conn * list route_row * list point_row) :=
  routes <-
    match route_rows with
    | [] => Ok (workout_routes c)
    | _ =>
        match workout_routes c with
        | None => Raise OperationalError
        | Some stored =>
            Ok (Some (fold_left
                        (insert_or_ignore route_id_of route_file_path)
                        route_rows stored))
        end
    end ;;
  points <-
    match point_rows with
    | [] => Ok (workout_route_points c)
    | _ =>
        match workout_route_points c with
        | None => Raise OperationalError
        | Some stored => Ok (Some (stored ++ point_rows))
        end
    end ;;
  Ok ({| workout_routes := routes; workout_route_points := points;
         ecg_records := ecg_records c; ecg_samples := ecg_samples c |},
      [], []).

(** [_flush_ecg] *)
Definition _flush_ecg (c : conn) (record_rows : list ecg_row)
  (sample_rows : list sample_row)
  : result (conn * list ecg_row * list sample_row) :=
  ecgs <-
    match record_rows with
    | [] => Ok (ecg_records c)
    | _ =>
        match ecg_records c with
        | None => Raise OperationalError
        | Some stored =>
            Ok (Some (fold_left (insert_or_ignore ecg_id_of ecg_file_path)
                        record_rows stored))
        end
    end ;;
  samples <-
    match sample_rows with
    | [] => Ok (ecg_samples c)
    | _ =>
        match ecg_samples c with
        | None => Raise OperationalError
        | Some stored => Ok (Some (stored ++ sample_rows))
        end
    end ;;
  Ok ({| workout_routes := workout_routes c;
         workout_route_points := workout_route_points c;
         ecg_records := ecgs; ecg_samples := samples |},
      [], []).

(** [CREATE INDEX IF NOT EXISTS ... ON t(...)] needs the table. *)
Definition create_index {A} (t : option (list A)) : result unit :=
  match t with
  | Some _ => Ok tt
  | None => Raise OperationalError
  end.

(** The events of [iterparse(path, events=("end",))] below [e], in
    document order of the closing tags. The loop clears every element at
    its own event, so the children of the element of an event have been
    cleared already. *)
Fixpoint end_events (e : element) : list element :=
  match e with
  | Element t a x cs =>
      flat_map end_events cs ++ [Element t a x (List.map clear cs)]
  end.

(** A track file: the root element, [None] when the file is not
    well-formed XML. *)
Definition gpx_file := option element.

(** An ECG file: the rows [csv.reader] yields, [None] when the file cannot
    be decoded or read as CSV. *)
Definition csv_file := option (list (list pystr)).

Definition is_gpx (name : pystr) : bool := endswith (lower name) (str ".gpx").
Definition is_csv (name : pystr) : bool := endswith (lower name) (str ".csv").

(** The first match of [[0-9]+(\.[0-9]+)?] in [s], if any. *)
Definition is_ascii_digit (c : codepoint) : bool :=
  ((48 <=? c) && (c <=? 57))%N.

Fixpoint take_while (f : codepoint -> bool) (s : pystr) : pystr :=
  match s with
  | c :: r => if f c then c :: take_while f r else []
  | [] => []
  end.

Fixpoint drop_while (f : codepoint -> bool) (s : pystr) : pystr :=
  match s with
  | c :: r => if f c then drop_while f r else s
  | [] => []
  end.

Definition decimal_at (digit : codepoint -> bool) (s : pystr) : pystr :=
  let whole := take_while digit s in
  match drop_while digit s with
  | 46%N :: r =>
      match take_while digit r with
      | [] => whole
      | frac => whole ++ 46%N :: frac
      end
  | _ => whole
  end.

Definition search_decimal (s : pystr) : option pystr :=
  match drop_while (fun c => negb (is_ascii_digit c)) s with
  | [] => None
  | s' => Some (decimal_at is_ascii_digit s')
  end.

(** *** [create_views]: the view [records_norm] *)

(** A row of [records]; [value] has TEXT affinity. *)
Record record_row := {
  rec_id : Z;
  rec_type : option pystr;
  rec_unit : option pystr;
  rec_value : option pystr;
  rec_source_name : option pystr;
  rec_source_version : option pystr;
  rec_device : option pystr;
  rec_creation_date : option pystr;
  rec_start_date : option pystr;
  rec_end_date : option pystr
}.

Record records_norm_row := {
  base : record_row;
  source_name_norm : option pystr;
  value_num : option Q;
  start_dt : option pystr;
  end_dt : option pystr
}.

Definition sqlite_isspace (c : codepoint) : bool :=
  ((9 <=? c) && (c <=? 13) || (c =? 32))%N.

Definition digits_value (ds : pystr) : Z :=
  fold_left (fun acc c => (acc * 10 + Z.of_N (c - 48))%Z) ds 0%Z.

(** An optional sign at the head of [z]: whether it is a minus, and the
    rest. *)
Definition sign_at (z : pystr) : bool * pystr :=
  match z with
  | c :: r =>
      if (c =? 45)%N then (true, r)
      else if (c =? 43)%N then (false, r)
      else (false, z)
  | [] => (false, z)
  end.

(** The exponent part [[eE][+-]?[0-9]+] at the head of [z], 0 without. *)
Definition exponent_at (z : pystr) : Z :=
  match z with
  | c :: r =>
      if ((c =? 101) || (c =? 69))%N then
        let (negative, r) := sign_at r in
        match take_while is_ascii_digit r with
        | [] => 0%Z
        | ds => if negative then (- digits_value ds)%Z else digits_value ds
        end
      else 0%Z
  | [] => 0%Z
  end.

(** A fraction part [\.[0-9]*] at the head of [z]: its digits, and the
    rest. *)
Definition fraction_at (z : pystr) : pystr * pystr :=
  match z with
  | c :: r =>
      if (c =? 46)%N
      then (take_while is_ascii_digit r, drop_while is_ascii_digit r)
      else ([], z)
  | [] => ([], z)
  end.

(** SQLite's text to REAL conversion: the value of the longest prefix of
    [z] that reads as a decimal number, leading spaces skipped; 0 when
    there is none. The REAL is kept as the exact rational. *)
Definition sqlite_atof (z : pystr) : Q :=
  let z := drop_while sqlite_isspace z in
  let (negative, z) := sign_at z in
  let whole := take_while is_ascii_digit z in
  let z := drop_while is_ascii_digit z in
  let (frac, z) := fraction_at z in
  let mantissa := digits_value (whole ++ frac) in
  let e := (exponent_at z - Z.of_nat (List.length frac))%Z in
  Qred (inject_Z (if negative then - mantissa else mantissa)
        * Qpower (inject_Z 10) e)%Q.

(** [CAST(x AS REAL)] of a TEXT or NULL value. *)
Definition cast_real (x : option pystr) : option Q :=
  option_map sqlite_atof x.

(** [substr(x, 1, 19)] *)
Definition substr_1_19 (x : option pystr) : option pystr :=
  option_map (firstn 19) x.

(** [SELECT r.*, sa.normalized_source, CAST(r.value AS REAL), ... FROM
    records r LEFT JOIN source_aliases sa ON r.source_name = sa.raw_source];
    [raw_source] is the primary key of [source_aliases]. *)
Definition records_norm (records : list record_row)
  (source_aliases : dict (option pystr)) : list records_norm_row :=
  List.map
    (fun r =>
       {| base := r;
          source_name_norm :=
            match rec_source_name r with
            | Some s =>
                match dict_get source_aliases s with
                | Some n => n
                | None => None
                end
            | None => None
            end;
          value_num := cast_real (rec_value r);
          start_dt := substr_1_19 (rec_start_date r);
          end_dt := substr_1_19 (rec_end_date r) |})
    records.

Section WithRuntime.
Context {rt : PyRuntime}.

Definition _to_float (value : option pystr) : option pyfloat :=
  match value with
  | None => None
  | Some s => match s with [] => None | _ => py_float s end
  end.

(** [number_re.match(value)] for [^[+-]?\d+(\.\d+)?$]; [value] has been
    stripped, so [$] is the end of the string. *)
Definition number_re_match (value : pystr) : bool :=
  let unsigned :=
    match value with
    | c :: r => if (c =? 43)%N || (c =? 45)%N then r else value
    | [] => value
    end in
  match take_while is_decimal unsigned with
  | [] => false
  | _ =>
      match drop_while is_decimal unsigned with
      | [] => true
      | 46%N :: frac =>
          negb (Nat.eqb (List.length frac) 0) && forallb is_decimal frac
      | _ => false
      end
  end.

(** What one row of the CSV does to [(metadata, samples)]. *)
Definition ecg_row_step (row : list pystr) (acc : dict pystr * list pyfloat)
  : result (dict pystr * list pyfloat) :=
  match row with
  | [] => Ok acc
  | [field] =>
      let value := strip field in
      match value with
      | [] => Ok acc
      | _ =>
          if number_re_match value then
            match py_float value with
            | Some x => Ok (fst acc, snd acc ++ [x])
            | None => Raise ValueError
            end
          else Ok acc
      end
  | field0 :: field1 :: _ =>
      let key := strip field0 in
      let value := strip field1 in
      Ok (dict_set (fst acc) key value, snd acc)
  end.

Fixpoint ecg_rows (rows : list (list pystr)) (acc : dict pystr * list pyfloat)
  : result (dict pystr * list pyfloat) :=
  match rows with
  | [] => Ok acc
  | row :: rest => acc' <- ecg_row_step row acc ;; ecg_rows rest acc'
  end.

Definition parse_ecg_csv (file : csv_file)
  : result (dict pystr * list pyfloat) :=
  match file with
  | None => Raise DecodeError
  | Some rows => ecg_rows rows ([], [])
  end.

Definition _parse_sample_rate (value : option pystr)
  : result (option pyfloat) :=
  match value with
  | None | Some [] => Ok None
  | Some v =>
      match search_decimal v with
      | None => Ok None
      | Some m =>
          match py_float m with
          | Some x => Ok (Some x)
          | None => Raise ValueError
          end
      end
  end.

(** The tuple appended for a [trkpt] element. *)
Definition point_of (elem : element) : point :=
  let lat := _to_float (dict_get (attrib elem) (str "lat")) in
  let lon := _to_float (dict_get (attrib elem) (str "lon")) in
  let et :=
    fold_left
      (fun (et : option pyfloat * option pystr) child =>
         let child_tag := _strip_ns (tag child) in
         if PyStr.eqb child_tag (str "ele")
         then (_to_float (text child), snd et)
         else if PyStr.eqb child_tag (str "time")
         then (fst et, text child)
         else et)
      (children elem) (None, None) in
  (lat, lon, fst et, snd et).

(** [points] after the loop over [iterparse]. *)
Definition parse_points (file : gpx_file) : result (list point) :=
  match file with
  | None => Raise ParseError
  | Some root =>
      Ok (flat_map
            (fun elem =>
               if PyStr.eqb (_strip_ns (tag elem)) (str "trkpt")
               then [point_of elem] else [])
            (end_events root))
  end.

(** The locals of [import_workout_routes] that the loop over the
    directory updates. *)
Record routes_state := {
  r_conn : conn;
  route_rows : list route_row;
  point_rows : list point_row;
  route_id : Z;
  r_inserted : nat
}.

(** The body of the loop over the directory, after the two [continue]
    tests on the name and the path. *)
Definition ingest_route (path : pystr) (file : gpx_file)
  (st : routes_state) : result routes_state :=
  points <- parse_points file ;;
  match points with
  | [] => Ok st
  | first :: _ =>
      let lats := keep_some (List.map lat_of points) in
      let lons := keep_some (List.map lon_of points) in
      w <- walk_points (route_id st)
             {| last_point := None; walked_km := Finite 0.0%R;
                walked_rows := point_rows st |} 0 points ;;
      let row :=
        {| route_id_of := route_id st; route_file_path := path;
           start_time := time_of first;
           end_time := time_of (List.last points first);
           point_count := List.length points;
           distance_km := walked_km w;
           min_lat := min_or_none lats; max_lat := max_or_none lats;
           min_lon := min_or_none lons; max_lon := max_or_none lons |} in
      let route_rows := route_rows st ++ [row] in
      let point_rows := walked_rows w in
      if (20000 <=? Z.of_nat (List.length point_rows))%Z
      then
        flushed <- _flush_routes (r_conn st) route_rows point_rows ;;
        Ok {| r_conn := fst (fst flushed);
              route_rows := snd (fst flushed);
              point_rows := snd flushed;
              route_id := (route_id st + 1)%Z;
              r_inserted := S (r_inserted st) |}
      else
        Ok {| r_conn := r_conn st; route_rows := route_rows;
              point_rows := point_rows;
              route_id := (route_id st + 1)%Z;
              r_inserted := S (r_inserted st) |}
  end.

Fixpoint routes_loop (routes_dir : pystr) (skip_existing : bool)
  (existing : list pystr) (entries : list (pystr * gpx_file))
  (st : routes_state) : result routes_state :=
  match entries with
  | [] => Ok st
  | (name, file) :: rest =>
      if negb (is_gpx name)
      then routes_loop routes_dir skip_existing existing rest st
      else
        let path := path_join routes_dir name in
        if skip_existing && mem path existing
        then routes_loop routes_dir skip_existing existing rest st
        else
          st' <- ingest_route path file st ;;
          routes_loop routes_dir skip_existing existing rest st'
  end.

Definition route_paths (c : conn) : option (list pystr) :=
  option_map (List.map route_file_path) (workout_routes c).

Definition route_ids (c : conn) : option (list Z) :=
  option_map (List.map route_id_of) (workout_routes c).

(** [import_workout_routes]: [listing] is [None] when [routes_dir] is not
    a directory, else the names [os.listdir] returns with their files. *)
Definition import_workout_routes (c : conn) (routes_dir : pystr)
  (listing : option (list (pystr * gpx_file))) (skip_existing : bool)
  : result (conn * nat) :=
  match listing with
  | None => Ok (c, 0)
  | Some files =>
      let existing :=
        if skip_existing then list_existing (route_paths c) else [] in
      st <- routes_loop routes_dir skip_existing existing (sorted files)
              {| r_conn := c; route_rows := []; point_rows := [];
                 route_id := _next_id (route_ids c); r_inserted := 0 |} ;;
      flushed <- _flush_routes (r_conn st) (route_rows st) (point_rows st) ;;
      let c' := fst (fst flushed) in
      _ <- create_index (workout_route_points c') ;;
      _ <- create_index (workout_routes c') ;;
      Ok (c', r_inserted st)
  end.

Record ecg_state := {
  e_conn : conn;
  record_rows : list ecg_row;
  sample_rows : list sample_row;
  ecg_id : Z;
  e_inserted : nat
}.

Fixpoint enumerate_from {A} (idx : nat) (l : list A) : list (nat * A) :=
  match l with
  | [] => []
  | x :: r => (idx, x) :: enumerate_from (S idx) r
  end.

Definition ingest_ecg (path : pystr) (file : csv_file) (st : ecg_state)
  : result ecg_state :=
  parsed <- parse_ecg_csv file ;;
  let metadata := fst parsed in
  let samples := snd parsed in
  match samples with
  | [] => Ok st
  | _ =>
      rate <- _parse_sample_rate (dict_get metadata (str "Sample Rate")) ;;
      let row :=
        {| ecg_id_of := ecg_id st; ecg_file_path := path;
           recorded_date := dict_get metadata (str "Recorded Date");
           classification := dict_get metadata (str "Classification");
           symptoms := dict_get metadata (str "Symptoms");
           sample_rate_hz := rate;
           ecg_lead := dict_get metadata (str "Lead");
           ecg_unit := dict_get metadata (str "Unit");
           ecg_device := dict_get metadata (str "Device");
           software_version := dict_get metadata (str "Software Version");
           extra_json := metadata |} in
      let record_rows := record_rows st ++ [row] in
      let sample_rows :=
        sample_rows st
        ++ List.map (fun iv => {| sample_ecg_id := ecg_id st;
                                  sample_index := fst iv;
                                  sample_value := snd iv |})
             (enumerate_from 0 samples) in
      if (20000 <=? Z.of_nat (List.length sample_rows))%Z
      then
        flushed <- _flush_ecg (e_conn st) record_rows sample_rows ;;
        Ok {| e_conn := fst (fst flushed);
              record_rows := snd (fst flushed);
              sample_rows := snd flushed;
              ecg_id := (ecg_id st + 1)%Z;
              e_inserted := S (e_inserted st) |}
      else
        Ok {| e_conn := e_conn st; record_rows := record_rows;
              sample_rows := sample_rows;
              ecg_id := (ecg_id st + 1)%Z;
              e_inserted := S (e_inserted st) |}
  end.

Fixpoint ecg_loop (ecg_dir : pystr) (skip_existing : bool)
  (existing : list pystr) (entries : list (pystr * csv_file))
  (st : ecg_state) : result ecg_state :=
  match entries with
  | [] => Ok st
  | (name, file) :: rest =>
      if negb (is_csv name)
      then ecg_loop ecg_dir skip_existing existing rest st
      else
        let path := path_join ecg_dir name in
        if skip_existing && mem path existing
        then ecg_loop ecg_dir skip_existing existing rest st
        else
          st' <- ingest_ecg path file st ;;
          ecg_loop ecg_dir skip_existing existing rest st'
  end.

Definition ecg_paths (c : conn) : option (list pystr) :=
  option_map (List.map ecg_file_path) (ecg_records c).

Definition ecg_ids (c : conn) : option (list Z) :=
  option_map (List.map ecg_id_of) (ecg_records c).

(** [import_ecg] *)
Definition import_ecg (c : conn) (ecg_dir : pystr)
  (listing : option (list (pystr * csv_file))) (skip_existing : bool)
  : result (conn * nat) :=
  match listing with
  | None => Ok (c, 0)
  | Some files =>
      let existing :=
        if skip_existing then list_existing (ecg_paths c) else [] in
      st <- ecg_loop ecg_dir skip_existing existing (sorted files)
              {| e_conn := c; record_rows := []; sample_rows := [];
                 ecg_id := _next_id (ecg_ids c); e_inserted := 0 |} ;;
      flushed <- _flush_ecg (e_conn st) (record_rows st) (sample_rows st) ;;
      let c' := fst (fst flushed) in
      _ <- create_index (ecg_samples c') ;;
      Ok (c', e_inserted st)
  end.

(** [main]: [init_db], then the two imports; the result is the
    connection and [(routes_added, ecg_added)]. [build_source_aliases]
    and [create_views], which run in between, write to [source_aliases]
    and define the views, and leave the four tables of [conn] alone. *)
Definition main (c : conn)
  (routes_dir : pystr) (routes : option (list (pystr * gpx_file)))
  (ecg_dir : pystr) (ecgs : option (list (pystr * csv_file)))
  (skip_existing no_routes no_ecg : bool) : result (conn * (nat * nat)) :=
  let c := init_db c in
  r <- (if no_routes then Ok (c, 0)
        else import_workout_routes c routes_dir routes skip_existing) ;;
  e <- (if no_ecg then Ok (fst r, 0)
        else import_ecg (fst r) ecg_dir ecgs skip_existing) ;;
  Ok (fst e, (snd r, snd e)).

End WithRuntime.

End health_postprocess.

(** ** Specification-side notions *)

(** The glyphs [normalize_source_name] reads as an apostrophe: the
    straight one and the two curly ones. *)
Definition is_apostrophe (c : codepoint) : bool :=
  ((c =? 39) || (c =? 8216) || (c =? 8217))%N.

(** One place where two strings differ in apostrophe glyph or in
    whitespace width only. *)
Inductive glyph_step : pystr -> pystr -> Prop :=
| step_apostrophe l a b r :
    is_apostrophe a = true -> is_apostrophe b = true ->
    glyph_step (l ++ a :: r) (l ++ b :: r)
| step_space_kind l a b r :
    is_space a = true -> is_space b = true ->
    glyph_step (l ++ a :: r) (l ++ b :: r)
| step_space_run l a b r :
    is_space a = true -> is_space b = true ->
    glyph_step (l ++ a :: b :: r) (l ++ a :: r)
| step_leading a s :
    is_space a = true -> glyph_step (a :: s) s
| step_trailing a s :
    is_space a = true -> glyph_step (s ++ [a]) s.

(** Strings that differ only in apostrophe glyph or whitespace width. *)
Inductive same_up_to_glyphs : pystr -> pystr -> Prop :=
| glyphs_step s t : glyph_step s t -> same_up_to_glyphs s t
| glyphs_refl s : same_up_to_glyphs s s
| glyphs_sym s t : same_up_to_glyphs s t -> same_up_to_glyphs t s
| glyphs_trans s t u :
    same_up_to_glyphs s t -> same_up_to_glyphs t u ->
    same_up_to_glyphs s u.

(** * Proofs *)

Unset Implicit Arguments.

(** ** Strings *)

Lemma eqb_eq (a b : pystr) : PyStr.eqb a b = true <-> a = b.
Proof.
  unfold PyStr.eqb. destruct (list_eq_dec N.eq_dec a b); split; congruence.
Qed.

Lemma eqb_refl (a : pystr) : PyStr.eqb a a = true.
Proof. now apply eqb_eq. Qed.

Lemma eqb_neq (a b : pystr) : PyStr.eqb a b = false <-> a <> b.
Proof.
  unfold PyStr.eqb. destruct (list_eq_dec N.eq_dec a b); split; congruence.
Qed.

(** ** [normalize_source_name] *)

Section Normalize.

(** What the three [replace] calls do to one code point. *)
Definition replaced (c : codepoint) : codepoint :=
  if (c =? 8217)%N then 39%N
  else if (c =? 8216)%N then 39%N
  else if (c =? 160)%N then 32%N
  else c.

Lemma replace_chain (s : pystr) :
  replace1 160%N (str " ")
    (replace1 8216%N (str "'") (replace1 8217%N (str "'") s))
  = List.map replaced s.
Proof.
  induction s as [|c s IH]; [reflexivity|].
  unfold replace1 in *. cbn [flat_map List.map].
  rewrite !flat_map_app.
  change (replaced c :: List.map replaced s)
    with ([replaced c] ++ List.map replaced s).
  f_equal; [|exact IH]. unfold replaced.
  destruct (N.eqb_spec c 8217) as [->|H1]; [reflexivity|].
  cbn [flat_map app].
  destruct (N.eqb_spec c 8216) as [->|H2]; [reflexivity|].
  cbn [flat_map app].
  destruct (N.eqb_spec c 160) as [->|H3]; reflexivity.
Qed.

Lemma normalize_unfold (s : pystr) :
  normalize_source_name (Some s)
  = Some (strip (sub_ws_runs (List.map replaced s))).
Proof. unfold normalize_source_name. now rewrite replace_chain. Qed.

Lemma replaced_space (c : codepoint) :
  is_space (replaced c) = is_space c.
Proof.
  unfold replaced.
  destruct (N.eqb_spec c 8217) as [->|]; [reflexivity|].
  destruct (N.eqb_spec c 8216) as [->|]; [reflexivity|].
  destruct (N.eqb_spec c 160) as [->|]; reflexivity.
Qed.

Lemma replaced_not_curly (c : codepoint) :
  ((replaced c =? 8216) || (replaced c =? 8217))%N = false.
Proof.
  unfold replaced.
  destruct (N.eqb_spec c 8217) as [->|H1]; [reflexivity|].
  destruct (N.eqb_spec c 8216) as [->|H2]; [reflexivity|].
  destruct (N.eqb_spec c 160) as [->|H3]; [reflexivity|].
  apply orb_false_iff; split; now apply N.eqb_neq.
Qed.

(** The shape of a string after the replacements and the collapse: no
    curly apostrophe, every whitespace a single U+0020; [prev] says that
    the code point before the string is whitespace. *)
Fixpoint tidy (prev : bool) (s : pystr) : bool :=
  match s with
  | [] => true
  | c :: r =>
      if is_space c then (c =? 32)%N && negb prev && tidy true r
      else negb ((c =? 8216) || (c =? 8217))%N && tidy false r
  end.

Lemma tidy_collapse (s : pystr) (b : bool) :
  tidy b (sub_ws_runs_from b (List.map replaced s)) = true.
Proof.
  revert b; induction s as [|c s IH]; intro b; [reflexivity|].
  cbn [List.map sub_ws_runs_from]. rewrite replaced_space.
  destruct (is_space c) eqn:Hc.
  - destruct b; cbn [app]; [apply IH|].
    cbn [tidy]. change (is_space 32%N) with true. cbn. apply IH.
  - cbn [tidy]. rewrite replaced_space, Hc, replaced_not_curly. apply IH.
Qed.

Lemma tidy_weaken (s : pystr) (b : bool) :
  tidy b s = true -> tidy false s = true.
Proof.
  destruct s as [|c r]; [reflexivity|]. cbn [tidy].
  destruct (is_space c); [|trivial].
  destruct b; cbn; [|trivial].
  rewrite andb_false_r. discriminate.
Qed.

Lemma tidy_replaced (s : pystr) (b : bool) :
  tidy b s = true -> List.map replaced s = s.
Proof.
  revert b; induction s as [|c r IH]; intros b H; [reflexivity|].
  cbn [tidy] in H. cbn [List.map].
  destruct (is_space c) eqn:Hc.
  - apply andb_prop in H as [H Hr]. apply andb_prop in H as [H _].
    apply N.eqb_eq in H; subst c. rewrite (IH _ Hr). reflexivity.
  - apply andb_prop in H as [H Hr]. rewrite (IH _ Hr). f_equal.
    apply negb_true_iff, orb_false_iff in H as [H1 H2].
    unfold replaced. rewrite H1, H2.
    destruct (N.eqb_spec c 160) as [->|]; [discriminate Hc|reflexivity].
Qed.

Lemma tidy_collapse_id (s : pystr) (b : bool) :
  tidy b s = true -> sub_ws_runs_from b s = s.
Proof.
  revert b; induction s as [|c r IH]; intros b H; [reflexivity|].
  cbn [tidy] in H. cbn [sub_ws_runs_from].
  destruct (is_space c) eqn:Hc.
  - apply andb_prop in H as [H Hr]. apply andb_prop in H as [H Hb].
    apply N.eqb_eq in H; subst c. apply negb_true_iff in Hb; subst b.
    cbn [app]. now rewrite (IH _ Hr).
  - apply andb_prop in H as [_ Hr]. now rewrite (IH _ Hr).
Qed.

Lemma tidy_lstrip (s : pystr) (b : bool) :
  tidy b s = true -> tidy false (lstrip s) = true.
Proof.
  revert b; induction s as [|c r IH]; intros b H; [reflexivity|].
  cbn [lstrip]. destruct (is_space c) eqn:Hc.
  - cbn [tidy] in H. rewrite Hc in H.
    apply andb_prop in H as [_ Hr]. exact (IH _ Hr).
  - exact (tidy_weaken _ _ H).
Qed.

Lemma tidy_rstrip (s : pystr) (b : bool) :
  tidy b s = true -> tidy b (rstrip s) = true.
Proof.
  revert b; induction s as [|c r IH]; intros b H; [reflexivity|].
  cbn [tidy] in H. cbn [rstrip].
  destruct (is_space c) eqn:Hc.
  - apply andb_prop in H as [H Hr]. specialize (IH _ Hr).
    destruct (rstrip r) as [|x r'] eqn:Er; [reflexivity|].
    cbn [tidy]. rewrite Hc, H. exact IH.
  - apply andb_prop in H as [H Hr]. specialize (IH _ Hr).
    destruct (rstrip r) as [|x r'] eqn:Er.
    + cbn [tidy]. rewrite Hc, H. reflexivity.
    + cbn [tidy]. rewrite Hc, H. exact IH.
Qed.

(** No whitespace at the head. *)
Definition headed (s : pystr) : Prop :=
  match s with
  | [] => True
  | c :: _ => is_space c = false
  end.

Lemma headed_lstrip (s : pystr) : headed (lstrip s).
Proof.
  induction s as [|c r IH]; [exact I|].
  cbn [lstrip]. destruct (is_space c) eqn:Hc; [exact IH|exact Hc].
Qed.

Lemma headed_rstrip (s : pystr) : headed s -> headed (rstrip s).
Proof.
  destruct s as [|c r]; [trivial|]. cbn [headed rstrip]. intro Hc.
  destruct (rstrip r); [rewrite Hc|]; exact Hc.
Qed.

Lemma lstrip_headed (s : pystr) : headed s -> lstrip s = s.
Proof.
  destruct s as [|c r]; [trivial|]. cbn [headed lstrip].
  now intros ->.
Qed.

Lemma rstrip_idem (s : pystr) : rstrip (rstrip s) = rstrip s.
Proof.
  induction s as [|c r IH]; [reflexivity|].
  cbn [rstrip]. destruct (rstrip r) as [|x r'] eqn:Er.
  - destruct (is_space c) eqn:Hc; [reflexivity|].
    cbn [rstrip]. now rewrite Hc.
  - cbn [rstrip]. cbn [rstrip] in IH. rewrite IH. reflexivity.
Qed.

Lemma strip_idem (s : pystr) : strip (strip s) = strip s.
Proof.
  unfold strip.
  rewrite (lstrip_headed _ (headed_rstrip _ (headed_lstrip s))).
  apply rstrip_idem.
Qed.

Lemma rstrip_app_space (s : pystr) (w : codepoint) :
  is_space w = true -> rstrip (s ++ [w]) = rstrip s.
Proof.
  intro Hw. induction s as [|c r IH].
  - cbn. now rewrite Hw.
  - cbn [app rstrip]. now rewrite IH.
Qed.

Lemma strip_app_space (s : pystr) (w : codepoint) :
  is_space w = true -> strip (s ++ [w]) = strip s.
Proof.
  intro Hw. unfold strip. induction s as [|c r IH].
  - cbn. now rewrite Hw.
  - cbn [app lstrip]. destruct (is_space c); [exact IH|].
    exact (rstrip_app_space (c :: r) w Hw).
Qed.

Lemma collapse_space_kind (x y : pystr) (a b : codepoint) (f : bool) :
  is_space a = true -> is_space b = true ->
  sub_ws_runs_from f (x ++ a :: y) = sub_ws_runs_from f (x ++ b :: y).
Proof.
  intros Ha Hb. revert f; induction x as [|c x IH]; intro f.
  - cbn. now rewrite Ha, Hb.
  - cbn [app sub_ws_runs_from]. now rewrite !IH.
Qed.

Lemma collapse_space_run (x y : pystr) (a b : codepoint) (f : bool) :
  is_space a = true -> is_space b = true ->
  sub_ws_runs_from f (x ++ a :: b :: y) = sub_ws_runs_from f (x ++ a :: y).
Proof.
  intros Ha Hb. revert f; induction x as [|c x IH]; intro f.
  - cbn. now rewrite Ha, Hb.
  - cbn [app sub_ws_runs_from]. now rewrite !IH.
Qed.

Lemma collapse_lstrip (s : pystr) :
  lstrip (sub_ws_runs_from true s) = lstrip (sub_ws_runs_from false s).
Proof.
  destruct s as [|c r]; [reflexivity|].
  cbn [sub_ws_runs_from]. destruct (is_space c); reflexivity.
Qed.

Lemma collapse_trailing (s : pystr) (a : codepoint) (f : bool) :
  is_space a = true ->
  sub_ws_runs_from f (s ++ [a]) = sub_ws_runs_from f s
  \/ sub_ws_runs_from f (s ++ [a]) = sub_ws_runs_from f s ++ [32%N].
Proof.
  intro Ha. revert f; induction s as [|c r IH]; intro f.
  - cbn. rewrite Ha. destruct f; [now left|now right].
  - cbn [app sub_ws_runs_from]. destruct (is_space c).
    + destruct (IH true) as [->| ->]; [now left|right].
      now rewrite app_assoc.
    + destruct (IH false) as [->| ->]; [now left|now right].
Qed.

Lemma normalize_step (s t : pystr) :
  glyph_step s t ->
  normalize_source_name (Some s) = normalize_source_name (Some t).
Proof.
  intro H. rewrite !normalize_unfold. f_equal.
  destruct H as [l a b r Ha Hb|l a b r Ha Hb|l a b r Ha Hb|a s Ha|a s Ha].
  - rewrite !map_app. cbn [List.map].
    unfold is_apostrophe in *.
    replace (replaced a) with 39%N; [replace (replaced b) with 39%N|];
      [reflexivity| |].
    + apply orb_prop in Hb as [Hb|Hb]; [apply orb_prop in Hb as [Hb|Hb]|];
        apply N.eqb_eq in Hb; subst; reflexivity.
    + apply orb_prop in Ha as [Ha|Ha]; [apply orb_prop in Ha as [Ha|Ha]|];
        apply N.eqb_eq in Ha; subst; reflexivity.
  - rewrite !map_app. cbn [List.map]. unfold sub_ws_runs.
    f_equal. apply collapse_space_kind; now rewrite replaced_space.
  - rewrite !map_app. cbn [List.map]. unfold sub_ws_runs.
    f_equal. apply collapse_space_run; now rewrite replaced_space.
  - cbn [List.map]. unfold sub_ws_runs. cbn [sub_ws_runs_from].
    rewrite replaced_space, Ha. unfold strip. cbn [app lstrip].
    change (is_space 32%N) with true. cbv iota. now rewrite collapse_lstrip.
  - rewrite map_app. cbn [List.map]. unfold sub_ws_runs.
    destruct (collapse_trailing (List.map replaced s) (replaced a) false)
      as [->| ->]; [now rewrite replaced_space|reflexivity|].
    now apply strip_app_space.
Qed.

End Normalize.

(** C7. Normalising a normalised name changes nothing, and two names
    that differ only in apostrophe glyph (straight or curly) or in
    whitespace width (non-breaking or regular space, a run or a single
    space, leading or trailing whitespace) have the same normal form. *)
Theorem normalize_source_name_idempotent_and_glyph_blind :
  (forall s : option pystr,
      normalize_source_name (normalize_source_name s)
      = normalize_source_name s)
  /\ (forall s t : pystr,
         same_up_to_glyphs s t ->
         normalize_source_name (Some s) = normalize_source_name (Some t)).
Proof.
  split.
  - intros [s|]; [|reflexivity].
    rewrite normalize_unfold.
    set (t := sub_ws_runs (List.map replaced s)).
    assert (Ht : tidy false t = true) by apply tidy_collapse.
    assert (Ho : tidy false (strip t) = true).
    { unfold strip. apply tidy_rstrip. exact (tidy_lstrip _ _ Ht). }
    rewrite normalize_unfold, (tidy_replaced _ _ Ho).
    unfold sub_ws_runs. rewrite (tidy_collapse_id _ _ Ho).
    now rewrite strip_idem.
  - intros s t H. induction H as [s t H| | |s t u _ IH1 _ IH2].
    + now apply normalize_step.
    + reflexivity.
    + now symmetry.
    + now transitivity (normalize_source_name (Some t)).
Qed.

(** A chain of four steps relates a name typed with a curly apostrophe,
    a non-breaking space before a regular one and a trailing space to
    its plain spelling. *)
Lemma normalize_source_name_glyph_blind_witness :
  normalize_source_name
    (Some (str "Bob" ++ [8217%N] ++ str "s" ++ [160%N; 32%N] ++ str "Mac "))
  = normalize_source_name (Some (str "Bob's Mac")).
Proof.
  apply (proj2 normalize_source_name_idempotent_and_glyph_blind).
  apply glyphs_trans
    with (str "Bob's" ++ [160%N; 32%N] ++ str "Mac ").
  { apply glyphs_step.
    exact (step_apostrophe (str "Bob") 8217%N 39%N
             (str "s" ++ [160%N; 32%N] ++ str "Mac ") eq_refl eq_refl). }
  apply glyphs_trans with (str "Bob's" ++ [32%N; 32%N] ++ str "Mac ").
  { apply glyphs_step.
    exact (step_space_kind (str "Bob's") 160%N 32%N
             (32%N :: str "Mac ") eq_refl eq_refl). }
  apply glyphs_trans with (str "Bob's Mac ").
  { apply glyphs_step.
    exact (step_space_run (str "Bob's") 32%N 32%N (str "Mac ")
             eq_refl eq_refl). }
  apply glyphs_step.
  exact (step_trailing 32%N (str "Bob's Mac") eq_refl).
Defined.

(** ** Route distance *)

Module RouteDistance.
Import health_postprocess.
Local Open Scope R_scope.

(** The coordinates of the points that have both, in file order. *)
Fixpoint valid_coords (points : list point) : list (pyfloat * pyfloat) :=
  match points with
  | [] => []
  | p :: rest =>
      match lat_of p, lon_of p with
      | Some lat, Some lon => (lat, lon) :: valid_coords rest
      | _, _ => valid_coords rest
      end
  end.

(** The length of the polyline through [cs]: one great-circle term per
    pair of neighbours. *)
Fixpoint path_km (cs : list (pyfloat * pyfloat)) : result pyfloat :=
  match cs with
  | a :: (b :: _) as rest =>
      d <- haversine_km (fst b) (snd b) (fst a) (snd a) ;;
      s <- path_km rest ;;
      Ok (fadd d s)
  | _ => Ok (Finite 0)
  end.

(** The sum the specification words describe: one term per pair of
    neighbours in the file of which both have coordinates. *)
Fixpoint adjacent_pairs_km (points : list point) : result pyfloat :=
  match points with
  | p :: (q :: _) as rest =>
      d <- match lat_of p, lon_of p, lat_of q, lon_of q with
           | Some lat1, Some lon1, Some lat2, Some lon2 =>
               haversine_km lat2 lon2 lat1 lon1
           | _, _, _, _ => Ok (Finite 0)
           end ;;
      s <- adjacent_pairs_km rest ;;
      Ok (fadd d s)
  | _ => Ok (Finite 0)
  end.

Definition from_last (lp : option (pyfloat * pyfloat))
  (cs : list (pyfloat * pyfloat)) : list (pyfloat * pyfloat) :=
  match lp with
  | Some c => c :: cs
  | None => cs
  end.

(** *** Sums of floats *)

Lemma fadd_assoc (a b c : pyfloat) :
  fadd (fadd a b) c = fadd a (fadd b c).
Proof.
  destruct a as [x|[|]|], b as [y|[|]|], c as [z|[|]|]; cbn;
    try reflexivity; f_equal; lra.
Qed.

Lemma fadd_0_r (a : pyfloat) : fadd a (Finite 0) = a.
Proof. destruct a; cbn; [f_equal; lra|reflexivity|reflexivity]. Qed.

Lemma fadd_zero_l (a : pyfloat) : fadd (Finite 0.0) a = a.
Proof. destruct a; cbn; [f_equal; lra|reflexivity|reflexivity]. Qed.

Lemma bind_ok {A} (m : result A) : (x <- m ;; Ok x) = m.
Proof. now destruct m. Qed.

(** *** The accumulation of the loop *)

Lemma walked_km_path (route_id : Z) (points : list point) :
  forall (w : walk) (idx : nat),
    (w' <- walk_points route_id w idx points ;; Ok (walked_km w'))
    = (s <- path_km (from_last (last_point w) (valid_coords points)) ;;
       Ok (fadd (walked_km w) s)).
Proof.
  induction points as [|p rest IH]; intros w idx.
  - cbn [walk_points valid_coords bind].
    destruct (last_point w); cbn [from_last path_km bind];
      now rewrite fadd_0_r.
  - cbn [walk_points valid_coords]. unfold walk_point.
    destruct (lat_of p) as [lat|], (lon_of p) as [lon|];
      cbn [bind]; try (rewrite IH; reflexivity).
    destruct (last_point w) as [lp|]; cbn [bind from_last].
    + change (path_km (lp :: (lat, lon) :: valid_coords rest))
        with (d <- haversine_km lat lon (fst lp) (snd lp) ;;
              s <- path_km ((lat, lon) :: valid_coords rest) ;;
              Ok (fadd d s)).
      destruct (haversine_km lat lon (fst lp) (snd lp)) as [d|e];
        cbn [bind]; [|reflexivity].
      rewrite IH. cbn [last_point walked_km from_last].
      destruct (path_km ((lat, lon) :: valid_coords rest)); cbn [bind];
        [|reflexivity].
      now rewrite fadd_assoc.
    + rewrite IH. reflexivity.
Qed.

Lemma route_distance_path (points : list point) :
  route_distance points = path_km (valid_coords points).
Proof.
  unfold route_distance. rewrite walked_km_path. cbn [last_point
    walked_km from_last].
  destruct (path_km (valid_coords points)); cbn [bind]; [|reflexivity].
  now rewrite fadd_zero_l.
Qed.

Lemma valid_coords_app (l r : list point) :
  valid_coords (l ++ r) = valid_coords l ++ valid_coords r.
Proof.
  induction l as [|p l IH]; [reflexivity|].
  cbn [app valid_coords].
  destruct (lat_of p), (lon_of p); cbn [app]; now rewrite ?IH.
Qed.

(** *** Finite coordinates *)

(** The value of [haversine_km] at finite coordinates. *)
Definition great_circle_km (lat1 lon1 lat2 lon2 : R) : R :=
  2 * 6371.0088
  * asin (sqrt (sin ((lat2 - lat1) * (PI / 180) / 2.0) ^ 2
                + cos (lat1 * (PI / 180)) * cos (lat2 * (PI / 180))
                  * sin ((lon2 - lon1) * (PI / 180) / 2.0) ^ 2)).

Lemma sin_half_sqr (x : R) : sin (x / 2) ^ 2 = (1 - cos x) / 2.
Proof.
  pose proof (cos_2a_sin (x / 2)) as H.
  replace (2 * (x / 2)) with x in H by lra. nra.
Qed.

Lemma hav_bounds (lat1 lon1 lat2 lon2 : R) :
  0 <= sin ((lat2 - lat1) * (PI / 180) / 2.0) ^ 2
       + cos (lat1 * (PI / 180)) * cos (lat2 * (PI / 180))
         * sin ((lon2 - lon1) * (PI / 180) / 2.0) ^ 2
    <= 1.
Proof.
  set (p1 := lat1 * (PI / 180)). set (p2 := lat2 * (PI / 180)).
  replace ((lat2 - lat1) * (PI / 180) / 2.0) with ((p2 - p1) / 2)
    by (unfold p1, p2; lra).
  replace ((lon2 - lon1) * (PI / 180) / 2.0)
    with ((lon2 - lon1) * (PI / 180) / 2) by lra.
  set (l := (lon2 - lon1) * (PI / 180)).
  rewrite !sin_half_sqr, cos_minus.
  pose proof (COS_bound (p2 - p1)) as [A1 A2]. rewrite cos_minus in A1, A2.
  pose proof (COS_bound (p2 + p1)) as [B1 B2]. rewrite cos_plus in B1, B2.
  pose proof (COS_bound l) as [C1 C2].
  set (c1 := cos p1) in *. set (c2 := cos p2) in *.
  set (s1 := sin p1) in *. set (s2 := sin p2) in *.
  set (v := cos l) in *.
  split; nra.
Qed.

Lemma is_negative_false (x : R) : 0 <= x -> is_negative x = false.
Proof. intro H. unfold is_negative. destruct (Rlt_dec x 0); [lra|easy]. Qed.

Lemma haversine_finite (lat1 lon1 lat2 lon2 : R) :
  haversine_km (Finite lat1) (Finite lon1) (Finite lat2) (Finite lon2)
  = Ok (Finite (great_circle_km lat1 lon1 lat2 lon2)).
Proof.
  unfold haversine_km, great_circle_km.
  cbn [radians fsub fdiv fsin fcos bind fpow2 fmul fadd].
  pose proof (hav_bounds lat1 lon1 lat2 lon2) as [H0 H1].
  set (a := sin ((lat2 - lat1) * (PI / 180) / 2.0) ^ 2
            + cos (lat1 * (PI / 180)) * cos (lat2 * (PI / 180))
              * sin ((lon2 - lon1) * (PI / 180) / 2.0) ^ 2) in *.
  unfold fsqrt. rewrite (is_negative_false a H0). cbn [bind].
  pose proof (sqrt_pos a) as Hq.
  assert (Hq1 : sqrt a <= 1).
  { rewrite <- sqrt_1. now apply sqrt_le_1_alt. }
  unfold fasin.
  rewrite (is_negative_false (sqrt a + 1)) by lra.
  rewrite (is_negative_false (1 - sqrt a)) by lra.
  reflexivity.
Qed.








(** The polyline through finite coordinates. *)
Fixpoint polyline_km (cs : list (R * R)) : R :=
  match cs with
  | a :: (b :: _) as rest =>
      great_circle_km (fst b) (snd b) (fst a) (snd a) + polyline_km rest
  | _ => 0
  end.

Definition finite_pair (c : R * R) : pyfloat * pyfloat :=
  (Finite (fst c), Finite (snd c)).



Lemma path_km_finite (cs : list (R * R)) :
  path_km (List.map finite_pair cs) = Ok (Finite (polyline_km cs)).
Proof.
  induction cs as [|a cs IH]; [reflexivity|].
  destruct cs as [|b cs]; [reflexivity|].
  change (path_km (List.map finite_pair (a :: b :: cs)))
    with (d <- haversine_km (Finite (fst b)) (Finite (snd b))
                 (Finite (fst a)) (Finite (snd a)) ;;
          s <- path_km (List.map finite_pair (b :: cs)) ;;
          Ok (fadd d s)).
  rewrite haversine_finite, IH. reflexivity.
Qed.



Lemma great_circle_km_half_turn :
  great_circle_km 0 180 0 0 = 6371.0088 * PI.
Proof.
  unfold great_circle_km.
  replace ((0 - 0) * (PI / 180) / 2.0) with 0 by lra.
  replace ((0 - 180) * (PI / 180) / 2.0) with (- (PI / 2)) by lra.
  replace (0 * (PI / 180)) with 0 by lra.
  rewrite sin_0, cos_0, sin_neg, sin_PI2.
  match goal with
  | |- context [sqrt ?a] => replace a with 1 by (simpl; lra)
  end.
  rewrite sqrt_1, asin_1. lra.
Qed.

End RouteDistance.

(** C1, as the code has it. The distance stored for a file is the
    length of the polyline through the points that have both
    coordinates, in file order: a point missing a coordinate adds no
    term and leaves the accumulation state as it is, so its two valid
    neighbours are joined by one term. *)
Theorem route_distance_joins_valid_points :
  (forall (route_id : Z) (buffered : list health_postprocess.point_row)
          (points : list health_postprocess.point),
      (w <- health_postprocess.walk_points route_id
              {| health_postprocess.last_point := None;
                 health_postprocess.walked_km := Finite 0.0%R;
                 health_postprocess.walked_rows := buffered |} 0 points ;;
       Ok (health_postprocess.walked_km w))
      = RouteDistance.path_km (RouteDistance.valid_coords points))
  /\ (forall (before after : list health_postprocess.point)
             (lat lon ele : option pyfloat) (time : option pystr),
         health_postprocess.route_distance
           (before ++ (None, lon, ele, time) :: after)
         = health_postprocess.route_distance (before ++ after)
         /\ health_postprocess.route_distance
              (before ++ (lat, None, ele, time) :: after)
            = health_postprocess.route_distance (before ++ after)).
Proof.
  split.
  - intros route_id buffered points.
    rewrite RouteDistance.walked_km_path.
    cbn [health_postprocess.last_point health_postprocess.walked_km
         RouteDistance.from_last].
    destruct (RouteDistance.path_km _); cbn [bind]; [|reflexivity].
    now rewrite RouteDistance.fadd_zero_l.
  - intros before after lat lon ele time.
    rewrite !RouteDistance.route_distance_path.
    rewrite !RouteDistance.valid_coords_app.
    cbn [RouteDistance.valid_coords health_postprocess.lat_of
         health_postprocess.lon_of fst snd].
    destruct lat; split; reflexivity.
Qed.

(** C1 as stated fails: between two valid points half a turn apart on
    the equator lies a point without latitude; no pair of neighbours
    has both coordinates, yet the code stores the distance between the
    two valid points. *)
Lemma route_distance_bridges_gap :
  RouteDistance.adjacent_pairs_km
    [(Some (Finite 0), Some (Finite 0), None, None);
     (None, Some (Finite 90), None, None);
     (Some (Finite 0), Some (Finite 180), None, None)]
  = Ok (Finite 0)
  /\ health_postprocess.route_distance
       [(Some (Finite 0), Some (Finite 0), None, None);
        (None, Some (Finite 90), None, None);
        (Some (Finite 0), Some (Finite 180), None, None)]
     = Ok (Finite (6371.0088 * PI))
  /\ (0 < 6371.0088 * PI)%R.
Proof.
  split; [cbn; do 2 f_equal; lra|]. split.
  - rewrite RouteDistance.route_distance_path.
    change (RouteDistance.valid_coords _)
      with (List.map RouteDistance.finite_pair [(0, 0); (0, 180)]%R).
    rewrite RouteDistance.path_km_finite. cbn [RouteDistance.polyline_km
      fst snd].
    rewrite RouteDistance.great_circle_km_half_turn. do 2 f_equal. lra.
  - pose proof PI_RGT_0. nra.
Qed.




(** ** A runtime for closed examples *)

(** [float] on an optional sign, one or more digits and an optional
    point with its digits, if any ([12.] is 12), and on [nan], [inf] and
    [-inf]. *)
Definition ascii_float (s : pystr) : option pyfloat :=
  if PyStr.eqb s (str "nan") then Some NaN
  else if PyStr.eqb s (str "inf") then Some (Inf false)
  else if PyStr.eqb s (str "-inf") then Some (Inf true)
  else
  let unsigned :=
    match s with
    | c :: r => if ((c =? 43) || (c =? 45))%N then r else s
    | [] => s
    end in
  let sign := match s with 45%N :: _ => (-1)%Z | _ => 1%Z end in
  let whole :=
    health_postprocess.take_while health_postprocess.is_ascii_digit
      unsigned in
  match whole with
  | [] => None
  | _ =>
      match health_postprocess.drop_while
              health_postprocess.is_ascii_digit unsigned with
      | [] =>
          Some (Finite
                  (IZR (sign * health_postprocess.digits_value whole)))
      | 46%N :: frac =>
          if forallb health_postprocess.is_ascii_digit frac
          then Some (Finite
                       (IZR (sign * health_postprocess.digits_value
                                      (whole ++ frac))
                        / IZR (10 ^ Z.of_nat (List.length frac)))%R)
          else None
      | _ => None
      end
  end.

Definition ascii_runtime : PyRuntime :=
  {| py_float := ascii_float;
     is_decimal := health_postprocess.is_ascii_digit |}.

(** ** The view [records_norm] *)

Module RecordsNorm.
Import health_postprocess.

(** No prefix of [s] reads as a number: after the leading spaces comes
    neither a digit, a sign nor a point. *)
Definition no_numeric_prefix (s : pystr) : bool :=
  match drop_while sqlite_isspace s with
  | [] => true
  | c :: _ =>
      negb (is_ascii_digit c || (c =? 43) || (c =? 45) || (c =? 46))%N
  end.

Lemma Qred_zero_num (d : positive) : Qred (0 # d) = 0%Q.
Proof.
  change 0%Q with (Qred 0). apply Qred_complete. unfold Qeq. reflexivity.
Qed.

Lemma take_while_all (f : codepoint -> bool) (s : pystr) :
  forallb f s = true -> take_while f s = s /\ drop_while f s = [].
Proof.
  induction s as [|c r IH]; [now split|]. cbn.
  intro H. apply andb_prop in H as [Hc Hr]. rewrite Hc.
  destruct (IH Hr) as [-> ->]. now split.
Qed.

Lemma atof_no_numeric_prefix (s : pystr) :
  no_numeric_prefix s = true -> sqlite_atof s = 0%Q.
Proof.
  unfold no_numeric_prefix, sqlite_atof.
  destruct (drop_while sqlite_isspace s) as [|c r].
  - intros _. reflexivity.
  - intro H. apply negb_true_iff in H.
    apply orb_false_iff in H as [H H46].
    apply orb_false_iff in H as [H H45].
    apply orb_false_iff in H as [Hd H43].
    unfold sign_at. rewrite H45, H43.
    cbn [take_while drop_while]. rewrite Hd.
    unfold fraction_at. rewrite H46.
    cbn [app digits_value fold_left List.length].
    unfold Qmult. cbn [inject_Z Qnum Qden]. rewrite Z.mul_0_l.
    apply Qred_zero_num.
Qed.

Lemma atof_digits (ds : pystr) :
  ds <> [] -> forallb is_ascii_digit ds = true ->
  (sqlite_atof ds == inject_Z (digits_value ds))%Q.
Proof.
  intros Hne Hd. unfold sqlite_atof.
  destruct ds as [|c r]; [congruence|].
  assert (Hc : is_ascii_digit c = true).
  { cbn in Hd. now apply andb_prop in Hd as [Hc _]. }
  unfold is_ascii_digit in Hc. apply andb_prop in Hc as [H1 H2].
  apply N.leb_le in H1, H2.
  assert (Hsp : sqlite_isspace c = false).
  { unfold sqlite_isspace.
    destruct (N.leb_spec 9 c), (N.leb_spec c 13), (N.eqb_spec c 32);
      cbn; try reflexivity; lia. }
  cbn [drop_while]. rewrite Hsp. unfold sign_at.
  destruct (N.eqb_spec c 45); [lia|].
  destruct (N.eqb_spec c 43); [lia|].
  destruct (take_while_all is_ascii_digit (c :: r) Hd) as [-> ->].
  cbn [fraction_at exponent_at List.length]. rewrite app_nil_r.
  rewrite Qred_correct. cbn [Z.of_nat Z.sub Qpower].
  apply Qmult_1_r.
Qed.

End RecordsNorm.

(** C3, as the code has it. [value_num] of a view row is SQLite's
    reading of the stored text as a REAL: null exactly when the stored
    value is null, never an error, 0 for a text no prefix of which reads
    as a number, and the number itself for a text of digits. *)
Theorem value_num_is_cast_of_text :
  forall (records : list health_postprocess.record_row)
         (source_aliases : dict (option pystr)),
    List.map health_postprocess.value_num
      (health_postprocess.records_norm records source_aliases)
    = List.map (fun r => health_postprocess.cast_real
                           (health_postprocess.rec_value r)) records
    /\ (forall x : option pystr,
           health_postprocess.cast_real x = None <-> x = None)
    /\ (forall s : pystr,
           RecordsNorm.no_numeric_prefix s = true ->
           health_postprocess.cast_real (Some s) = Some 0%Q)
    /\ (forall ds : pystr,
           ds <> [] ->
           forallb health_postprocess.is_ascii_digit ds = true ->
           exists q : Q,
             health_postprocess.cast_real (Some ds) = Some q
             /\ (q == inject_Z (health_postprocess.digits_value ds))%Q).
Proof.
  intros records source_aliases. repeat split.
  - unfold health_postprocess.records_norm. rewrite map_map. reflexivity.
  - destruct x; [discriminate|reflexivity].
  - intros ->. reflexivity.
  - intros s H. cbn. now rewrite RecordsNorm.atof_no_numeric_prefix.
  - intros ds Hne Hd. eexists; split; [reflexivity|].
    now apply RecordsNorm.atof_digits.
Qed.

Lemma value_num_is_cast_witness :
  health_postprocess.cast_real (Some (str "  n/a")) = Some 0%Q.
Proof.
  apply (proj1 (proj2 (proj2 (value_num_is_cast_of_text [] [])))).
  reflexivity.
Defined.

Definition step_count_row (value : string)
  : health_postprocess.record_row :=
  {| health_postprocess.rec_id := 1;
     health_postprocess.rec_type := Some (str "StepCount");
     health_postprocess.rec_unit := Some (str "count");
     health_postprocess.rec_value := Some (str value);
     health_postprocess.rec_source_name := Some (str "Phone");
     health_postprocess.rec_source_version := None;
     health_postprocess.rec_device := None;
     health_postprocess.rec_creation_date := None;
     health_postprocess.rec_start_date := None;
     health_postprocess.rec_end_date := None |}.

(** C3 as stated fails: a record whose stored value is not numeric gets
    the number 0 in the view, not null. *)
Lemma value_num_of_text_is_zero :
  List.map health_postprocess.value_num
    (health_postprocess.records_norm [step_count_row "abc"]
       [(str "Phone", Some (str "Phone"))])
  = [Some 0%Q].
Proof. reflexivity. Qed.

Example value_num_of_120 :
  List.map (fun v => (health_postprocess.value_num v,
                      health_postprocess.source_name_norm v))
    (health_postprocess.records_norm [step_count_row "120"]
       [(str "Phone", Some (str "Phone"))])
  = [(Some (120 # 1)%Q, Some (str "Phone"))].
Proof. reflexivity. Qed.

(** ** Consecutive ids *)

Module Ids.

(** [start], [start + 1], ..., [n] of them. *)
Definition ids_from (start : Z) (n : nat) : list Z :=
  List.map (fun i => (start + Z.of_nat i)%Z) (seq 0 n).

Lemma ids_from_snoc (start : Z) (n : nat) :
  ids_from start (S n) = ids_from start n ++ [(start + Z.of_nat n)%Z].
Proof. unfold ids_from. now rewrite seq_S, map_app. Qed.

Lemma ids_from_cons (start : Z) (n : nat) :
  ids_from start (S n) = start :: ids_from (start + 1) n.
Proof.
  unfold ids_from. cbn [seq List.map]. rewrite Z.add_0_r. f_equal.
  rewrite <- seq_shift, map_map. apply map_ext. intro i. lia.
Qed.

Lemma ids_from_lt (start : Z) (n : nat) (z : Z) :
  In z (ids_from start n) -> (start <= z < start + Z.of_nat n)%Z.
Proof.
  unfold ids_from. rewrite in_map_iff. intros [i [<- Hi]].
  apply in_seq in Hi. lia.
Qed.

Lemma ids_from_NoDup (start : Z) (n : nat) : NoDup (ids_from start n).
Proof.
  induction n as [|n IH]; [constructor|].
  rewrite ids_from_snoc. apply NoDup_app; [exact IH|repeat constructor; easy|].
  intros z Hz [<-|[]]. apply ids_from_lt in Hz. lia.
Qed.

End Ids.

(** ** Primary ingestion *)

Module Ingest.
Import health_to_sqlite Ids.

(** Whether an event appends a row to table [t]. *)
Definition writes_to (t : table) (ev : event) : bool :=
  match ev with
  | (End, elem) =>
      match table_of_tag (tag elem) with
      | Some t' => table_eqb t' t
      | None => false
      end
  | (Start, _) => false
  end.

Definition count_rows (t : table) (events : list event) : nat :=
  List.length (filter (writes_to t) events).

(** An event that is not the end of a [Record]. *)
Definition not_record_end (ev : event) : bool :=
  match ev with
  | (End, elem) => negb (PyStr.eqb (tag elem) (str "Record"))
  | (Start, _) => true
  end.

Definition fresh : conn := {| rows_of := fun _ => []; commits := 0 |}.

Lemma table_eqb_spec (a b : table) : reflect (a = b) (table_eqb a b).
Proof. destruct a, b; constructor; congruence. Qed.

Lemma insert_ok (t : table) (stored s' : list row) (r : row) :
  insert t stored r = Ok s' -> s' = stored ++ [r].
Proof.
  unfold insert. destruct (row_id r).
  - destruct (has_primary_key t && id_taken z stored); congruence.
  - congruence.
Qed.

Lemma executemany_ok (t : table) (rows : list row) :
  forall stored s',
    executemany t stored rows = Ok s' -> s' = stored ++ rows.
Proof.
  induction rows as [|r rest IH]; intros stored s' H; cbn in H.
  - rewrite app_nil_r. congruence.
  - destruct (insert t stored r) as [x|] eqn:Hi; [|discriminate].
    cbn in H. apply insert_ok in Hi; subst x.
    rewrite (IH _ _ H), <- app_assoc. reflexivity.
Qed.

Lemma id_taken_false (z : Z) (stored : list row) (l : list Z) :
  List.map row_id stored = List.map Some l -> ~ In z l ->
  id_taken z stored = false.
Proof.
  revert l; induction stored as [|r stored IH]; intros l Hm Hz;
    [reflexivity|].
  destruct l as [|a l]; [discriminate|]. cbn in Hm.
  injection Hm as Hr Hm. cbn. rewrite Hr.
  destruct (Z.eqb_spec a z) as [->|_]; [exfalso; apply Hz; now left|].
  cbn. apply (IH l Hm). intro; apply Hz; now right.
Qed.

Lemma executemany_fresh (t : table) (rows : list row) :
  forall (stored : list row) (l : list Z),
    List.map row_id (stored ++ rows) = List.map Some l -> NoDup l ->
    executemany t stored rows = Ok (stored ++ rows).
Proof.
  induction rows as [|r rest IH]; intros stored l Hm Hl; cbn.
  - now rewrite app_nil_r.
  - assert (Hm' : List.map row_id ((stored ++ [r]) ++ rest)
                  = List.map Some l) by now rewrite <- app_assoc.
    rewrite map_app in Hm.
    assert (Hsplit : exists l1 z l2,
               l = l1 ++ z :: l2
               /\ List.map row_id stored = List.map Some l1
               /\ row_id r = Some z).
    { clear - Hm. revert l Hm.
      induction stored as [|x stored IHs]; intros l Hm.
      - destruct l as [|z l2]; [discriminate|]. cbn in Hm.
        injection Hm as Hr _. now exists [], z, l2.
      - destruct l as [|a l]; [discriminate|]. cbn in Hm.
        injection Hm as Hx Hm.
        destruct (IHs l Hm) as [l1 [z [l2 [-> [H1 H2]]]]].
        exists (a :: l1), z, l2. cbn. now rewrite Hx, H1. }
    destruct Hsplit as [l1 [z [l2 [-> [H1 H2]]]]].
    unfold insert. rewrite H2.
    rewrite (@id_taken_false z stored l1 H1).
    + rewrite andb_false_r. cbn.
      rewrite (IH _ _ Hm' Hl), <- app_assoc. reflexivity.
    + apply NoDup_remove_2 in Hl. intro; apply Hl.
      apply in_or_app; now left.
Qed.

Lemma executemany_no_key (t : table) (rows : list row) :
  has_primary_key t = false ->
  forall stored, executemany t stored rows = Ok (stored ++ rows).
Proof.
  intro Ht. induction rows as [|r rest IH]; intro stored; cbn.
  - now rewrite app_nil_r.
  - unfold insert. rewrite Ht. cbn.
    destruct (row_id r); cbn; rewrite IH, <- app_assoc; reflexivity.
Qed.

Lemma update_same {A} (f : table -> A) (t : table) (v : A) :
  update f t v t = v.
Proof. unfold update. now destruct (table_eqb_spec t t). Qed.

Lemma update_other {A} (f : table -> A) (t t' : table) (v : A) :
  t <> t' -> update f t v t' = f t'.
Proof. unfold update. now destruct (table_eqb_spec t t'). Qed.

Lemma flush_tables_ok (b : buffers) (ts : list table) :
  NoDup ts ->
  forall db db',
    flush_tables ts db b = Ok db' ->
    forall t, db' t = if existsb (table_eqb t) ts then db t ++ b t else db t.
Proof.
  induction 1 as [|t0 ts Hn Hd IH]; intros db db' H t;
    cbn [flush_tables] in H.
  - cbn. congruence.
  - cbn [existsb].
    assert (Hin : t = t0 -> existsb (table_eqb t) ts = false).
    { intros ->. destruct (existsb (table_eqb t0) ts) eqn:E; [|reflexivity].
      apply existsb_exists in E as [x [Hx Ex]].
      destruct (table_eqb_spec t0 x); [subst; contradiction|discriminate]. }
    destruct (b t0) as [|r rows] eqn:Eb.
    + rewrite (IH _ _ H t).
      destruct (table_eqb_spec t t0) as [->|Hne]; [|reflexivity].
      rewrite (Hin eq_refl), Eb, app_nil_r. reflexivity.
    + destruct (executemany t0 (db t0) (r :: rows)) as [stored|] eqn:Ee;
        [|discriminate].
      cbn [bind] in H. apply executemany_ok in Ee. rewrite (IH _ _ H t).
      destruct (table_eqb_spec t t0) as [->|Hne].
      * rewrite (Hin eq_refl), update_same, Ee, Eb. reflexivity.
      * cbn. rewrite update_other by congruence. reflexivity.
Qed.

Lemma flush_tables_succeeds (b : buffers) (ts : list table) :
  NoDup ts ->
  forall db,
    (forall t, In t ts -> executemany t (db t) (b t) = Ok (db t ++ b t)) ->
    exists db', flush_tables ts db b = Ok db'.
Proof.
  induction 1 as [|t0 ts Hn Hd IH]; intros db Hok; cbn [flush_tables].
  - now exists db.
  - assert (Hrest : forall db0,
               (forall t, t <> t0 -> db0 t = db t) ->
               exists db', flush_tables ts db0 b = Ok db').
    { intros db0 Hsame. apply IH. intros t Ht.
      rewrite Hsame; [apply Hok; now right|].
      intros ->. contradiction. }
    destruct (b t0) as [|r rows] eqn:Eb.
    + now apply Hrest.
    + pose proof (Hok t0 (or_introl eq_refl)) as Ht0. rewrite Eb in Ht0.
      rewrite Ht0. cbn [bind]. apply Hrest. intros t Ht.
      apply update_other. congruence.
Qed.

Lemma all_tables_NoDup : NoDup all_tables.
Proof.
  unfold all_tables.
  repeat (constructor; [cbn; intuition discriminate|]). constructor.
Qed.

Lemma all_tables_complete (t : table) :
  existsb (table_eqb t) all_tables = true.
Proof. now destruct t. Qed.

Lemma flush_ok (c c' : conn) (b b' : buffers) :
  flush c b = Ok (c', b') ->
  b' = no_rows /\ commits c' = S (commits c)
  /\ forall t, rows_of c' t = rows_of c t ++ b t.
Proof.
  unfold flush. intro H.
  destruct (flush_tables all_tables (rows_of c) b) as [db'|] eqn:E;
    [|discriminate].
  cbn in H. injection H as <- <-. repeat split. intro t. cbn.
  rewrite (flush_tables_ok _ _ all_tables_NoDup _ _ E t).
  now rewrite all_tables_complete.
Qed.

Section WithRuntime.
Context {rt : PyRuntime}.

Lemma table_of_tag_records (tg : pystr) :
  table_of_tag tg = Some records -> PyStr.eqb tg (str "Record") = true.
Proof.
  unfold table_of_tag.
  repeat match goal with
         | |- context [PyStr.eqb tg ?s] => destruct (PyStr.eqb tg s)
         end; congruence.
Qed.

Lemma table_of_tag_metadata (tg : pystr) :
  PyStr.eqb tg (str "MetadataEntry") = true -> table_of_tag tg = None.
Proof. intro H. apply eqb_eq in H. now subst tg. Qed.

Lemma table_of_tag_keyed (tg : pystr) (t : table) :
  table_of_tag tg = Some t -> has_primary_key t = true.
Proof.
  unfold table_of_tag.
  repeat match goal with
         | |- context [PyStr.eqb tg ?s] => destruct (PyStr.eqb tg s)
         end; intro H; inversion H; reflexivity.
Qed.

Lemma row_of_id (t : table) (id : Z) (attrs : dict pystr) :
  has_primary_key t = true -> row_id (row_of t id attrs) = Some id.
Proof. destruct t; intro H; try reflexivity. discriminate H. Qed.

(** What the branch of an ["end"] event does to the connection, the
    counters and the buffers of the keyed tables. *)
Lemma on_end_effect (with_metadata : bool) (elem : element) (st : state) :
  db (on_end with_metadata elem st) = db st
  /\ forall t,
       has_primary_key t = true ->
       if writes_to t (End, elem)
       then next_id (on_end with_metadata elem st) t = (next_id st t + 1)%Z
            /\ rows_by_table (on_end with_metadata elem st) t
               = rows_by_table st t
                 ++ [row_of t (next_id st t + 1) (attrib elem)]
       else next_id (on_end with_metadata elem st) t = next_id st t
            /\ rows_by_table (on_end with_metadata elem st) t
               = rows_by_table st t.
Proof.
  unfold on_end, writes_to.
  destruct (PyStr.eqb (tag elem) (str "MetadataEntry") && with_metadata
            && in_record st) eqn:Em.
  - apply andb_prop in Em as [Em _]. apply andb_prop in Em as [Em _].
    rewrite (table_of_tag_metadata _ Em). cbn. split; [reflexivity|].
    intros; now split.
  - destruct (table_of_tag (tag elem)) as [t'|] eqn:Et;
      [|split; [reflexivity|intros; now split]].
    pose proof (table_of_tag_keyed _ _ Et) as Hk'.
    assert (Hb : forall t,
               has_primary_key t = true ->
               (if with_metadata
                   && negb (Nat.eqb
                              (List.length (record_metadata_entries st)) 0)
                then append
                       (append (rows_by_table st) t'
                          [row_of t' (next_id st t' + 1) (attrib elem)])
                       record_metadata
                       (List.map
                          (fun kv => [Int (next_id st t' + 1);
                                      text_cell (fst kv);
                                      text_cell (snd kv)])
                          (record_metadata_entries st))
                else append (rows_by_table st) t'
                       [row_of t' (next_id st t' + 1) (attrib elem)]) t
               = append (rows_by_table st) t'
                   [row_of t' (next_id st t' + 1) (attrib elem)] t).
    { intros t Hk. destruct (with_metadata && _); [|reflexivity].
      unfold append at 1. apply update_other.
      intros <-. discriminate Hk. }
    destruct (table_eqb t' records); cbn [db next_id rows_by_table];
      (split; [reflexivity|]); intros t Hk; rewrite ?(Hb t Hk);
      unfold append;
      (destruct (table_eqb_spec t' t) as [->|Hne];
       [rewrite !update_same; now split
       |rewrite !update_other by exact Hne; now split]).
Qed.

End WithRuntime.

End Ingest.

Module IngestRun.
Import health_to_sqlite Ids Ingest.

Section WithRuntime.
Context {rt : PyRuntime}.

(** The ids of a keyed table, committed and buffered, are 1 .. [k t],
    and [k t] is where its counter stands. *)
Definition numbered (st : state) (k : table -> nat) : Prop :=
  forall t,
    has_primary_key t = true ->
    next_id st t = Z.of_nat (k t)
    /\ List.map row_id (rows_of (db st) t ++ rows_by_table st t)
       = List.map Some (ids_from 1 (k t)).

Lemma numbered_ext (st : state) (k k' : table -> nat) :
  (forall t, k t = k' t) -> numbered st k -> numbered st k'.
Proof. intros E H t Ht. rewrite <- E. now apply H. Qed.

Lemma flush_numbered (st : state) (k : table -> nat) :
  numbered st k ->
  exists c',
    flush (db st) (rows_by_table st) = Ok (c', no_rows)
    /\ commits c' = S (commits (db st))
    /\ forall t, rows_of c' t = rows_of (db st) t ++ rows_by_table st t.
Proof.
  intro H.
  destruct (flush_tables_succeeds (rows_by_table st) all_tables
              all_tables_NoDup (rows_of (db st))) as [db' E].
  { intros t _. destruct (has_primary_key t) eqn:Ht.
    - destruct (H t Ht) as [_ Hm].
      exact (executemany_fresh t _ _ _ Hm (ids_from_NoDup 1 (k t))).
    - now apply executemany_no_key. }
  unfold flush. rewrite E. cbn [bind].
  eexists; split; [reflexivity|]. split; [reflexivity|].
  intro t. cbn [rows_of].
  rewrite (flush_tables_ok _ _ all_tables_NoDup _ _ E t).
  now rewrite all_tables_complete.
Qed.

Lemma on_end_numbered (with_metadata : bool) (elem : element)
  (st : state) (k : table -> nat) :
  numbered st k ->
  numbered (on_end with_metadata elem st)
    (fun t => k t + (if writes_to t (End, elem) then 1 else 0)).
Proof.
  intros H t Ht.
  destruct (on_end_effect with_metadata elem st) as [Hdb Heff].
  specialize (Heff t Ht). destruct (H t Ht) as [Hn Hm]. rewrite Hdb.
  destruct (writes_to t (End, elem)); destruct Heff as [-> ->].
  - split; [lia|].
    rewrite app_assoc, map_app, Hm. cbn [List.map].
    rewrite (row_of_id t _ _ Ht), Nat.add_1_r, ids_from_snoc, map_app, Hn.
    cbn [List.map]. do 3 f_equal. lia.
  - rewrite Nat.add_0_r. now split.
Qed.

Lemma step_numbered (batch_size : Z) (with_metadata : bool) (ev : event)
  (st : state) (k : table -> nat) :
  numbered st k ->
  exists st',
    step batch_size with_metadata ev st = Ok st'
    /\ numbered st' (fun t => k t + (if writes_to t ev then 1 else 0)).
Proof.
  intro H. destruct ev as [[|] elem]; cbn [step].
  - assert (Hk : forall t, k t = k t + (if writes_to t (Start, elem)
                                        then 1 else 0))
      by (intro; cbn; lia).
    destruct (PyStr.eqb (tag elem) (str "Record"));
      (eexists; split; [reflexivity|]);
      apply (numbered_ext _ _ _ Hk); exact H.
  - pose proof (on_end_numbered with_metadata elem st k H) as H1.
    destruct (threshold_reached batch_size (on_end with_metadata elem st)).
    + destruct (flush_numbered _ _ H1) as [c' [-> [_ Hrows]]].
      cbn [bind fst snd]. eexists; split; [reflexivity|].
      intros t Ht. destruct (H1 t Ht) as [Hn Hm].
      cbn [db next_id rows_by_table]. split; [exact Hn|].
      rewrite Hrows. unfold no_rows. rewrite app_nil_r. exact Hm.
    + eexists; split; [reflexivity|exact H1].
Qed.

Lemma run_numbered (batch_size : Z) (with_metadata : bool)
  (events : list event) :
  forall (st : state) (k : table -> nat),
    numbered st k ->
    exists st',
      run batch_size with_metadata events st = Ok st'
      /\ numbered st' (fun t => k t + count_rows t events).
Proof.
  induction events as [|ev rest IH]; intros st k H; cbn [run].
  - eexists; split; [reflexivity|].
    apply (numbered_ext st k); [|exact H]. intro; cbn; lia.
  - destruct (step_numbered batch_size with_metadata ev st k H)
      as [st1 [-> H1]].
    cbn [bind]. destruct (IH _ _ H1) as [st' [-> H']].
    eexists; split; [reflexivity|].
    apply (numbered_ext _ _ (fun t => k t + count_rows t (ev :: rest)))
      in H'; [exact H'|].
    intro t. unfold count_rows. cbn [filter].
    destruct (writes_to t ev); cbn [List.length]; lia.
Qed.

Lemma initial_numbered : numbered (initial fresh) (fun _ => 0).
Proof. intros t _. now split. Qed.

Lemma not_record_end_keeps (with_metadata : bool) (elem : element)
  (st : state) :
  not_record_end (End, elem) = true ->
  rows_by_table (on_end with_metadata elem st) records
  = rows_by_table st records.
Proof.
  intro Hn. unfold not_record_end in Hn. apply negb_true_iff in Hn.
  destruct (on_end_effect with_metadata elem st) as [_ Heff].
  specialize (Heff records eq_refl).
  assert (Hw : writes_to records (End, elem) = false).
  { cbn. destruct (table_of_tag (tag elem)) as [t'|] eqn:Et; [|reflexivity].
    destruct (table_eqb_spec t' records) as [->|]; [|reflexivity].
    apply table_of_tag_records in Et. congruence. }
  rewrite Hw in Heff. apply Heff.
Qed.

Lemma run_without_records (batch_size : Z) (with_metadata : bool)
  (events : list event) :
  (0 < batch_size)%Z ->
  forallb not_record_end events = true ->
  forall st,
    rows_by_table st records = [] ->
    exists st',
      run batch_size with_metadata events st = Ok st' /\ db st' = db st.
Proof.
  intros Hb. induction events as [|ev rest IH]; intros Hev st Hst;
    cbn [run].
  - now exists st.
  - cbn [forallb] in Hev. apply andb_prop in Hev as [Hev Hrest].
    destruct ev as [[|] elem]; cbn [step].
    + destruct (PyStr.eqb (tag elem) (str "Record")); cbn [bind].
      * destruct (IH Hrest
                    {| db := db st; next_id := next_id st;
                       rows_by_table := rows_by_table st;
                       in_record := true;
                       record_metadata_entries := [] |} Hst)
          as [st' [-> Hst']].
        now exists st'.
      * exact (IH Hrest st Hst).
    + pose proof (not_record_end_keeps with_metadata elem st Hev) as Hk.
      destruct (on_end_effect with_metadata elem st) as [Hdb _].
      unfold threshold_reached. rewrite Hk, Hst. cbn [List.length Z.of_nat].
      destruct (Z.leb_spec batch_size 0); [lia|]. cbn [bind].
      destruct (IH Hrest (on_end with_metadata elem st))
        as [st' [-> Hst']]; [congruence|].
      exists st'. split; [reflexivity|congruence].
Qed.

End WithRuntime.

End IngestRun.

(** C5, as the code has it. After each ["end"] event the writer looks at
    the buffer of [records] only: when it holds at least the threshold,
    every buffered table is inserted in bulk, the transaction is
    committed and the buffers are cleared; otherwise nothing is written.
    So while no [Record] element ends, no batch is written before the
    stream ends, whatever the other buffers hold. *)
Theorem flush_triggered_by_records_buffer :
  forall (rt : PyRuntime) (batch_size : Z) (with_metadata : bool),
    (forall (elem : element) (st st' : health_to_sqlite.state),
        health_to_sqlite.step batch_size with_metadata
          (health_to_sqlite.End, elem) st = Ok st' ->
        let st1 := health_to_sqlite.on_end with_metadata elem st in
        if (batch_size
            <=? Z.of_nat (List.length
                            (health_to_sqlite.rows_by_table st1
                               health_to_sqlite.records)))%Z
        then health_to_sqlite.rows_by_table st' = health_to_sqlite.no_rows
             /\ health_to_sqlite.commits (health_to_sqlite.db st')
                = S (health_to_sqlite.commits (health_to_sqlite.db st))
             /\ forall t,
                  health_to_sqlite.rows_of (health_to_sqlite.db st') t
                  = health_to_sqlite.rows_of (health_to_sqlite.db st) t
                    ++ health_to_sqlite.rows_by_table st1 t
        else st' = st1)
    /\ (forall (events : list health_to_sqlite.event)
               (c : health_to_sqlite.conn),
           (0 < batch_size)%Z ->
           forallb Ingest.not_record_end events = true ->
           exists st',
             health_to_sqlite.run batch_size with_metadata events
               (health_to_sqlite.initial c) = Ok st'
             /\ health_to_sqlite.db st' = c).
Proof.
  intros rt batch_size with_metadata. split.
  - intros elem st st' H st1. cbn [health_to_sqlite.step] in H.
    fold st1 in H. unfold health_to_sqlite.threshold_reached in H.
    destruct (batch_size <=? _)%Z.
    + destruct (health_to_sqlite.flush (health_to_sqlite.db st1)
                  (health_to_sqlite.rows_by_table st1))
        as [[c' b']|] eqn:E; [|discriminate].
      cbn [bind fst snd] in H. injection H as <-.
      apply Ingest.flush_ok in E as [-> [Hc Hr]].
      cbn [health_to_sqlite.rows_by_table health_to_sqlite.db].
      destruct (Ingest.on_end_effect with_metadata elem st) as [Hdb _].
      fold st1 in Hdb. rewrite <- Hdb. now repeat split.
    + congruence.
  - intros events c Hb Hev.
    destruct (IngestRun.run_without_records batch_size with_metadata
                events Hb Hev (health_to_sqlite.initial c) eq_refl)
      as [st' [E Hdb]].
    now exists st'.
Qed.

Definition workout_start : health_to_sqlite.event :=
  (health_to_sqlite.Start, Element (str "Workout") [] None []).

Definition workout_end : health_to_sqlite.event :=
  (health_to_sqlite.End, Element (str "Workout") [] None []).

Lemma flush_triggered_witness :
  exists st',
    health_to_sqlite.run (rt := ascii_runtime) 2 false
      [workout_start; workout_end; workout_start; workout_end;
       workout_start; workout_end]
      (health_to_sqlite.initial Ingest.fresh) = Ok st'
    /\ health_to_sqlite.db st' = Ingest.fresh.
Proof.
  apply (proj2 (flush_triggered_by_records_buffer ascii_runtime 2 false));
    reflexivity.
Defined.

(** C5 as stated fails: with a threshold of 2, three [Workout] elements
    leave three rows in the buffer of [workouts], nothing committed and
    nothing stored. *)
Lemma workouts_alone_never_flush :
  match health_to_sqlite.run (rt := ascii_runtime) 2 false
          [workout_start; workout_end; workout_start; workout_end;
       workout_start; workout_end]
          (health_to_sqlite.initial Ingest.fresh) with
  | Ok st =>
      List.length (health_to_sqlite.rows_by_table st
                     health_to_sqlite.workouts) = 3
      /\ health_to_sqlite.commits (health_to_sqlite.db st) = 0
      /\ health_to_sqlite.rows_of (health_to_sqlite.db st)
           health_to_sqlite.workouts = []
  | Raise _ => False
  end.
Proof. cbn. repeat split. Qed.

(** ** The two importers *)

(** [import_workout_routes] and [import_ecg] are one loop over a
    directory, written twice: a parent table keyed by [id] with a UNIQUE
    [file_path], a child table, two buffers, a counter. The loop is
    stated once here, each importer is shown to be an instance, and the
    invariants are proved once. *)
Module Importer.
Import health_postprocess.

Set Implicit Arguments.

Section Generic.
Variables Row Child File : Type.
Variable id_of : Row -> Z.
Variable path_of : Row -> pystr.
(** The test on the file name. *)
Variable accepts : pystr -> bool.
(** What a file at a path yields under an id: an exception, nothing
    ([continue]), or the parent row and the child rows. *)
Variable make : pystr -> File -> Z -> result (option (Row * list Child)).
(** Whether the index created at the end needs the parent table. *)
Variable index_on_parents : bool.

Record store := {
  parents : option (list Row);
  kids : option (list Child)
}.

Record gstate := {
  g_store : store;
  g_rows : list Row;
  g_kids : list Child;
  g_id : Z;
  g_count : nat
}.

Definition g_flush (s : store) (rows : list Row) (children : list Child)
  : result store :=
  ps <-
    match rows with
    | [] => Ok (parents s)
    | _ =>
        match parents s with
        | None => Raise OperationalError
        | Some stored =>
            Ok (Some (fold_left (insert_or_ignore id_of path_of)
                        rows stored))
        end
    end ;;
  ks <-
    match children with
    | [] => Ok (kids s)
    | _ =>
        match kids s with
        | None => Raise OperationalError
        | Some stored => Ok (Some (stored ++ children))
        end
    end ;;
  Ok {| parents := ps; kids := ks |}.

Definition g_ingest (path : pystr) (file : File) (st : gstate)
  : result gstate :=
  made <- make path file (g_id st) ;;
  match made with
  | None => Ok st
  | Some (row, children) =>
      let rows := g_rows st ++ [row] in
      let children := g_kids st ++ children in
      if (20000 <=? Z.of_nat (List.length children))%Z
      then
        s <- g_flush (g_store st) rows children ;;
        Ok {| g_store := s; g_rows := []; g_kids := [];
              g_id := (g_id st + 1)%Z; g_count := S (g_count st) |}
      else
        Ok {| g_store := g_store st; g_rows := rows; g_kids := children;
              g_id := (g_id st + 1)%Z; g_count := S (g_count st) |}
  end.

Fixpoint g_loop (dir : pystr) (skip_existing : bool)
  (existing : list pystr) (entries : list (pystr * File)) (st : gstate)
  : result gstate :=
  match entries with
  | [] => Ok st
  | (name, file) :: rest =>
      if negb (accepts name)
      then g_loop dir skip_existing existing rest st
      else
        let path := path_join dir name in
        if skip_existing && mem path existing
        then g_loop dir skip_existing existing rest st
        else
          st' <- g_ingest path file st ;;
          g_loop dir skip_existing existing rest st'
  end.

Definition g_paths (s : store) : option (list pystr) :=
  option_map (List.map path_of) (parents s).

Definition g_ids (s : store) : option (list Z) :=
  option_map (List.map id_of) (parents s).

Definition g_start (s : store) : gstate :=
  {| g_store := s; g_rows := []; g_kids := [];
     g_id := _next_id (g_ids s); g_count := 0 |}.

Definition g_finish (st : gstate) : result (store * nat) :=
  s <- g_flush (g_store st) (g_rows st) (g_kids st) ;;
  _ <- create_index (kids s) ;;
  _ <- (if index_on_parents then create_index (parents s) else Ok tt) ;;
  Ok (s, g_count st).

Definition g_import (s : store) (dir : pystr)
  (listing : option (list (pystr * File))) (skip_existing : bool)
  : result (store * nat) :=
  match listing with
  | None => Ok (s, 0)
  | Some files =>
      let existing :=
        if skip_existing then list_existing (g_paths s) else [] in
      st <- g_loop dir skip_existing existing (sorted files) (g_start s) ;;
      g_finish st
  end.

End Generic.

Unset Implicit Arguments.

Definition map_result {A B} (f : A -> B) (m : result A) : result B :=
  match m with
  | Ok a => Ok (f a)
  | Raise e => Raise e
  end.

Section Instances.
Context {rt : PyRuntime}.

(** *** [import_workout_routes] as an instance *)

Fixpoint point_rows_of (route_id : Z) (idx : nat) (points : list point)
  : list point_row :=
  match points with
  | [] => []
  | p :: rest =>
      {| point_route_id := route_id; point_index := idx;
         point_lat := lat_of p; point_lon := lon_of p;
         point_ele := ele_of p; point_time := time_of p |}
      :: point_rows_of route_id (S idx) rest
  end.

Definition make_route (path : pystr) (file : gpx_file) (id : Z)
  : result (option (route_row * list point_row)) :=
  points <- parse_points file ;;
  match points with
  | [] => Ok None
  | first :: _ =>
      let lats := keep_some (List.map lat_of points) in
      let lons := keep_some (List.map lon_of points) in
      d <- route_distance points ;;
      Ok (Some
            ({| route_id_of := id; route_file_path := path;
                start_time := time_of first;
                end_time := time_of (List.last points first);
                point_count := List.length points;
                distance_km := d;
                min_lat := min_or_none lats; max_lat := max_or_none lats;
                min_lon := min_or_none lons;
                max_lon := max_or_none lons |},
             point_rows_of id 0 points))
  end.

Definition route_store (c : conn) : store route_row point_row :=
  {| parents := workout_routes c; kids := workout_route_points c |}.

Definition with_route_store (c : conn) (s : store route_row point_row)
  : conn :=
  {| workout_routes := parents s; workout_route_points := kids s;
     ecg_records := ecg_records c; ecg_samples := ecg_samples c |}.

Definition routes_state_of (c : conn) (g : gstate route_row point_row)
  : routes_state :=
  {| r_conn := with_route_store c (g_store g); route_rows := g_rows g;
     point_rows := g_kids g; route_id := g_id g;
     r_inserted := g_count g |}.

Lemma walk_points_rows (route_id : Z) (points : list point) :
  forall (w w' : walk) (idx : nat),
    walk_points route_id w idx points = Ok w' ->
    walked_rows w' = walked_rows w ++ point_rows_of route_id idx points.
Proof.
  induction points as [|p rest IH]; intros w w' idx;
    cbn [walk_points point_rows_of].
  - intro H. injection H as <-. now rewrite app_nil_r.
  - destruct (walk_point route_id w idx p) as [w1|e] eqn:E1;
      cbn [bind]; [|discriminate].
    intro H. rewrite (IH _ _ _ H). clear H. revert E1. unfold walk_point.
    destruct (lat_of p) as [lat|], (lon_of p) as [lon|];
      [destruct (last_point w) as [lp|];
       [destruct (haversine_km lat lon (fst lp) (snd lp));
        [|discriminate]|]|..];
      cbn [bind]; intro H; injection H as <-; cbn [walked_rows];
      now rewrite <- app_assoc.
Qed.

(** The loop over the points of a file gives the distance of the file
    and appends its point rows to the buffer. *)
Lemma walk_points_distance (route_id : Z) (buffered : list point_row)
  (points : list point) :
  match walk_points route_id
          {| last_point := None; walked_km := Finite 0.0%R;
             walked_rows := buffered |} 0 points with
  | Ok w =>
      route_distance points = Ok (walked_km w)
      /\ walked_rows w = buffered ++ point_rows_of route_id 0 points
  | Raise e => route_distance points = Raise e
  end.
Proof.
  pose proof (RouteDistance.walked_km_path route_id points
                {| last_point := None; walked_km := Finite 0.0%R;
                   walked_rows := buffered |} 0) as H1.
  unfold route_distance. rewrite RouteDistance.walked_km_path.
  cbn [last_point walked_km] in H1 |- *. rewrite <- H1.
  destruct (walk_points route_id _ 0 points) as [w|e] eqn:E;
    cbn [bind]; [|reflexivity].
  split; [reflexivity|]. exact (walk_points_rows _ _ _ _ _ E).
Qed.

Lemma flush_routes_generic (c : conn) (g : store route_row point_row)
  (rows : list route_row) (children : list point_row) :
  _flush_routes (with_route_store c g) rows children
  = map_result (fun s => (with_route_store c s, [], []))
      (g_flush route_id_of route_file_path g rows children).
Proof.
  unfold _flush_routes, g_flush. cbn [with_route_store workout_routes
    workout_route_points ecg_records ecg_samples].
  destruct rows; [|destruct (parents g)]; cbn [bind map_result];
    try reflexivity;
    (destruct children; [|destruct (kids g)]; reflexivity).
Qed.

Lemma ingest_route_generic (c : conn) (path : pystr) (file : gpx_file)
  (g : gstate route_row point_row) :
  ingest_route path file (routes_state_of c g)
  = map_result (routes_state_of c)
      (g_ingest route_id_of route_file_path make_route path file g).
Proof.
  unfold ingest_route, g_ingest, make_route.
  destruct (parse_points file) as [points|e]; [|reflexivity].
  cbn [bind]. destruct points as [|first rest]; [reflexivity|].
  cbn [bind routes_state_of route_id point_rows route_rows r_conn
       r_inserted].
  pose proof (walk_points_distance (g_id g) (g_kids g) (first :: rest))
    as Hw.
  destruct (walk_points (g_id g) _ 0 (first :: rest)) as [w|e];
    [|rewrite Hw; reflexivity].
  destruct Hw as [-> Hrows]. cbn [bind]. rewrite Hrows.
  destruct (20000 <=? _)%Z; [|reflexivity].
  rewrite flush_routes_generic.
  destruct (g_flush _ _ _ _ _); reflexivity.
Qed.

Lemma routes_loop_generic (c : conn) (dir : pystr) (skip : bool)
  (existing : list pystr) (entries : list (pystr * gpx_file)) :
  forall g,
    routes_loop dir skip existing entries (routes_state_of c g)
    = map_result (routes_state_of c)
        (g_loop route_id_of route_file_path is_gpx make_route dir skip
           existing entries g).
Proof.
  induction entries as [|[name file] rest IH]; intro g;
    cbn [routes_loop g_loop]; [reflexivity|].
  destruct (negb (is_gpx name)); [apply IH|].
  destruct (skip && mem (path_join dir name) existing); [apply IH|].
  rewrite ingest_route_generic.
  destruct (g_ingest _ _ _ _ _ _) as [g'|e]; cbn [bind map_result];
    [apply IH|reflexivity].
Qed.

Lemma with_route_store_id (c : conn) :
  with_route_store c (route_store c) = c.
Proof. now destruct c. Qed.

Theorem import_workout_routes_generic (c : conn) (dir : pystr)
  (listing : option (list (pystr * gpx_file))) (skip : bool) :
  import_workout_routes c dir listing skip
  = map_result (fun sn => (with_route_store c (fst sn), snd sn))
      (g_import route_id_of route_file_path is_gpx make_route true
         (route_store c) dir listing skip).
Proof.
  unfold import_workout_routes, g_import.
  destruct listing as [files|];
    [|cbn [map_result fst snd]; now rewrite with_route_store_id].
  assert (Hinit :
    {| r_conn := c; route_rows := []; point_rows := [];
       route_id := _next_id (route_ids c); r_inserted := 0 |}
    = routes_state_of c (g_start route_id_of (route_store c))).
  { unfold routes_state_of, g_start.
    cbn [g_store g_rows g_kids g_id g_count].
    now rewrite with_route_store_id. }
  rewrite Hinit, routes_loop_generic. clear Hinit.
  change (g_paths route_file_path (route_store c)) with (route_paths c).
  destruct (g_loop _ _ _ _ _ _ _ _ _) as [g|e]; [|reflexivity].
  cbn [bind map_result]. unfold g_finish, routes_state_of.
  cbn [r_conn route_rows point_rows r_inserted].
  rewrite flush_routes_generic.
  destruct (g_flush _ _ _ _ _) as [s|e]; [|reflexivity].
  cbn [bind map_result fst snd with_route_store workout_route_points
       workout_routes].
  destruct (kids s); [|reflexivity]. cbn [create_index bind].
  destruct (parents s); reflexivity.
Qed.

(** *** [import_ecg] as an instance *)

Definition make_ecg (path : pystr) (file : csv_file) (id : Z)
  : result (option (ecg_row * list sample_row)) :=
  parsed <- parse_ecg_csv file ;;
  let metadata := fst parsed in
  match snd parsed with
  | [] => Ok None
  | _ =>
      rate <- _parse_sample_rate (dict_get metadata (str "Sample Rate")) ;;
      Ok (Some
            ({| ecg_id_of := id; ecg_file_path := path;
                recorded_date := dict_get metadata (str "Recorded Date");
                classification := dict_get metadata (str "Classification");
                symptoms := dict_get metadata (str "Symptoms");
                sample_rate_hz := rate;
                ecg_lead := dict_get metadata (str "Lead");
                ecg_unit := dict_get metadata (str "Unit");
                ecg_device := dict_get metadata (str "Device");
                software_version :=
                  dict_get metadata (str "Software Version");
                extra_json := metadata |},
             List.map (fun iv => {| sample_ecg_id := id;
                                    sample_index := fst iv;
                                    sample_value := snd iv |})
               (enumerate_from 0 (snd parsed))))
  end.

Definition ecg_store (c : conn) : store ecg_row sample_row :=
  {| parents := ecg_records c; kids := ecg_samples c |}.

Definition with_ecg_store (c : conn) (s : store ecg_row sample_row)
  : conn :=
  {| workout_routes := workout_routes c;
     workout_route_points := workout_route_points c;
     ecg_records := parents s; ecg_samples := kids s |}.

Definition ecg_state_of (c : conn) (g : gstate ecg_row sample_row)
  : ecg_state :=
  {| e_conn := with_ecg_store c (g_store g); record_rows := g_rows g;
     sample_rows := g_kids g; ecg_id := g_id g;
     e_inserted := g_count g |}.

Lemma flush_ecg_generic (c : conn) (g : store ecg_row sample_row)
  (rows : list ecg_row) (children : list sample_row) :
  _flush_ecg (with_ecg_store c g) rows children
  = map_result (fun s => (with_ecg_store c s, [], []))
      (g_flush ecg_id_of ecg_file_path g rows children).
Proof.
  unfold _flush_ecg, g_flush. cbn [with_ecg_store workout_routes
    workout_route_points ecg_records ecg_samples].
  destruct rows; [|destruct (parents g)]; cbn [bind map_result];
    try reflexivity;
    (destruct children; [|destruct (kids g)]; reflexivity).
Qed.

Lemma ingest_ecg_generic (c : conn) (path : pystr) (file : csv_file)
  (g : gstate ecg_row sample_row) :
  ingest_ecg path file (ecg_state_of c g)
  = map_result (ecg_state_of c)
      (g_ingest ecg_id_of ecg_file_path make_ecg path file g).
Proof.
  unfold ingest_ecg, g_ingest, make_ecg.
  destruct (parse_ecg_csv file) as [[metadata samples]|e]; [|reflexivity].
  cbn [bind fst snd]. destruct samples as [|x rest]; [reflexivity|].
  destruct (_parse_sample_rate (dict_get metadata (str "Sample Rate")))
    as [rate|e]; [|reflexivity].
  cbn [bind ecg_state_of ecg_id sample_rows record_rows e_conn e_inserted].
  destruct (20000 <=? _)%Z; [|reflexivity].
  rewrite flush_ecg_generic.
  destruct (g_flush _ _ _ _ _); reflexivity.
Qed.

Lemma ecg_loop_generic (c : conn) (dir : pystr) (skip : bool)
  (existing : list pystr) (entries : list (pystr * csv_file)) :
  forall g,
    ecg_loop dir skip existing entries (ecg_state_of c g)
    = map_result (ecg_state_of c)
        (g_loop ecg_id_of ecg_file_path is_csv make_ecg dir skip
           existing entries g).
Proof.
  induction entries as [|[name file] rest IH]; intro g;
    cbn [ecg_loop g_loop]; [reflexivity|].
  destruct (negb (is_csv name)); [apply IH|].
  destruct (skip && mem (path_join dir name) existing); [apply IH|].
  rewrite ingest_ecg_generic.
  destruct (g_ingest _ _ _ _ _ _) as [g'|e]; cbn [bind map_result];
    [apply IH|reflexivity].
Qed.

Lemma with_ecg_store_id (c : conn) : with_ecg_store c (ecg_store c) = c.
Proof. now destruct c. Qed.

Theorem import_ecg_generic (c : conn) (dir : pystr)
  (listing : option (list (pystr * csv_file))) (skip : bool) :
  import_ecg c dir listing skip
  = map_result (fun sn => (with_ecg_store c (fst sn), snd sn))
      (g_import ecg_id_of ecg_file_path is_csv make_ecg false
         (ecg_store c) dir listing skip).
Proof.
  unfold import_ecg, g_import.
  destruct listing as [files|];
    [|cbn [map_result fst snd]; now rewrite with_ecg_store_id].
  assert (Hinit :
    {| e_conn := c; record_rows := []; sample_rows := [];
       ecg_id := _next_id (ecg_ids c); e_inserted := 0 |}
    = ecg_state_of c (g_start ecg_id_of (ecg_store c))).
  { unfold ecg_state_of, g_start.
    cbn [g_store g_rows g_kids g_id g_count].
    now rewrite with_ecg_store_id. }
  rewrite Hinit, ecg_loop_generic. clear Hinit.
  change (g_paths ecg_file_path (ecg_store c)) with (ecg_paths c).
  destruct (g_loop _ _ _ _ _ _ _ _ _) as [g|e]; [|reflexivity].
  cbn [bind map_result]. unfold g_finish, ecg_state_of.
  cbn [e_conn record_rows sample_rows e_inserted].
  rewrite flush_ecg_generic.
  destruct (g_flush _ _ _ _ _) as [s|e]; [|reflexivity].
  cbn [bind map_result fst snd with_ecg_store ecg_samples].
  destruct (kids s); reflexivity.
Qed.

End Instances.

End Importer.

(** ** The sorted listing *)

Module Listing.
Import health_postprocess.

Lemma str_leb_total (a b : pystr) :
  str_leb a b = false -> str_leb b a = true.
Proof.
  revert b; induction a as [|x a IH]; intros [|y b]; cbn; try easy.
  destruct (N.ltb_spec x y), (N.ltb_spec y x); try easy; try lia.
  apply IH.
Qed.

Lemma str_leb_trans (a b c : pystr) :
  str_leb a b = true -> str_leb b c = true -> str_leb a c = true.
Proof.
  revert b c; induction a as [|x a IH]; intros [|y b] [|z c]; cbn;
    try easy.
  destruct (N.ltb_spec x y), (N.ltb_spec y x), (N.ltb_spec y z),
    (N.ltb_spec z y), (N.ltb_spec x z), (N.ltb_spec z x);
    try easy; try lia.
  apply IH.
Qed.

Section WithFile.
Variable F : Type.

Definition name_le (a b : pystr * F) : Prop :=
  str_leb (fst a) (fst b) = true.

Lemma insert_sorted_perm (e : pystr * F) (l : list (pystr * F)) :
  Permutation (insert_sorted e l) (e :: l).
Proof.
  induction l as [|x l IH]; cbn [insert_sorted]; [reflexivity|].
  destruct (str_leb (fst e) (fst x)); [reflexivity|].
  rewrite IH. apply perm_swap.
Qed.

Lemma sorted_perm (l : list (pystr * F)) : Permutation (sorted l) l.
Proof.
  induction l as [|e l IH]; cbn; [reflexivity|].
  unfold sorted in IH. rewrite insert_sorted_perm. now constructor.
Qed.

Lemma insert_sorted_sorted (e : pystr * F) (l : list (pystr * F)) :
  StronglySorted name_le l -> StronglySorted name_le (insert_sorted e l).
Proof.
  induction 1 as [|x l Hs IH Hx]; cbn [insert_sorted].
  - repeat constructor.
  - destruct (str_leb (fst e) (fst x)) eqn:E.
    + constructor; [now constructor|]. constructor; [exact E|].
      eapply Forall_impl; [|exact Hx]. intros y Hy.
      exact (str_leb_trans _ _ _ E Hy).
    + constructor; [exact IH|].
      eapply Permutation_Forall;
        [symmetry; apply insert_sorted_perm|].
      constructor; [exact (str_leb_total _ _ E)|exact Hx].
Qed.

Lemma sorted_sorted (l : list (pystr * F)) :
  StronglySorted name_le (sorted l).
Proof.
  induction l as [|e l IH]; cbn; [constructor|].
  now apply insert_sorted_sorted.
Qed.

Lemma insert_sorted_head (e : pystr * F) (l : list (pystr * F)) :
  Forall (name_le e) l -> insert_sorted e l = e :: l.
Proof.
  destruct 1 as [|x l Hx _]; [reflexivity|].
  cbn [insert_sorted]. now rewrite Hx.
Qed.

Lemma filter_insert_sorted (p : pystr * F -> bool) (e : pystr * F)
  (l : list (pystr * F)) :
  StronglySorted name_le l ->
  filter p (insert_sorted e l)
  = if p e then insert_sorted e (filter p l) else filter p l.
Proof.
  induction 1 as [|x l Hs IH Hx]; cbn [insert_sorted].
  - cbn. now destruct (p e).
  - destruct (str_leb (fst e) (fst x)) eqn:E.
    + change (filter p (e :: x :: l))
        with (if p e then e :: filter p (x :: l) else filter p (x :: l)).
      destruct (p e); [|reflexivity].
      symmetry. apply insert_sorted_head.
      assert (Hall : Forall (name_le e) (x :: l)).
      { constructor; [exact E|].
        eapply Forall_impl; [|exact Hx]. intros y Hy.
        exact (str_leb_trans _ _ _ E Hy). }
      apply Forall_forall. intros y Hy.
      apply filter_In in Hy as [Hy _].
      exact (proj1 (Forall_forall _ _) Hall y Hy).
    + cbn [filter]. rewrite IH.
      destruct (p x), (p e); cbn [insert_sorted]; rewrite ?E; reflexivity.
Qed.

Lemma sorted_filter (p : pystr * F -> bool) (l : list (pystr * F)) :
  sorted (filter p l) = filter p (sorted l).
Proof.
  induction l as [|e l IH]; [reflexivity|].
  change (sorted (e :: l)) with (insert_sorted e (sorted l)).
  rewrite (filter_insert_sorted p e _ (sorted_sorted l)).
  cbn [filter]. destruct (p e); [|exact IH].
  change (sorted (e :: filter p l))
    with (insert_sorted e (sorted (filter p l))).
  now rewrite IH.
Qed.

End WithFile.

End Listing.

(** ** Invariants of the importers *)

Module ImporterFacts.
Import health_postprocess Ids Importer.

Lemma mem_In (p : pystr) (set : list pystr) : mem p set = true <-> In p set.
Proof.
  unfold mem. rewrite existsb_exists. split.
  - intros [x [Hx E]]. apply eqb_eq in E. now subst.
  - intro H. exists p. split; [exact H|apply eqb_refl].
Qed.

Lemma max_id_bound (ids : list Z) (m z : Z) :
  max_id ids = Some m -> In z ids -> (z <= m)%Z.
Proof.
  revert m; induction ids as [|a ids IH]; intros m Hm Hz; [easy|].
  cbn in Hm. destruct (max_id ids) as [m'|] eqn:E.
  - injection Hm as <-. destruct Hz as [->|Hz]; [lia|].
    specialize (IH m' eq_refl Hz). lia.
  - injection Hm as <-. destruct Hz as [->|Hz]; [lia|].
    destruct ids; [easy|]. cbn in E. destruct (max_id ids); discriminate.
Qed.

Lemma next_id_above (ids : list Z) (z : Z) :
  In z ids -> (z < _next_id (Some ids))%Z.
Proof.
  intro Hz. unfold _next_id. destruct (max_id ids) as [m|] eqn:E.
  - pose proof (max_id_bound ids m z E Hz). lia.
  - destruct ids; [easy|]. cbn in E. destruct (max_id ids); discriminate.
Qed.

Lemma option_map_app_nil {A} (o : option (list A)) :
  option_map (fun l => l ++ []) o = o.
Proof. destruct o; cbn; now rewrite ?app_nil_r. Qed.

Lemma option_map_app_app {A} (o : option (list A)) (a b : list A) :
  option_map (fun l => l ++ b) (option_map (fun l => l ++ a) o)
  = option_map (fun l => l ++ a ++ b) o.
Proof. destruct o; cbn; now rewrite <- ?app_assoc. Qed.

Section Facts.
Variables Row Child File : Type.
Variable id_of : Row -> Z.
Variable path_of : Row -> pystr.
Variable accepts : pystr -> bool.
Variable make : pystr -> File -> Z -> result (option (Row * list Child)).
Variable index_on_parents : bool.

(** A file's row carries the id and the path it was made under, and
    whether a file yields a row does not depend on the id. *)
Hypothesis make_row :
  forall path file id row children,
    make path file id = Ok (Some (row, children)) ->
    id_of row = id /\ path_of row = path.
Hypothesis make_none :
  forall path file id id',
    make path file id = Ok None -> make path file id' = Ok None.

Local Abbreviation ioi := (insert_or_ignore id_of path_of).
Local Abbreviation flush := (g_flush id_of path_of).
Local Abbreviation ingest := (g_ingest id_of path_of make).
Local Abbreviation loop := (g_loop id_of path_of accepts make).
Local Abbreviation finish := (g_finish id_of path_of index_on_parents).
Local Abbreviation import :=
  (g_import id_of path_of accepts make index_on_parents).
Local Abbreviation paths := (List.map path_of).
Local Abbreviation ids := (List.map id_of).

(** The rows of the parent table, none when it does not exist. *)
Definition stored (s : store Row Child) : list Row :=
  match parents s with
  | Some l => l
  | None => []
  end.

Lemma ioi_cases (table : list Row) (r : Row) :
  (ioi table r = table
   /\ exists x, In x table
                /\ (id_of x = id_of r \/ path_of x = path_of r))
  \/ (ioi table r = table ++ [r]
      /\ forall x, In x table ->
                   id_of x <> id_of r /\ path_of x <> path_of r).
Proof.
  unfold insert_or_ignore.
  destruct (existsb _ table) eqn:E.
  - left. split; [reflexivity|].
    apply existsb_exists in E as [x [Hx E]]. exists x. split; [exact Hx|].
    apply orb_prop in E as [E|E]; [left; now apply Z.eqb_eq|right].
    now apply eqb_eq.
  - right. split; [reflexivity|]. intros x Hx.
    assert (H : (id_of x =? id_of r)%Z
                || PyStr.eqb (path_of x) (path_of r) = false).
    { destruct (_ || _) eqn:Ex; [|reflexivity].
      rewrite <- E. symmetry. apply existsb_exists. now exists x. }
    apply orb_false_iff in H as [H1 H2].
    split; [now apply Z.eqb_neq|now apply eqb_neq].
Qed.

Lemma ioi_same_path (table : list Row) (r : Row) :
  In (path_of r) (paths table) -> ioi table r = table.
Proof.
  intro H. destruct (ioi_cases table r) as [[E _]|[_ Hn]]; [exact E|].
  apply in_map_iff in H as [x [Hp Hx]]. destruct (Hn x Hx) as [_ Hne].
  congruence.
Qed.

Lemma fold_grows (rows : list Row) :
  forall table,
    exists new,
      fold_left ioi rows table = table ++ new
      /\ forall r, In r new ->
                   In r rows /\ ~ In (path_of r) (paths table).
Proof.
  induction rows as [|r rows IH]; intro table; cbn [fold_left].
  - exists []. split; [now rewrite app_nil_r|easy].
  - destruct (IH (ioi table r)) as [new [E Hnew]].
    destruct (ioi_cases table r) as [[Et _]|[Et Hn]]; rewrite Et in *.
    + exists new. split; [exact E|]. intros x Hx.
      destruct (Hnew x Hx). split; [now right|assumption].
    + exists (r :: new). split; [now rewrite E, <- app_assoc|].
      intros x [<-|Hx].
      * split; [now left|]. intro H.
        apply in_map_iff in H as [y [Hp Hy]]. destruct (Hn y Hy). congruence.
      * destruct (Hnew x Hx) as [H1 H2]. split; [now right|].
        intro H. apply H2. rewrite map_app. apply in_or_app. now left.
Qed.

Lemma fold_covers (rows : list Row) :
  forall table lo,
    ids rows = ids_from lo (List.length rows) ->
    (forall x, In x table -> (id_of x < lo)%Z) ->
    (forall r, In r rows ->
               In (path_of r) (paths (fold_left ioi rows table)))
    /\ (forall x, In x (fold_left ioi rows table) ->
                  (id_of x < lo + Z.of_nat (List.length rows))%Z).
Proof.
  induction rows as [|r rows IH]; intros table lo Hids Hlo;
    cbn [fold_left].
  - split; [easy|]. intros x Hx. cbn. rewrite Z.add_0_r. now apply Hlo.
  - cbn [List.length List.map] in Hids. rewrite ids_from_cons in Hids.
    injection Hids as Hr Hrest.
    assert (Hlo' : forall x, In x (ioi table r) -> (id_of x < lo + 1)%Z).
    { intros x Hx.
      destruct (ioi_cases table r) as [[Et _]|[Et _]]; rewrite Et in Hx.
      - specialize (Hlo x Hx). lia.
      - apply in_app_or in Hx as [Hx|[<-|[]]]; [specialize (Hlo x Hx)|];
          lia. }
    destruct (IH (ioi table r) (lo + 1)%Z Hrest Hlo') as [Hc Hb].
    split.
    + intros x [<-|Hx]; [|now apply Hc].
      destruct (fold_grows rows (ioi table r)) as [new [-> _]].
      rewrite map_app. apply in_or_app. left.
      destruct (ioi_cases table r) as [[Et [y [Hy Hcol]]]|[Et _]];
        rewrite Et.
      * destruct Hcol as [Hid|Hp].
        -- specialize (Hlo y Hy). lia.
        -- rewrite <- Hp. now apply in_map.
      * rewrite map_app. apply in_or_app. right. now left.
    + intros x Hx. specialize (Hb x Hx). cbn [List.length]. lia.
Qed.

Lemma fold_all (rows : list Row) :
  forall table,
    (forall r, In r rows ->
               ~ In (id_of r) (ids table)
               /\ ~ In (path_of r) (paths table)) ->
    NoDup (ids rows) -> NoDup (paths rows) ->
    fold_left ioi rows table = table ++ rows.
Proof.
  induction rows as [|r rows IH]; intros table Hfresh Hi Hp;
    cbn [fold_left]; [now rewrite app_nil_r|].
  cbn [List.map] in Hi, Hp. inversion Hi as [|? ? Hi1 Hi2].
  inversion Hp as [|? ? Hp1 Hp2]. subst.
  destruct (Hfresh r (or_introl eq_refl)) as [Hfi Hfp].
  destruct (ioi_cases table r) as [[_ [y [Hy Hcol]]]|[Et _]].
  - exfalso. destruct Hcol as [E|E];
      [apply Hfi|apply Hfp]; rewrite <- E; now apply in_map.
  - rewrite Et, IH, <- app_assoc; [reflexivity| |assumption|assumption].
    intros x Hx. destruct (Hfresh x (or_intror Hx)) as [H1 H2].
    rewrite !map_app. cbn [List.map]. split; intro H;
      apply in_app_or in H as [H|[H|[]]]; try contradiction.
    + apply Hi1. rewrite H. now apply in_map.
    + apply Hp1. rewrite H. now apply in_map.
Qed.

(** What a successful flush leaves. *)
Lemma flush_grows (s s' : store Row Child) (rows : list Row)
  (children : list Child) :
  flush s rows children = Ok s' ->
  (exists new,
      parents s' = option_map (fun l => l ++ new) (parents s)
      /\ stored s' = stored s ++ new
      /\ fold_left ioi rows (stored s) = stored s ++ new
      /\ forall r, In r new ->
                   In r rows /\ ~ In (path_of r) (paths (stored s)))
  /\ kids s' = option_map (fun l => l ++ children) (kids s)
  /\ (rows <> [] -> parents s <> None)
  /\ (children <> [] -> kids s <> None).
Proof.
  unfold g_flush, stored. intro H.
  assert (Hk : forall ps,
             match children with
             | [] => Ok (kids s)
             | _ :: _ =>
                 match kids s with
                 | Some st => Ok (Some (st ++ children))
                 | None => Raise OperationalError
                 end
             end = Ok ps ->
             ps = option_map (fun l => l ++ children) (kids s)
             /\ (children <> [] -> kids s <> None)).
  { intros ps E. destruct children as [|k children].
    - injection E as <-. now rewrite option_map_app_nil.
    - destruct (kids s); [|discriminate]. injection E as <-. easy. }
  destruct rows as [|r rows].
  - cbn [bind] in H.
    destruct (match children with [] => _ | _ => _ end) as [ks|] eqn:E;
      [|discriminate].
    cbn [bind] in H. injection H as <-. cbn [parents kids].
    destruct (Hk ks eq_refl) as [-> Hc]. repeat split; try easy.
    exists []. rewrite option_map_app_nil, app_nil_r. now repeat split.
  - destruct (parents s) as [table|] eqn:Ep; [|discriminate].
    cbn [bind] in H.
    destruct (match children with [] => _ | _ => _ end) as [ks|] eqn:E;
      [|discriminate].
    cbn [bind] in H. injection H as <-. cbn [parents kids].
    destruct (Hk ks eq_refl) as [-> Hc]. repeat split; try easy.
    destruct (fold_grows (r :: rows) table) as [new [En Hnew]].
    exists new. cbn [fold_left] in En |- *. rewrite En.
    cbn [option_map]. repeat (split; [reflexivity|]). exact Hnew.
Qed.

(** The paths in the table or in the buffer. *)
Definition known (st : gstate Row Child) : list pystr :=
  paths (stored (g_store st)) ++ paths (g_rows st).

(** The buffered ids are the last ones handed out, and every stored id
    is below them. *)
Definition numbered (st : gstate Row Child) : Prop :=
  let n := List.length (g_rows st) in
  ids (g_rows st) = ids_from (g_id st - Z.of_nat n) n
  /\ forall x, In x (stored (g_store st)) ->
               (id_of x < g_id st - Z.of_nat n)%Z.

(** From [st] to [st'] the parent table only gained rows, at its end and
    under paths it did not hold, and no known path was lost. *)
Definition grows (st st' : gstate Row Child) : Prop :=
  (exists new,
      parents (g_store st')
      = option_map (fun l => l ++ new) (parents (g_store st))
      /\ stored (g_store st') = stored (g_store st) ++ new
      /\ forall r, In r new ->
                   ~ In (path_of r) (paths (stored (g_store st))))
  /\ forall p, In p (known st) -> In p (known st').

Lemma grows_refl (st : gstate Row Child) : grows st st.
Proof.
  split; [|easy]. exists [].
  now rewrite option_map_app_nil, app_nil_r.
Qed.

Lemma grows_trans (a b c : gstate Row Child) :
  grows a b -> grows b c -> grows a c.
Proof.
  intros [[n1 [P1 [S1 F1]]] K1] [[n2 [P2 [S2 F2]]] K2].
  split; [|auto]. exists (n1 ++ n2).
  rewrite P2, P1, option_map_app_app, S2, S1, <- app_assoc.
  repeat split. intros r Hr.
  apply in_app_or in Hr as [Hr|Hr]; [now apply F1|].
  intro H. apply (F2 r Hr). rewrite S1, map_app. apply in_or_app. now left.
Qed.

Lemma ingest_facts (path : pystr) (file : File)
  (st st' : gstate Row Child) :
  numbered st -> ingest path file st = Ok st' ->
  numbered st' /\ grows st st'
  /\ ((forall id, make path file id = Ok None) \/ In path (known st')).
Proof.
  intros [Hids Hlo] H. unfold g_ingest in H.
  destruct (make path file (g_id st)) as [[[row children]|]|] eqn:Em;
    [| |discriminate]; cbn [bind] in H.
  2:{ injection H as <-. split; [now split|]. split; [apply grows_refl|].
      left. intro id. exact (make_none _ _ _ id Em). }
  destruct (make_row _ _ _ _ _ Em) as [Hid Hp].
  set (n := List.length (g_rows st)) in *.
  assert (Hids' : ids (g_rows st ++ [row])
                  = ids_from (g_id st - Z.of_nat n)
                      (List.length (g_rows st ++ [row]))).
  { rewrite map_app, length_app, Hids. cbn [List.map List.length].
    fold n. rewrite Nat.add_1_r, ids_from_snoc, Hid. do 2 f_equal. lia. }
  destruct (20000 <=? _)%Z.
  - destruct (flush (g_store st) (g_rows st ++ [row])
                (g_kids st ++ children)) as [s'|] eqn:Ef; [|discriminate].
    cbn [bind] in H. injection H as <-.
    destruct (flush_grows _ _ _ _ Ef) as [[new [P [S [Ffold Hnew]]]] _].
    destruct (fold_covers _ _ _ Hids' Hlo) as [Hc Hb].
    rewrite Ffold, <- S in Hc, Hb.
    rewrite length_app in Hb. cbn [List.length] in Hb. fold n in Hb.
    split; [|split].
    + split; [reflexivity|]. cbn [g_rows g_store g_id List.length].
      intros x Hx. specialize (Hb x Hx). lia.
    + split.
      * exists new. cbn [g_store]. repeat split; try assumption.
        intros r Hr. now apply Hnew.
      * intros p Hp'. unfold known in *. cbn [g_store g_rows].
        cbn [List.map]. rewrite app_nil_r.
        apply in_app_or in Hp' as [Hp'|Hp'].
        -- rewrite S, map_app. apply in_or_app. now left.
        -- apply in_map_iff in Hp' as [r [<- Hr]]. apply Hc.
           apply in_or_app. now left.
    + right. unfold known. cbn [g_store g_rows List.map].
      rewrite app_nil_r, <- Hp. apply Hc. apply in_or_app. right. now left.
  - injection H as <-. split; [|split].
    + split; cbn [g_rows g_store g_id].
      * rewrite Hids'. f_equal. rewrite length_app. cbn [List.length].
        fold n. lia.
      * intros x Hx. specialize (Hlo x Hx). rewrite length_app.
        cbn [List.length]. fold n. lia.
    + split.
      * exists []. cbn [g_store].
        now rewrite option_map_app_nil, app_nil_r.
      * intros p Hp'. unfold known in *. cbn [g_store g_rows].
        rewrite map_app. apply in_app_or in Hp' as [Hp'|Hp'];
          apply in_or_app; [now left|right].
        apply in_or_app. now left.
    + right. unfold known. cbn [g_store g_rows]. rewrite map_app.
      apply in_or_app. right. apply in_or_app. right. rewrite <- Hp.
      now left.
Qed.

(** The path of a directory entry. *)
Definition entry_path (dir : pystr) (e : pystr * File) : pystr :=
  path_join dir (fst e).

Lemma loop_facts (dir : pystr) (skip : bool) (existing : list pystr)
  (entries : list (pystr * File)) :
  forall st st',
    numbered st -> loop dir skip existing entries st = Ok st' ->
    numbered st' /\ grows st st'
    /\ forall e, In e entries -> accepts (fst e) = true ->
         (skip && mem (entry_path dir e) existing = true)
         \/ (forall id, make (entry_path dir e) (snd e) id = Ok None)
         \/ In (entry_path dir e) (known st').
Proof.
  induction entries as [|[name file] rest IH]; intros st st' Hn H;
    cbn [g_loop] in H.
  - injection H as <-. split; [exact Hn|]. split; [apply grows_refl|easy].
  - destruct (accepts name) eqn:Ea; cbn [negb] in H.
    2:{ destruct (IH _ _ Hn H) as [Hn' [Hg Hc]].
        split; [exact Hn'|]. split; [exact Hg|].
        intros e [<-|He] Hacc; [cbn in Hacc; congruence|now apply Hc]. }
    destruct (skip && mem (path_join dir name) existing) eqn:Es.
    + destruct (IH _ _ Hn H) as [Hn' [Hg Hc]].
      split; [exact Hn'|]. split; [exact Hg|].
      intros e [<-|He] Hacc; [now left|now apply Hc].
    + destruct (ingest (path_join dir name) file st) as [st1|] eqn:Ei;
        [|discriminate].
      cbn [bind] in H.
      destruct (ingest_facts _ _ _ _ Hn Ei) as [Hn1 [Hg1 Hm]].
      destruct (IH _ _ Hn1 H) as [Hn' [Hg Hc]].
      split; [exact Hn'|]. split; [exact (grows_trans _ _ _ Hg1 Hg)|].
      intros e [<-|He] Hacc; [|now apply Hc].
      right. destruct Hm as [Hm|Hm]; [now left|right].
      now apply (proj2 Hg).
Qed.

Lemma start_numbered (s : store Row Child) : numbered (g_start id_of s).
Proof.
  split; [reflexivity|]. cbn [g_start g_rows g_store g_id List.length].
  rewrite Z.sub_0_r. intros x Hx. unfold g_ids, stored in *.
  destruct (parents s) as [table|]; [|easy]. cbn [option_map].
  apply next_id_above. now apply in_map.
Qed.

Lemma finish_facts (st : gstate Row Child) (s' : store Row Child)
  (n : nat) :
  numbered st -> finish st = Ok (s', n) ->
  n = g_count st
  /\ (exists new,
         parents s' = option_map (fun l => l ++ new) (parents (g_store st))
         /\ stored s' = stored (g_store st) ++ new
         /\ fold_left ioi (g_rows st) (stored (g_store st))
            = stored (g_store st) ++ new
         /\ forall r, In r new ->
                      In r (g_rows st)
                      /\ ~ In (path_of r) (paths (stored (g_store st))))
  /\ (forall p, In p (known st) -> In p (paths (stored s')))
  /\ kids s' = option_map (fun l => l ++ g_kids st) (kids (g_store st))
  /\ create_index (kids s') = Ok tt
  /\ (if index_on_parents then create_index (parents s') else Ok tt)
     = Ok tt.
Proof.
  intros [Hids Hlo] H. unfold g_finish in H.
  destruct (flush (g_store st) (g_rows st) (g_kids st)) as [s|] eqn:Ef;
    [|discriminate].
  cbn [bind] in H.
  destruct (create_index (kids s)) as [[]|] eqn:E1; [|discriminate].
  cbn [bind] in H.
  destruct (if index_on_parents then create_index (parents s) else Ok tt)
    as [[]|] eqn:E2; [|discriminate].
  cbn [bind] in H. injection H as <- <-.
  destruct (flush_grows _ _ _ _ Ef) as [[new [P [S [Ffold Hnew]]]] [K _]].
  destruct (fold_covers _ _ _ Hids Hlo) as [Hc _].
  rewrite Ffold, <- S in Hc.
  split; [reflexivity|]. split; [now exists new|].
  split; [|now repeat split].
  intros p Hp. unfold known in Hp. apply in_app_or in Hp as [Hp|Hp].
  - rewrite S, map_app. apply in_or_app. now left.
  - apply in_map_iff in Hp as [r [<- Hr]]. now apply Hc.
Qed.

(** An entry the loop passes over: its name fails the test, its path is
    in [existing], or it yields no row. *)
Definition passed (dir : pystr) (existing : list pystr)
  (e : pystr * File) : Prop :=
  accepts (fst e) = true ->
  mem (entry_path dir e) existing = true
  \/ forall id, make (entry_path dir e) (snd e) id = Ok None.

Lemma loop_idle (dir : pystr) (existing : list pystr)
  (entries : list (pystr * File)) (st : gstate Row Child) :
  (forall e, In e entries -> passed dir existing e) ->
  loop dir true existing entries st = Ok st.
Proof.
  induction entries as [|[name file] rest IH]; intro Hp; cbn [g_loop];
    [reflexivity|].
  assert (IH' := IH (fun e He => Hp e (or_intror He))).
  destruct (accepts name) eqn:Ea; cbn [negb]; [|exact IH'].
  destruct (Hp (name, file) (or_introl eq_refl) Ea) as [Hm|Hm].
  - unfold entry_path in Hm. cbn [fst] in Hm. rewrite Hm. exact IH'.
  - destruct (true && mem (path_join dir name) existing); [exact IH'|].
    unfold g_ingest, entry_path in *. cbn [fst snd] in Hm. rewrite Hm.
    cbn [bind]. exact IH'.
Qed.

Lemma flush_nothing (s : store Row Child) : flush s [] [] = Ok s.
Proof. unfold g_flush. cbn [bind]. now destruct s. Qed.

(** Every old row is kept in place, and no row is added under a path
    the table already holds. *)
Theorem import_grows (s s' : store Row Child) (dir : pystr)
  (listing : option (list (pystr * File))) (skip : bool) (n : nat) :
  import s dir listing skip = Ok (s', n) ->
  exists new,
    parents s' = option_map (fun l => l ++ new) (parents s)
    /\ forall r, In r new -> ~ In (path_of r) (paths (stored s)).
Proof.
  unfold g_import. destruct listing as [files|].
  2:{ intro H. injection H as <- <-. exists [].
      now rewrite option_map_app_nil. }
  intro H.
  destruct (loop dir skip _ (sorted files) (g_start id_of s))
    as [st|] eqn:El; [|discriminate].
  cbn [bind] in H.
  destruct (loop_facts _ _ _ _ _ _ (start_numbered s) El)
    as [Hn [[[n1 [P1 [S1 F1]]] _] _]].
  destruct (finish_facts _ _ _ Hn H) as [_ [[n2 [P2 [S2 [_ F2]]]] _]].
  cbn [g_start g_store] in P1, S1, F1.
  exists (n1 ++ n2). rewrite P2, P1, option_map_app_app. split; [easy|].
  intros r Hr. apply in_app_or in Hr as [Hr|Hr]; [now apply F1|].
  intro Hin. apply (proj2 (F2 r Hr)). rewrite S1, map_app.
  apply in_or_app. now left.
Qed.

(** A second run with skip-existing over the same listing changes
    nothing and counts nothing. *)
Theorem import_again (s s1 : store Row Child) (dir : pystr)
  (listing : option (list (pystr * File))) (skip : bool) (n : nat) :
  import s dir listing skip = Ok (s1, n) ->
  import s1 dir listing true = Ok (s1, 0).
Proof.
  unfold g_import. destruct listing as [files|]; [|reflexivity].
  intro H.
  destruct (loop dir skip _ (sorted files) (g_start id_of s))
    as [st|] eqn:El; [|discriminate].
  cbn [bind] in H.
  destruct (loop_facts _ _ _ _ _ _ (start_numbered s) El)
    as [Hn [[[n1 [P1 [S1 F1]]] _] Hc]].
  destruct (finish_facts _ _ _ Hn H)
    as [_ [[n2 [P2 [S2 _]]] [Hk [_ [I1 I2]]]]].
  cbn [g_start g_store] in P1, S1.
  assert (Hex : list_existing (g_paths path_of s1) = paths (stored s1)).
  { unfold g_paths, stored. now destruct (parents s1). }
  rewrite Hex, loop_idle.
  - cbn [bind]. unfold g_finish.
    cbn [g_start g_store g_rows g_kids g_count].
    rewrite flush_nothing. cbn [bind]. rewrite I1. cbn [bind].
    rewrite I2. reflexivity.
  - intros e He Hacc.
    destruct (Hc e He Hacc) as [Hs|[Hm|Hkn]]; [left|now right|left].
    + apply andb_prop in Hs as [Hs Hmem]. subst skip.
      apply mem_In. apply mem_In in Hmem.
      assert (Hs0 : list_existing (g_paths path_of s) = paths (stored s)).
      { unfold g_paths, stored. now destruct (parents s). }
      rewrite Hs0 in Hmem. rewrite S2, S1, !map_app.
      apply in_or_app. left. apply in_or_app. now left.
    + apply mem_In. now apply Hk.
Qed.

(** Entries whose name fails the test do not count. *)
Lemma loop_filter (dir : pystr) (skip : bool) (existing : list pystr)
  (entries : list (pystr * File)) :
  forall st,
    loop dir skip existing entries st
    = loop dir skip existing
        (filter (fun e => accepts (fst e)) entries) st.
Proof.
  induction entries as [|[name file] rest IH]; intro st; [reflexivity|].
  cbn [g_loop filter fst]. destruct (accepts name) eqn:Ea; cbn [negb].
  - cbn [g_loop]. rewrite Ea. cbn [negb].
    destruct (skip && mem (path_join dir name) existing); [apply IH|].
    destruct (ingest _ file st); cbn [bind]; [apply IH|reflexivity].
  - apply IH.
Qed.

Theorem import_filter (s : store Row Child) (dir : pystr)
  (files : list (pystr * File)) (skip : bool) :
  import s dir (Some files) skip
  = import s dir (Some (filter (fun e => accepts (fst e)) files)) skip.
Proof.
  unfold g_import. rewrite Listing.sorted_filter, <- loop_filter.
  reflexivity.
Qed.

(** One file at a path the table holds, skip-existing disabled: the
    parent table stays as it is, the child rows are stored, the file is
    counted. *)
Theorem import_present_path (s : store Row Child) (dir name : pystr)
  (file : File) (table : list Row) (old children : list Child)
  (row : Row) :
  accepts name = true ->
  parents s = Some table -> kids s = Some old ->
  In (path_join dir name) (paths table) ->
  make (path_join dir name) file (_next_id (Some (ids table)))
  = Ok (Some (row, children)) ->
  import s dir (Some [(name, file)]) false
  = Ok ({| parents := Some table; kids := Some (old ++ children) |}, 1).
Proof.
  intros Ha Hp Hk Hin Hm.
  destruct (make_row _ _ _ _ _ Hm) as [_ Hpath].
  assert (Hioi : ioi table row = table).
  { apply ioi_same_path. now rewrite Hpath. }
  unfold g_import. cbn [sorted fold_right insert_sorted g_loop fst].
  rewrite Ha. cbn [negb andb]. unfold g_ingest.
  cbn [g_start g_id]. unfold g_ids. rewrite Hp. cbn [option_map].
  rewrite Hm. cbn [bind g_rows g_kids app].
  assert (Hflush : forall (A : Type) (k : store Row Child -> result A),
            (s' <- flush s [row] children ;; k s')
            = k {| parents := Some table; kids := Some (old ++ children) |}).
  { intros A k. unfold g_flush. rewrite Hp, Hk. cbn [bind fold_left].
    rewrite Hioi. destruct children; [|reflexivity].
    now rewrite app_nil_r. }
  destruct (20000 <=? _)%Z.
  - cbn [g_store]. rewrite Hflush. cbn [bind]. unfold g_finish.
    cbn [g_store g_rows g_kids g_count]. rewrite flush_nothing.
    cbn [bind kids parents create_index].
    now destruct index_on_parents.
  - cbn [bind]. unfold g_finish.
    cbn [g_store g_rows g_kids g_count]. rewrite Hflush.
    cbn [bind kids parents create_index].
    now destruct index_on_parents.
Qed.

Lemma NoDup_app_inv {A} (a b : list A) :
  NoDup (a ++ b) ->
  NoDup a /\ NoDup b /\ forall x, In x a -> ~ In x b.
Proof.
  induction a as [|y a IH]; cbn; intro H.
  - repeat split; [constructor|exact H|easy].
  - inversion H as [|? ? Hy Hrest]; subst.
    destruct (IH Hrest) as [Ha [Hb Hd]]. repeat split.
    + constructor; [|exact Ha]. intro; apply Hy. apply in_or_app. now left.
    + exact Hb.
    + intros x [<-|Hx]; [|now apply Hd].
      intro; apply Hy. apply in_or_app. now right.
Qed.

Section Tally.
(** The store the run started from. *)
Variable s0 : store Row Child.

Local Abbreviation id0 := (_next_id (g_ids id_of s0)).

(** Every row made so far went into the table or waits in the buffer,
    under the ids [id0], [id0 + 1], ... and under paths that are new,
    distinct and not among [remaining]. *)
Definition tallied (st : gstate Row Child) (remaining : list pystr)
  : Prop :=
  exists flushed,
    parents (g_store st) = option_map (fun l => l ++ flushed) (parents s0)
    /\ stored (g_store st) = stored s0 ++ flushed
    /\ ids (flushed ++ g_rows st) = ids_from id0 (g_count st)
    /\ g_id st = (id0 + Z.of_nat (g_count st))%Z
    /\ NoDup (paths (flushed ++ g_rows st))
    /\ forall r, In r (flushed ++ g_rows st) ->
                 ~ In (path_of r) (paths (stored s0))
                 /\ ~ In (path_of r) remaining.

Lemma stored_below_id0 (x : Row) : In x (stored s0) -> (id_of x < id0)%Z.
Proof.
  unfold g_ids, stored. destruct (parents s0) as [table|]; [|easy].
  intro Hx. cbn [option_map]. apply next_id_above. now apply in_map.
Qed.

Lemma flush_inserts_all (s s' : store Row Child)
  (flushed rows : list Row) (children : list Child) (n : nat) :
  parents s = option_map (fun l => l ++ flushed) (parents s0) ->
  stored s = stored s0 ++ flushed ->
  ids (flushed ++ rows) = ids_from id0 n ->
  NoDup (paths (flushed ++ rows)) ->
  (forall r, In r (flushed ++ rows) ->
             ~ In (path_of r) (paths (stored s0))) ->
  flush s rows children = Ok s' ->
  parents s' = option_map (fun l => l ++ flushed ++ rows) (parents s0)
  /\ stored s' = stored s0 ++ flushed ++ rows.
Proof.
  intros P St Hids Hnd Hfresh Hf.
  destruct (flush_grows _ _ _ _ Hf) as [[new [P' [St' [Ffold _]]]] _].
  assert (Hall : fold_left ioi rows (stored s) = stored s ++ rows).
  { pose proof (ids_from_NoDup id0 n) as Hn. rewrite <- Hids in Hn.
    rewrite map_app in Hn, Hnd.
    destruct (NoDup_app_inv _ _ Hn) as [_ [Hn2 Hn3]].
    destruct (NoDup_app_inv _ _ Hnd) as [_ [Hp2 Hp3]].
    apply fold_all; [|exact Hn2|exact Hp2].
    intros r Hr. rewrite St, !map_app. split; intro H;
      apply in_app_or in H as [H|H].
    - apply in_map_iff in H as [x [E Hx]].
      pose proof (stored_below_id0 x Hx) as Hlt.
      assert (Hin : In (id_of r) (ids_from id0 n)).
      { rewrite <- Hids, map_app. apply in_or_app. right. now apply in_map. }
      apply ids_from_lt in Hin. lia.
    - apply (Hn3 _ H). now apply in_map.
    - apply (Hfresh r); [apply in_or_app; now right|exact H].
    - apply (Hp3 _ H). now apply in_map. }
  rewrite Hall in Ffold. apply app_inv_head in Ffold. subst new.
  rewrite P', P, option_map_app_app, St', St, <- app_assoc. now split.
Qed.

Lemma tallied_ingest (path : pystr) (file : File)
  (st st' : gstate Row Child) (remaining : list pystr) :
  tallied st (path :: remaining) ->
  ~ In path remaining -> ~ In path (paths (stored s0)) ->
  ingest path file st = Ok st' ->
  tallied st' remaining.
Proof.
  intros [flushed [P [St [Hids [Hid [Hnd Hfresh]]]]]] Hrem Hnew H.
  unfold g_ingest in H.
  destruct (make path file (g_id st)) as [[[row children]|]|] eqn:Em;
    [| |discriminate]; cbn [bind] in H.
  2:{ injection H as <-. exists flushed. repeat split; try assumption.
      - now apply Hfresh.
      - intro Hr. apply (proj2 (Hfresh r H)). now right. }
  destruct (make_row _ _ _ _ _ Em) as [Hrid Hrp].
  assert (Hids' : ids (flushed ++ g_rows st ++ [row])
                  = ids_from id0 (S (g_count st))).
  { rewrite app_assoc, map_app, Hids, ids_from_snoc. cbn [List.map].
    now rewrite Hrid, Hid. }
  assert (Hnd' : NoDup (paths (flushed ++ g_rows st ++ [row]))).
  { rewrite app_assoc, map_app. apply NoDup_app; [exact Hnd| |].
    - repeat constructor. easy.
    - intros p Hp [<-|[]]. apply in_map_iff in Hp as [r [E Hr]].
      apply (proj2 (Hfresh r Hr)). left. congruence. }
  assert (Hfresh' : forall r, In r (flushed ++ g_rows st ++ [row]) ->
                      ~ In (path_of r) (paths (stored s0))
                      /\ ~ In (path_of r) remaining).
  { intros r Hr. rewrite app_assoc in Hr.
    apply in_app_or in Hr as [Hr|[<-|[]]].
    - destruct (Hfresh r Hr) as [H1 H2]. split; [exact H1|].
      intro; apply H2. now right.
    - rewrite Hrp. now split. }
  destruct (20000 <=? _)%Z.
  - destruct (flush (g_store st) (g_rows st ++ [row])
                (g_kids st ++ children)) as [s'|] eqn:Ef; [|discriminate].
    cbn [bind] in H. injection H as <-.
    destruct (flush_inserts_all _ _ _ _ _ _ P St Hids' Hnd'
                (fun r Hr => proj1 (Hfresh' r Hr)) Ef) as [P' St'].
    exists (flushed ++ g_rows st ++ [row]).
    cbn [g_store g_rows g_count g_id]. rewrite app_nil_r.
    repeat split; try assumption; try (now apply Hfresh'). lia.
  - injection H as <-. exists flushed.
    cbn [g_store g_rows g_count g_id].
    repeat split; try assumption; try (now apply Hfresh'). lia.
Qed.

Lemma tallied_loop (dir : pystr) (entries : list (pystr * File)) :
  forall st st',
    NoDup (List.map (entry_path dir) entries) ->
    tallied st (List.map (entry_path dir) entries) ->
    loop dir true (paths (stored s0)) entries st = Ok st' ->
    tallied st' [].
Proof.
  induction entries as [|[name file] rest IH]; intros st st' Hnd Ht H;
    cbn [g_loop] in H.
  - injection H as <-. exact Ht.
  - cbn [List.map] in Hnd, Ht. inversion Hnd as [|? ? Hhead Hrest]; subst.
    assert (Hweak : tallied st (List.map (entry_path dir) rest)).
    { destruct Ht as [flushed [P [St [Hids [Hid [Hn Hfresh]]]]]].
      exists flushed. repeat split; try assumption.
      - now apply Hfresh.
      - intro Hr. apply (proj2 (Hfresh r H0)). now right. }
    destruct (negb (accepts name)); [exact (IH _ _ Hrest Hweak H)|].
    cbn [andb] in H.
    destruct (mem (path_join dir name) (paths (stored s0))) eqn:Em;
      [exact (IH _ _ Hrest Hweak H)|].
    destruct (ingest (path_join dir name) file st) as [st1|] eqn:Ei;
      [|discriminate].
    cbn [bind] in H. apply (IH st1 st' Hrest); [|exact H].
    apply (tallied_ingest (path_join dir name) file st st1 _ Ht Hhead);
      [|exact Ei].
    intro Hin. apply mem_In in Hin. congruence.
Qed.

End Tally.

(** With skip-existing and distinct paths in the directory, the rows a
    run adds to the parent table carry the ids that follow the highest
    stored one, one per counted file. *)
Theorem import_ids (s s' : store Row Child) (dir : pystr)
  (files : list (pystr * File)) (n : nat) :
  NoDup (List.map (entry_path dir) files) ->
  import s dir (Some files) true = Ok (s', n) ->
  exists new,
    parents s' = option_map (fun l => l ++ new) (parents s)
    /\ ids new = ids_from (_next_id (g_ids id_of s)) n.
Proof.
  intros Hnd H. unfold g_import in H.
  assert (Hex : list_existing (g_paths path_of s) = paths (stored s)).
  { unfold g_paths, stored. now destruct (parents s). }
  rewrite Hex in H.
  destruct (loop dir true _ (sorted files) (g_start id_of s))
    as [st|] eqn:El; [|discriminate].
  cbn [bind] in H.
  assert (Hnd' : NoDup (List.map (entry_path dir) (sorted files))).
  { eapply Permutation_NoDup; [|exact Hnd].
    apply Permutation_map. symmetry. apply Listing.sorted_perm. }
  assert (Ht0 : tallied s (g_start id_of s)
                  (List.map (entry_path dir) (sorted files))).
  { exists []. cbn [g_start g_store g_rows g_count g_id app List.map].
    rewrite option_map_app_nil, app_nil_r, Z.add_0_r.
    repeat split; try easy. constructor. }
  destruct (tallied_loop s dir _ _ _ Hnd' Ht0 El)
    as [flushed [P [St [Hids [_ [Hn Hfresh]]]]]].
  unfold g_finish in H.
  destruct (flush (g_store st) (g_rows st) (g_kids st)) as [s1|] eqn:Ef;
    [|discriminate].
  cbn [bind] in H.
  destruct (create_index (kids s1)) as [[]|]; [|discriminate].
  cbn [bind] in H.
  destruct (if index_on_parents then create_index (parents s1) else Ok tt)
    as [[]|]; [|discriminate].
  cbn [bind] in H. injection H as <- <-.
  destruct (flush_inserts_all s _ _ _ _ _ _ P St Hids Hn
              (fun r Hr => proj1 (Hfresh r Hr)) Ef) as [P' _].
  exists (flushed ++ g_rows st). now split.
Qed.

End Facts.

End ImporterFacts.

(** ** The importers, by instance *)

Module Imports.
Import health_postprocess Ids Importer ImporterFacts.

Section WithRuntime.
Context {rt : PyRuntime}.

Lemma make_route_row (path : pystr) (file : gpx_file) (id : Z)
  (row : route_row) (children : list point_row) :
  make_route path file id = Ok (Some (row, children)) ->
  route_id_of row = id /\ route_file_path row = path.
Proof.
  unfold make_route. destruct (parse_points file) as [[|p ps]|];
    cbn [bind]; try discriminate.
  destruct (route_distance (p :: ps)); cbn [bind]; [|discriminate].
  intro H. injection H as <- _. now split.
Qed.

Lemma make_route_none (path : pystr) (file : gpx_file) (id id' : Z) :
  make_route path file id = Ok None -> make_route path file id' = Ok None.
Proof.
  unfold make_route. destruct (parse_points file) as [[|p ps]|];
    cbn [bind]; try easy.
  destruct (route_distance (p :: ps)); cbn [bind]; easy.
Qed.

Lemma make_ecg_row (path : pystr) (file : csv_file) (id : Z)
  (row : ecg_row) (children : list sample_row) :
  make_ecg path file id = Ok (Some (row, children)) ->
  ecg_id_of row = id /\ ecg_file_path row = path.
Proof.
  unfold make_ecg. destruct (parse_ecg_csv file) as [[metadata [|x xs]]|];
    cbn [bind fst snd]; try discriminate.
  destruct (_parse_sample_rate _); cbn [bind]; [|discriminate].
  intro H. injection H as <- _. now split.
Qed.

Lemma make_ecg_none (path : pystr) (file : csv_file) (id id' : Z) :
  make_ecg path file id = Ok None -> make_ecg path file id' = Ok None.
Proof.
  unfold make_ecg. destruct (parse_ecg_csv file) as [[metadata [|x xs]]|];
    cbn [bind fst snd]; try easy.
  destruct (_parse_sample_rate _); cbn [bind]; easy.
Qed.

Lemma map_result_ok {A B} (f : A -> B) (m : result A) (b : B) :
  map_result f m = Ok b -> exists a, m = Ok a /\ b = f a.
Proof. destruct m; cbn; [|discriminate]. intro H. injection H as <-. eauto. Qed.

(** A second run of an importer over the store it left, whatever the
    other importer did to its own tables in between. *)
Lemma routes_again (c c1 c2 : conn) (dir : pystr)
  (listing : option (list (pystr * gpx_file))) (skip : bool) (n : nat) :
  import_workout_routes c dir listing skip = Ok (c1, n) ->
  route_store c2 = route_store c1 ->
  import_workout_routes c2 dir listing true = Ok (c2, 0).
Proof.
  rewrite !import_workout_routes_generic. intros H E.
  apply map_result_ok in H as [[s1 k] [H Hc]].
  injection Hc as -> ->. cbn [fst] in E.
  apply (import_again _ _ _ _ _ _ _ _ make_route_row make_route_none)
    in H.
  assert (Es : route_store c2 = s1) by (rewrite E; now destruct s1).
  rewrite Es, H. cbn [map_result fst snd].
  now rewrite <- Es, with_route_store_id.
Qed.

Lemma ecg_again (c c1 c2 : conn) (dir : pystr)
  (listing : option (list (pystr * csv_file))) (skip : bool) (n : nat) :
  import_ecg c dir listing skip = Ok (c1, n) ->
  ecg_store c2 = ecg_store c1 ->
  import_ecg c2 dir listing true = Ok (c2, 0).
Proof.
  rewrite !import_ecg_generic. intros H E.
  apply map_result_ok in H as [[s1 k] [H Hc]].
  injection Hc as -> ->. cbn [fst] in E.
  apply (import_again _ _ _ _ _ _ _ _ make_ecg_row make_ecg_none) in H.
  assert (Es : ecg_store c2 = s1) by (rewrite E; now destruct s1).
  rewrite Es, H. cbn [map_result fst snd].
  now rewrite <- Es, with_ecg_store_id.
Qed.

(** What an importer does to the tables: its parent table gains rows at
    the end, under paths it did not hold; its child table exists if it
    did; the other importer's tables are left alone. *)
Lemma routes_grow (c c1 : conn) (dir : pystr)
  (listing : option (list (pystr * gpx_file))) (skip : bool) (n : nat) :
  import_workout_routes c dir listing skip = Ok (c1, n) ->
  (exists new,
      workout_routes c1
      = option_map (fun l => l ++ new) (workout_routes c)
      /\ forall r table,
           In r new -> workout_routes c = Some table ->
           ~ In (route_file_path r) (List.map route_file_path table))
  /\ ecg_records c1 = ecg_records c /\ ecg_samples c1 = ecg_samples c.
Proof.
  rewrite import_workout_routes_generic. intro H.
  apply map_result_ok in H as [[s1 k] [H Hc]]. injection Hc as -> ->.
  cbn [fst with_route_store workout_routes ecg_records ecg_samples].
  split; [|now split].
  destruct (import_grows _ _ _ _ _ _ _ _ make_route_row make_route_none
              _ _ _ _ _ _ H)
    as [new [P F]].
  exists new. split; [exact P|]. intros r table Hr Ht.
  specialize (F r Hr). unfold stored, route_store in F.
  cbn [parents] in F. now rewrite Ht in F.
Qed.

Lemma ecg_grow (c c1 : conn) (dir : pystr)
  (listing : option (list (pystr * csv_file))) (skip : bool) (n : nat) :
  import_ecg c dir listing skip = Ok (c1, n) ->
  (exists new,
      ecg_records c1 = option_map (fun l => l ++ new) (ecg_records c)
      /\ forall r table,
           In r new -> ecg_records c = Some table ->
           ~ In (ecg_file_path r) (List.map ecg_file_path table))
  /\ workout_routes c1 = workout_routes c
  /\ workout_route_points c1 = workout_route_points c.
Proof.
  rewrite import_ecg_generic. intro H.
  apply map_result_ok in H as [[s1 k] [H Hc]]. injection Hc as -> ->.
  cbn [fst with_ecg_store workout_routes workout_route_points ecg_records].
  split; [|now split].
  destruct (import_grows _ _ _ _ _ _ _ _ make_ecg_row make_ecg_none
              _ _ _ _ _ _ H)
    as [new [P F]].
  exists new. split; [exact P|]. intros r table Hr Ht.
  specialize (F r Hr). unfold stored, ecg_store in F.
  cbn [parents] in F. now rewrite Ht in F.
Qed.

End WithRuntime.

End Imports.

Module PostProcess.
Import health_postprocess Ids Importer ImporterFacts Imports.

(** Every table of the schema exists. *)
Definition complete (c : conn) : Prop :=
  workout_routes c <> None /\ workout_route_points c <> None
  /\ ecg_records c <> None /\ ecg_samples c <> None.

Lemma init_db_complete (c : conn) : complete (init_db c).
Proof.
  unfold complete, init_db, created; cbn.
  destruct (workout_routes c), (workout_route_points c), (ecg_records c),
    (ecg_samples c); now repeat split.
Qed.

Lemma init_db_id (c : conn) : complete c -> init_db c = c.
Proof.
  destruct c as [[a|] [b|] [d|] [e|]]; unfold complete;
    cbn [workout_routes workout_route_points ecg_records ecg_samples];
    intros [H1 [H2 [H3 H4]]]; try reflexivity; exfalso; auto.
Qed.

Lemma import_kids {Row Child File : Type} (id_of : Row -> Z)
  (path_of : Row -> pystr) (accepts : pystr -> bool)
  (make : pystr -> File -> Z -> result (option (Row * list Child)))
  (index_on_parents : bool) (s s' : store Row Child) (dir : pystr)
  (listing : option (list (pystr * File))) (skip : bool) (n : nat) :
  g_import id_of path_of accepts make index_on_parents s dir listing skip
  = Ok (s', n) ->
  kids s <> None -> kids s' <> None.
Proof.
  unfold g_import. destruct listing as [files|].
  - destruct (g_loop _ _ _ _ _ _ _ _ _) as [st|]; [|discriminate].
    cbn [bind]. unfold g_finish.
    destruct (g_flush _ _ _ _ _) as [s1|]; [|discriminate].
    cbn [bind]. destruct (kids s1) eqn:E; [|discriminate].
    cbn [create_index bind].
    destruct (if index_on_parents then _ else _); [|discriminate].
    cbn [bind]. intros H _. injection H as <- _. congruence.
  - intros H. now injection H as <- _.
Qed.

Lemma option_map_some {A B} (f : A -> B) (o : option A) :
  o <> None -> option_map f o <> None.
Proof. now destruct o. Qed.

Section WithRuntime.
Context {rt : PyRuntime}.

Lemma routes_complete (c c1 : conn) (dir : pystr)
  (listing : option (list (pystr * gpx_file))) (skip : bool) (n : nat) :
  import_workout_routes c dir listing skip = Ok (c1, n) ->
  complete c -> complete c1.
Proof.
  intros H [H1 [H2 [H3 H4]]].
  destruct (routes_grow _ _ _ _ _ _ H) as [[new [P _]] [E1 E2]].
  rewrite import_workout_routes_generic in H.
  apply map_result_ok in H as [[s1 k] [H Hc]]. injection Hc as -> ->.
  apply import_kids in H; [|exact H2].
  unfold complete. rewrite P, E1, E2. cbn [with_route_store fst
    workout_route_points].
  repeat split; try assumption. now apply option_map_some.
Qed.

Lemma ecg_complete (c c1 : conn) (dir : pystr)
  (listing : option (list (pystr * csv_file))) (skip : bool) (n : nat) :
  import_ecg c dir listing skip = Ok (c1, n) ->
  complete c -> complete c1.
Proof.
  intros H [H1 [H2 [H3 H4]]].
  destruct (ecg_grow _ _ _ _ _ _ H) as [[new [P _]] [E1 E2]].
  rewrite import_ecg_generic in H.
  apply map_result_ok in H as [[s1 k] [H Hc]]. injection Hc as -> ->.
  apply import_kids in H; [|exact H4].
  unfold complete. rewrite P, E1, E2. cbn [with_ecg_store fst ecg_samples].
  repeat split; try assumption. now apply option_map_some.
Qed.

Lemma main_again (c c1 : conn) (routes_dir ecg_dir : pystr)
  (routes : option (list (pystr * gpx_file)))
  (ecgs : option (list (pystr * csv_file)))
  (skip no_routes no_ecg : bool) (counts : nat * nat) :
  main c routes_dir routes ecg_dir ecgs skip no_routes no_ecg
  = Ok (c1, counts) ->
  main c1 routes_dir routes ecg_dir ecgs true no_routes no_ecg
  = Ok (c1, (0, 0)).
Proof.
  unfold main. intro H.
  pose proof (init_db_complete c) as Hc0.
  set (c0 := init_db c) in *.
  destruct (if no_routes then Ok (c0, 0)
            else import_workout_routes c0 routes_dir routes skip)
    as [[cr a]|] eqn:Er; [|discriminate].
  cbn [bind fst snd] in H.
  destruct (if no_ecg then Ok (cr, 0)
            else import_ecg cr ecg_dir ecgs skip)
    as [[ce b]|] eqn:Ee; [|discriminate].
  cbn [bind fst snd] in H. injection H as -> _.
  assert (Hcr : complete cr).
  { destruct no_routes; [injection Er as <- _; exact Hc0|].
    exact (routes_complete _ _ _ _ _ _ Er Hc0). }
  assert (Hc1 : complete c1).
  { destruct no_ecg; [injection Ee as <- _; exact Hcr|].
    exact (ecg_complete _ _ _ _ _ _ Ee Hcr). }
  assert (Hsame : route_store c1 = route_store cr).
  { destruct no_ecg; [now injection Ee as <- _|].
    destruct (ecg_grow _ _ _ _ _ _ Ee) as [_ [E1 E2]].
    unfold route_store. now rewrite E1, E2. }
  rewrite (init_db_id _ Hc1).
  assert (R : (if no_routes then Ok (c1, 0)
               else import_workout_routes c1 routes_dir routes true)
              = Ok (c1, 0)).
  { destruct no_routes; [reflexivity|].
    exact (routes_again _ _ _ _ _ _ _ Er Hsame). }
  rewrite R. cbn [bind fst snd].
  assert (E : (if no_ecg then Ok (c1, 0)
               else import_ecg c1 ecg_dir ecgs true) = Ok (c1, 0)).
  { destruct no_ecg; [reflexivity|].
    exact (ecg_again _ _ _ _ _ _ _ Ee eq_refl). }
  rewrite E. reflexivity.
Qed.

End WithRuntime.

End PostProcess.

(** C4. A second run of the post-process stage with skip-existing over
    the same directories leaves the four tables as the first run left
    them and counts nothing; and whatever the skip mode, a run keeps
    every row of the route and ECG tables where it is and adds no row
    under a path the table holds. *)
Theorem second_run_adds_nothing :
  forall rt : PyRuntime,
    (forall (c c1 : health_postprocess.conn) (routes_dir ecg_dir : pystr)
            (routes : option (list (pystr * health_postprocess.gpx_file)))
            (ecgs : option (list (pystr * health_postprocess.csv_file)))
            (skip no_routes no_ecg : bool) (counts : nat * nat),
        health_postprocess.main c routes_dir routes ecg_dir ecgs skip
          no_routes no_ecg = Ok (c1, counts) ->
        health_postprocess.main c1 routes_dir routes ecg_dir ecgs true
          no_routes no_ecg = Ok (c1, (0, 0)))
    /\ (forall (c c1 : health_postprocess.conn) (dir : pystr)
               (listing : option (list (pystr * health_postprocess.gpx_file)))
               (skip : bool) (n : nat),
           health_postprocess.import_workout_routes c dir listing skip
           = Ok (c1, n) ->
           exists new,
             health_postprocess.workout_routes c1
             = option_map (fun l => l ++ new)
                 (health_postprocess.workout_routes c)
             /\ forall r table,
                  In r new ->
                  health_postprocess.workout_routes c = Some table ->
                  ~ In (health_postprocess.route_file_path r)
                      (List.map health_postprocess.route_file_path table))
    /\ (forall (c c1 : health_postprocess.conn) (dir : pystr)
               (listing : option (list (pystr * health_postprocess.csv_file)))
               (skip : bool) (n : nat),
           health_postprocess.import_ecg c dir listing skip = Ok (c1, n) ->
           exists new,
             health_postprocess.ecg_records c1
             = option_map (fun l => l ++ new)
                 (health_postprocess.ecg_records c)
             /\ forall r table,
                  In r new ->
                  health_postprocess.ecg_records c = Some table ->
                  ~ In (health_postprocess.ecg_file_path r)
                      (List.map health_postprocess.ecg_file_path table)).
Proof.
  intro rt. split; [|split].
  - intros. eapply PostProcess.main_again; eassumption.
  - intros c c1 dir listing skip n H.
    exact (proj1 (Imports.routes_grow _ _ _ _ _ _ H)).
  - intros c c1 dir listing skip n H.
    exact (proj1 (Imports.ecg_grow _ _ _ _ _ _ H)).
Qed.

(** *** Closed examples *)

(** A track file with one point, at latitude 10 and longitude 20. *)
Definition one_point_gpx : health_postprocess.gpx_file :=
  Some (Element (str "gpx") [] None
          [Element (str "trk") [] None
             [Element (str "{http://www.topografix.com/GPX/1/1}trkpt")
                [(str "lat", str "10"); (str "lon", str "20")] None
                [Element (str "{http://www.topografix.com/GPX/1/1}ele")
                   [] (Some (str "5")) []]]]).

Definition one_point_route_at (path : string) (id : Z)
  : health_postprocess.route_row :=
  {| health_postprocess.route_id_of := id;
     health_postprocess.route_file_path := str path;
     health_postprocess.start_time := None;
     health_postprocess.end_time := None;
     health_postprocess.point_count := 1;
     health_postprocess.distance_km := Finite 0.0%R;
     health_postprocess.min_lat := Some (Finite 10%R);
     health_postprocess.max_lat := Some (Finite 10%R);
     health_postprocess.min_lon := Some (Finite 20%R);
     health_postprocess.max_lon := Some (Finite 20%R) |}.

Definition one_point_route : Z -> health_postprocess.route_row :=
  one_point_route_at "routes/a.gpx".

Definition one_point_row (id : Z) : health_postprocess.point_row :=
  {| health_postprocess.point_route_id := id;
     health_postprocess.point_index := 0;
     health_postprocess.point_lat := Some (Finite 10%R);
     health_postprocess.point_lon := Some (Finite 20%R);
     health_postprocess.point_ele := None;
     health_postprocess.point_time := None |}.

Definition one_sample_ecg (id : Z) : health_postprocess.ecg_row :=
  {| health_postprocess.ecg_id_of := id;
     health_postprocess.ecg_file_path := str "ecg/e.csv";
     health_postprocess.recorded_date := None;
     health_postprocess.classification := None;
     health_postprocess.symptoms := None;
     health_postprocess.sample_rate_hz := None;
     health_postprocess.ecg_lead := None;
     health_postprocess.ecg_unit := None;
     health_postprocess.ecg_device := None;
     health_postprocess.software_version := None;
     health_postprocess.extra_json := [] |}.

Definition one_sample_row (id : Z) : health_postprocess.sample_row :=
  {| health_postprocess.sample_ecg_id := id;
     health_postprocess.sample_index := 0;
     health_postprocess.sample_value := Finite 5%R |}.

(** The store after [a.gpx] and [e.csv] have been ingested once. *)
Definition store_after_one_run : health_postprocess.conn :=
  {| health_postprocess.workout_routes := Some [one_point_route 1];
     health_postprocess.workout_route_points := Some [one_point_row 1];
     health_postprocess.ecg_records := Some [one_sample_ecg 1];
     health_postprocess.ecg_samples := Some [one_sample_row 1] |}.

Definition no_tables : health_postprocess.conn :=
  {| health_postprocess.workout_routes := None;
     health_postprocess.workout_route_points := None;
     health_postprocess.ecg_records := None;
     health_postprocess.ecg_samples := None |}.

Example first_run :
  health_postprocess.main (rt := ascii_runtime) no_tables
    (str "routes") (Some [(str "notes.txt", None);
                          (str "a.gpx", one_point_gpx)])
    (str "ecg") (Some [(str "e.csv", Some [[str "5"]])])
    false false false
  = Ok (store_after_one_run, (1, 1)).
Proof. reflexivity. Qed.

Lemma second_run_adds_nothing_witness :
  health_postprocess.main (rt := ascii_runtime) store_after_one_run
    (str "routes") (Some [(str "notes.txt", None);
                          (str "a.gpx", one_point_gpx)])
    (str "ecg") (Some [(str "e.csv", Some [[str "5"]])])
    true false false
  = Ok (store_after_one_run, (0, 0)).
Proof.
  apply (proj1 (second_run_adds_nothing ascii_runtime) no_tables
           store_after_one_run _ _ _ _ false false false (1, 1)).
  reflexivity.
Defined.

(** C6, as the code has it. With skip-existing disabled, a run over a
    file at a path the route or ECG table holds returns and adds no row
    to that table: the table is as it was, with the first row for the
    path. *)
Theorem reingest_keeps_first_row :
  forall rt : PyRuntime,
    (forall (c : health_postprocess.conn) (dir name : pystr)
            (file : health_postprocess.gpx_file)
            (table : list health_postprocess.route_row)
            (old : list health_postprocess.point_row)
            (points : list health_postprocess.point) (d : pyfloat),
        health_postprocess.is_gpx name = true ->
        health_postprocess.workout_routes c = Some table ->
        health_postprocess.workout_route_points c = Some old ->
        In (health_postprocess.path_join dir name)
           (List.map health_postprocess.route_file_path table) ->
        health_postprocess.parse_points file = Ok points ->
        points <> [] ->
        health_postprocess.route_distance points = Ok d ->
        exists (c' : health_postprocess.conn) (n : nat),
          health_postprocess.import_workout_routes c dir
            (Some [(name, file)]) false
          = Ok (c', n)
          /\ health_postprocess.workout_routes c' = Some table)
    /\ (forall (c : health_postprocess.conn) (dir name : pystr)
               (file : health_postprocess.csv_file)
               (table : list health_postprocess.ecg_row)
               (old : list health_postprocess.sample_row)
               (metadata : dict pystr) (samples : list pyfloat)
               (rate : option pyfloat),
           health_postprocess.is_csv name = true ->
           health_postprocess.ecg_records c = Some table ->
           health_postprocess.ecg_samples c = Some old ->
           In (health_postprocess.path_join dir name)
              (List.map health_postprocess.ecg_file_path table) ->
           health_postprocess.parse_ecg_csv file = Ok (metadata, samples) ->
           samples <> [] ->
           health_postprocess._parse_sample_rate
             (dict_get metadata (str "Sample Rate")) = Ok rate ->
           exists (c' : health_postprocess.conn) (n : nat),
             health_postprocess.import_ecg c dir (Some [(name, file)])
               false
             = Ok (c', n)
             /\ health_postprocess.ecg_records c' = Some table).
Proof.
  intro rt. split.
  - intros c dir name file table old points d Ha Ht Ho Hin Hp Hne Hd.
    rewrite Importer.import_workout_routes_generic.
    destruct points as [|first rest]; [congruence|].
    erewrite (ImporterFacts.import_present_path _ _ _ _ _ _ _ _
                Imports.make_route_row (Importer.route_store c) dir name
                file table old);
      [| exact Ha | exact Ht | exact Ho | exact Hin
       | unfold Importer.make_route; rewrite Hp; cbn [bind];
         rewrite Hd; reflexivity ].
    cbn [Importer.map_result fst snd Importer.with_route_store
         Importer.parents Importer.kids].
    eexists _, _. split; reflexivity.
  - intros c dir name file table old metadata samples rate
      Ha Ht Ho Hin Hp Hne Hr.
    rewrite Importer.import_ecg_generic.
    destruct samples as [|x rest]; [congruence|].
    erewrite (ImporterFacts.import_present_path _ _ _ _ _ _ _ _
                Imports.make_ecg_row (Importer.ecg_store c) dir name
                file table old);
      [| exact Ha | exact Ht | exact Ho | exact Hin
       | unfold Importer.make_ecg; rewrite Hp; cbn [bind fst snd];
         rewrite Hr; reflexivity ].
    cbn [Importer.map_result fst snd Importer.with_ecg_store
         Importer.parents Importer.kids].
    eexists _, _. split; reflexivity.
Qed.

Lemma reingest_keeps_first_row_witness :
  exists (c' : health_postprocess.conn) (n : nat),
    health_postprocess.import_ecg (rt := ascii_runtime)
      store_after_one_run (str "ecg")
      (Some [(str "e.csv", Some [[str "5"]])]) false
    = Ok (c', n)
    /\ health_postprocess.ecg_records c' = Some [one_sample_ecg 1].
Proof.
  apply (proj2 (reingest_keeps_first_row ascii_runtime)
           store_after_one_run (str "ecg") (str "e.csv")
           (Some [[str "5"]]) [one_sample_ecg 1] [one_sample_row 1]
           [] [Finite 5%R] None);
    try reflexivity.
  - left. reflexivity.
  - discriminate.
Defined.

(** C6 as stated fails: [a.gpx] is in the route table under id 1; after
    a run without skip-existing over the file the route table still
    holds the one row of id 1, and no row of a new id beside it. *)
Lemma reingest_adds_no_route_row :
  health_postprocess.import_workout_routes (rt := ascii_runtime)
    store_after_one_run (str "routes")
    (Some [(str "a.gpx", one_point_gpx)]) false
  = Ok ({| health_postprocess.workout_routes := Some [one_point_route 1];
           health_postprocess.workout_route_points :=
             Some [one_point_row 1; one_point_row 2];
           health_postprocess.ecg_records := Some [one_sample_ecg 1];
           health_postprocess.ecg_samples := Some [one_sample_row 1] |},
        1).
Proof. reflexivity. Qed.

(** C10. The importers look at the entries whose lowercased name ends in
    [.gpx], respectively [.csv], and at no other: a run over a listing
    is the run over its entries of that kind, for the store and for the
    counts, whatever the other files hold. *)
Theorem importers_skip_other_files :
  forall rt : PyRuntime,
    (forall (c : health_postprocess.conn) (dir : pystr)
            (files : list (pystr * health_postprocess.gpx_file))
            (skip : bool),
        health_postprocess.import_workout_routes c dir (Some files) skip
        = health_postprocess.import_workout_routes c dir
            (Some (filter (fun e => health_postprocess.is_gpx (fst e))
                     files)) skip)
    /\ (forall (c : health_postprocess.conn) (dir : pystr)
               (files : list (pystr * health_postprocess.csv_file))
               (skip : bool),
           health_postprocess.import_ecg c dir (Some files) skip
           = health_postprocess.import_ecg c dir
               (Some (filter (fun e => health_postprocess.is_csv (fst e))
                        files)) skip)
    /\ (forall (c : health_postprocess.conn) (routes_dir ecg_dir : pystr)
               (routes : list (pystr * health_postprocess.gpx_file))
               (ecgs : list (pystr * health_postprocess.csv_file))
               (skip no_routes no_ecg : bool),
           health_postprocess.main c routes_dir (Some routes)
             ecg_dir (Some ecgs) skip no_routes no_ecg
           = health_postprocess.main c routes_dir
               (Some (filter (fun e => health_postprocess.is_gpx (fst e))
                        routes))
               ecg_dir
               (Some (filter (fun e => health_postprocess.is_csv (fst e))
                        ecgs))
               skip no_routes no_ecg).
Proof.
  intro rt.
  assert (Hr : forall c dir files skip,
             health_postprocess.import_workout_routes c dir (Some files)
               skip
             = health_postprocess.import_workout_routes c dir
                 (Some (filter (fun e => health_postprocess.is_gpx (fst e))
                          files)) skip).
  { intros. rewrite !Importer.import_workout_routes_generic. f_equal.
    apply ImporterFacts.import_filter. }
  assert (He : forall c dir files skip,
             health_postprocess.import_ecg c dir (Some files) skip
             = health_postprocess.import_ecg c dir
                 (Some (filter (fun e => health_postprocess.is_csv (fst e))
                          files)) skip).
  { intros. rewrite !Importer.import_ecg_generic. f_equal.
    apply ImporterFacts.import_filter. }
  split; [exact Hr|]. split; [exact He|].
  intros. unfold health_postprocess.main.
  rewrite <- Hr.
  destruct (if no_routes then _ else _) as [r|]; [|reflexivity].
  cbn [bind]. now rewrite <- He.
Qed.

(** C2, as the code has it. Primary ingestion numbers the rows of each
    entity table 1, 2, 3, ... in element order in every run: on a fresh
    store each table ends with the ids 1 .. N. The post-process
    importers continue from the highest stored id (from 1 when the table
    is empty or absent): with skip-existing, the rows a run adds to the
    route or ECG table carry the next ids, one per counted file. *)
Theorem ids_are_dense :
  forall rt : PyRuntime,
    (forall (events : list health_to_sqlite.event) (batch_size : Z)
            (with_metadata : bool),
        exists c',
          health_to_sqlite.main Ingest.fresh
            (health_to_sqlite.Parsed events) batch_size with_metadata
          = Ok (c', 0%Z)
          /\ forall t,
               health_to_sqlite.has_primary_key t = true ->
               List.map health_to_sqlite.row_id
                 (health_to_sqlite.rows_of c' t)
               = List.map Some
                   (Ids.ids_from 1 (Ingest.count_rows t events)))
    /\ (health_postprocess._next_id None = 1%Z
        /\ health_postprocess._next_id (Some []) = 1%Z
        /\ forall ids m,
             health_postprocess.max_id ids = Some m ->
             health_postprocess._next_id (Some ids) = (m + 1)%Z
             /\ forall z, In z ids -> (z <= m)%Z)
    /\ (forall (c c' : health_postprocess.conn) (dir : pystr)
               (files : list (pystr * health_postprocess.gpx_file))
               (n : nat),
           NoDup (List.map
                    (fun e => health_postprocess.path_join dir (fst e))
                    files) ->
           health_postprocess.import_workout_routes c dir (Some files)
             true = Ok (c', n) ->
           exists new,
             health_postprocess.workout_routes c'
             = option_map (fun l => l ++ new)
                 (health_postprocess.workout_routes c)
             /\ List.map health_postprocess.route_id_of new
                = Ids.ids_from
                    (health_postprocess._next_id
                       (health_postprocess.route_ids c)) n)
    /\ (forall (c c' : health_postprocess.conn) (dir : pystr)
               (files : list (pystr * health_postprocess.csv_file))
               (n : nat),
           NoDup (List.map
                    (fun e => health_postprocess.path_join dir (fst e))
                    files) ->
           health_postprocess.import_ecg c dir (Some files) true
           = Ok (c', n) ->
           exists new,
             health_postprocess.ecg_records c'
             = option_map (fun l => l ++ new)
                 (health_postprocess.ecg_records c)
             /\ List.map health_postprocess.ecg_id_of new
                = Ids.ids_from
                    (health_postprocess._next_id
                       (health_postprocess.ecg_ids c)) n).
Proof.
  intro rt. split; [|split; [|split]].
  - intros events batch_size with_metadata.
    unfold health_to_sqlite.main.
    destruct (IngestRun.run_numbered batch_size with_metadata events
                _ _ IngestRun.initial_numbered) as [st [-> Hst]].
    cbn [bind].
    destruct (IngestRun.flush_numbered _ _ Hst) as [c' [-> [_ Hrows]]].
    cbn [bind fst]. exists c'. split; [reflexivity|].
    intros t Ht. destruct (Hst t Ht) as [_ Hm].
    now rewrite Hrows, Hm.
  - split; [reflexivity|]. split; [reflexivity|].
    intros ids m Hm. split.
    + unfold health_postprocess._next_id. now rewrite Hm.
    + intros z Hz. exact (ImporterFacts.max_id_bound ids m z Hm Hz).
  - intros c c' dir files n Hnd H.
    rewrite Importer.import_workout_routes_generic in H.
    apply Imports.map_result_ok in H as [[s1 k] [H Hc]].
    injection Hc as -> ->.
    exact (ImporterFacts.import_ids _ _ _ _ _ _ _ _
             Imports.make_route_row _ _ _ _ _ Hnd H).
  - intros c c' dir files n Hnd H.
    rewrite Importer.import_ecg_generic in H.
    apply Imports.map_result_ok in H as [[s1 k] [H Hc]].
    injection Hc as -> ->.
    exact (ImporterFacts.import_ids _ _ _ _ _ _ _ _
             Imports.make_ecg_row _ _ _ _ _ Hnd H).
Qed.

Lemma ids_are_dense_witness :
  exists new,
    Some ([one_point_route 7] ++ [one_point_route_at "routes/b.gpx" 8])
    = option_map (fun l => l ++ new) (Some [one_point_route 7])
    /\ List.map health_postprocess.route_id_of new = Ids.ids_from 8 1.
Proof.
  apply (proj1 (proj2 (proj2 (ids_are_dense ascii_runtime)))
           {| health_postprocess.workout_routes :=
                Some [one_point_route 7];
              health_postprocess.workout_route_points :=
                Some [one_point_row 7];
              health_postprocess.ecg_records := Some [];
              health_postprocess.ecg_samples := Some [] |}
           {| health_postprocess.workout_routes :=
                Some ([one_point_route 7]
                      ++ [one_point_route_at "routes/b.gpx" 8]);
              health_postprocess.workout_route_points :=
                Some [one_point_row 7; one_point_row 8];
              health_postprocess.ecg_records := Some [];
              health_postprocess.ecg_samples := Some [] |}
           (str "routes/")
           [(str "b.gpx", one_point_gpx); (str "a.gpx", one_point_gpx)] 1).
  - repeat constructor; cbn; intuition discriminate.
  - reflexivity.
Defined.

(** C2 as stated fails: the record table holds a row of id 1 from an
    earlier run; the next run numbers its first [Record] 1 again, not
    2, and stops on the key. *)
Lemma ingest_restarts_at_one :
  health_to_sqlite.main (rt := ascii_runtime)
    {| health_to_sqlite.rows_of :=
         health_to_sqlite.update (fun _ => []) health_to_sqlite.records
           [health_to_sqlite.row_of (rt := ascii_runtime)
              health_to_sqlite.records 1 []];
       health_to_sqlite.commits := 1 |}
    (health_to_sqlite.Parsed
       [(health_to_sqlite.Start, Element (str "Record") [] None []);
        (health_to_sqlite.End, Element (str "Record") [] None [])])
    10000 false
  = Raise IntegrityError.
Proof. reflexivity. Qed.

(** * Further properties of the code *)

(** ** [haversine_km] *)

Module Haversine.
Import health_postprocess RouteDistance.
Local Open Scope R_scope.






End Haversine.


(** ** [_strip_ns] *)

Module StripNs.
Import health_postprocess.

Lemma split1_nonempty (sep : codepoint) (s : pystr) : split1 sep s <> [].
Proof.
  destruct s as [|c r]; cbn; [discriminate|].
  destruct (c =? sep)%N; [discriminate|].
  destruct (split1 sep r); discriminate.
Qed.

Lemma split1_whole (sep : codepoint) (s : pystr) :
  ~ In sep s -> split1 sep s = [s].
Proof.
  induction s as [|c r IH]; intro H; [reflexivity|]. cbn.
  destruct (N.eqb_spec c sep) as [->|_]; [exfalso; apply H; now left|].
  rewrite IH; [reflexivity|]. intro; apply H; now right.
Qed.

(** [(a + sep + b).split(sep) == a.split(sep) + b.split(sep)] *)
Lemma split1_app (sep : codepoint) (a b : pystr) :
  split1 sep (a ++ sep :: b) = split1 sep a ++ split1 sep b.
Proof.
  induction a as [|c a IH]; cbn [app split1].
  - now rewrite N.eqb_refl.
  - destruct (c =? sep)%N; rewrite IH; [reflexivity|].
    pose proof (split1_nonempty sep a).
    destruct (split1 sep a); [contradiction|reflexivity].
Qed.

Lemma last_app_nonempty {A} (l1 l2 : list A) (d : A) :
  l2 <> [] -> List.last (l1 ++ l2) d = List.last l2 d.
Proof.
  intro H. induction l1 as [|x l1 IH]; [reflexivity|].
  cbn [app]. rewrite <- IH.
  destruct (l1 ++ l2) eqn:E; [|reflexivity].
  apply app_eq_nil in E as [_ E]. contradiction.
Qed.

Lemma last_in {A} (l : list A) (d : A) : l <> [] -> In (List.last l d) l.
Proof.
  induction l as [|x l IH]; [easy|]. intros _.
  destruct l as [|y l]; [now left|]. right. apply IH. discriminate.
Qed.

Lemma split1_parts (sep : codepoint) (s part : pystr) :
  In part (split1 sep s) -> ~ In sep part.
Proof.
  revert part; induction s as [|c r IH]; intros part H; cbn in H.
  - destruct H as [<-|[]]. easy.
  - destruct (N.eqb_spec c sep) as [->|Hne].
    + destruct H as [<-|H]; [easy|now apply IH].
    + pose proof (split1_nonempty sep r).
      destruct (split1 sep r) as [|h t] eqn:E; [contradiction|].
      destruct H as [<-|H].
      * intros [->|Hin]; [congruence|].
        apply (IH h); [now left|exact Hin].
      * apply IH. now right.
Qed.

End StripNs.

(** X2. [_strip_ns] returns what follows the last ["}"] of a tag: the
    local name of a namespaced tag, and the tag itself when it has no
    ["}"]. The result holds no ["}"], so stripping twice is stripping
    once. *)
Theorem strip_ns_gives_local_name :
  (forall prefix local : pystr,
      ~ In 125%N local ->
      health_postprocess._strip_ns (prefix ++ 125%N :: local) = local)
  /\ (forall tg : pystr,
         ~ In 125%N tg -> health_postprocess._strip_ns tg = tg)
  /\ (forall tg : pystr,
         ~ In 125%N (health_postprocess._strip_ns tg)
         /\ health_postprocess._strip_ns (health_postprocess._strip_ns tg)
            = health_postprocess._strip_ns tg).
Proof.
  assert (Hwhole : forall tg, ~ In 125%N tg ->
                     health_postprocess._strip_ns tg = tg).
  { intros tg H. unfold health_postprocess._strip_ns.
    now rewrite StripNs.split1_whole. }
  assert (Hno : forall tg, ~ In 125%N (health_postprocess._strip_ns tg)).
  { intro tg. unfold health_postprocess._strip_ns.
    apply (StripNs.split1_parts 125%N tg).
    apply StripNs.last_in, StripNs.split1_nonempty. }
  split; [|split].
  - intros prefix local H. unfold health_postprocess._strip_ns.
    rewrite StripNs.split1_app, StripNs.last_app_nonempty
      by apply StripNs.split1_nonempty.
    now rewrite StripNs.split1_whole.
  - exact Hwhole.
  - intro tg. split; [apply Hno|]. apply Hwhole, Hno.
Qed.

Lemma strip_ns_gives_local_name_witness :
  health_postprocess._strip_ns
    (str "{http://www.topografix.com/GPX/1/1" ++ 125%N :: str "trkpt")
  = str "trkpt".
Proof.
  apply (proj1 strip_ns_gives_local_name).
  cbn. intuition discriminate.
Defined.

(** ** Track points *)

Module TrackPoints.
Import health_postprocess.

(** Induction on an element with the hypothesis for its children. *)
Fixpoint element_rect' (P : element -> Prop)
  (step : forall t a x cs, Forall P cs -> P (Element t a x cs))
  (e : element) : P e :=
  match e with
  | Element t a x cs =>
      step t a x cs
        ((fix all (l : list element) : Forall P l :=
            match l with
            | [] => Forall_nil P
            | c :: r => Forall_cons c (element_rect' P step c) (all r)
            end) cs)
  end.

(** The children have been cleared: no text is left on them. *)
Definition children_cleared (e : element) : Prop :=
  Forall (fun c => text c = None) (children e).

Lemma end_events_cleared (root : element) :
  Forall children_cleared (end_events root).
Proof.
  induction root as [t a x cs IH] using element_rect'.
  cbn [end_events]. apply Forall_app. split.
  - induction IH as [|c cs Hc _ IHcs]; cbn [flat_map]; [constructor|].
    apply Forall_app. now split.
  - constructor; [|constructor]. unfold children_cleared.
    cbn [children]. apply Forall_forall. intros c Hc.
    apply in_map_iff in Hc as [c' [<- _]]. reflexivity.
Qed.

Section WithRuntime.
Context {rt : PyRuntime}.

Lemma point_of_cleared (elem : element) :
  children_cleared elem ->
  point_of elem
  = (_to_float (dict_get (attrib elem) (str "lat")),
     _to_float (dict_get (attrib elem) (str "lon")), None, None).
Proof.
  unfold children_cleared, point_of. intro H.
  assert (Hfold : forall cs : list element,
             Forall (fun c => text c = None) cs ->
             fold_left
               (fun (et : option pyfloat * option pystr) child =>
                  if PyStr.eqb (_strip_ns (tag child)) (str "ele")
                  then (_to_float (text child), snd et)
                  else if PyStr.eqb (_strip_ns (tag child)) (str "time")
                  then (fst et, text child)
                  else et) cs (None, None) = (None, None)).
  { induction 1 as [|c cs Hc _ IH]; [reflexivity|].
    cbn [fold_left]. rewrite Hc. cbn [_to_float fst snd].
    destruct (PyStr.eqb _ (str "ele")); [exact IH|].
    destruct (PyStr.eqb _ (str "time")); exact IH. }
  now rewrite (Hfold _ H).
Qed.

End WithRuntime.

End TrackPoints.

(** X3. The points of a track file are its [trkpt] elements, whatever
    their namespace and depth, in the order of their closing tags, each
    with the latitude and longitude its attributes give. No point ever
    carries an elevation or a time: the loop has cleared the [ele] and
    [time] children of a [trkpt] before it reads them. *)
Theorem parsed_points_are_the_trkpt_elements :
  forall (rt : PyRuntime) (root : element),
    health_postprocess.parse_points (Some root)
    = Ok (List.map
            (fun elem =>
               (health_postprocess._to_float
                  (dict_get (attrib elem) (str "lat")),
                health_postprocess._to_float
                  (dict_get (attrib elem) (str "lon")),
                None, None))
            (filter
               (fun elem =>
                  PyStr.eqb (health_postprocess._strip_ns (tag elem))
                    (str "trkpt"))
               (health_postprocess.end_events root))).
Proof.
  intros rt root. unfold health_postprocess.parse_points. f_equal.
  pose proof (TrackPoints.end_events_cleared root) as H.
  induction H as [|e es He _ IH]; [reflexivity|].
  cbn [flat_map filter].
  destruct (PyStr.eqb _ (str "trkpt")); [|exact IH].
  cbn [app List.map]. now rewrite IH, TrackPoints.point_of_cleared.
Qed.

Module Walk.
Import health_postprocess RouteDistance.




End Walk.


(** ** ECG files *)

Module EcgFacts.
Import health_postprocess.

Lemma take_drop_while (f : codepoint -> bool) (s : pystr) :
  s = take_while f s ++ drop_while f s
  /\ forallb f (take_while f s) = true
  /\ match drop_while f s with
     | c :: _ => f c = false
     | [] => True
     end.
Proof.
  induction s as [|c r [IH1 [IH2 IH3]]]; [now repeat split|].
  cbn [take_while drop_while]. destruct (f c) eqn:E.
  - cbn [app forallb]. rewrite E, <- IH1. now repeat split.
  - now repeat split.
Qed.

Lemma take_drop_while_app (f : codepoint -> bool) (a b : pystr) :
  forallb f a = true ->
  match b with c :: _ => f c = false | [] => True end ->
  take_while f (a ++ b) = a /\ drop_while f (a ++ b) = b.
Proof.
  intros Ha Hb. induction a as [|c a IH]; cbn [app].
  - destruct b as [|c b]; [now split|]. cbn. now rewrite Hb.
  - cbn [forallb] in Ha. apply andb_prop in Ha as [Hc Ha].
    cbn [take_while drop_while]. rewrite Hc.
    destruct (IH Ha) as [-> ->]. now split.
Qed.

Lemma dict_get_set_same {V} (d : dict V) (k : pystr) (v : V) :
  dict_get (dict_set d k v) k = Some v.
Proof.
  induction d as [|[k' v'] d IH]; cbn.
  - now rewrite eqb_refl.
  - destruct (PyStr.eqb k' k) eqn:E; cbn; rewrite E; [reflexivity|exact IH].
Qed.

Lemma dict_get_set_other {V} (d : dict V) (k k' : pystr) (v : V) :
  k' <> k -> dict_get (dict_set d k v) k' = dict_get d k'.
Proof.
  intro Hne. induction d as [|[k0 v0] d IH]; cbn.
  - destruct (PyStr.eqb k k') eqn:E; [|reflexivity].
    apply eqb_eq in E. congruence.
  - destruct (PyStr.eqb k0 k) eqn:E; cbn.
    + apply eqb_eq in E; subst k0.
      destruct (PyStr.eqb k k') eqn:E'; [|reflexivity].
      apply eqb_eq in E'. congruence.
    + destruct (PyStr.eqb k0 k'); [reflexivity|exact IH].
Qed.

Section WithRuntime.
Context {rt : PyRuntime}.

(** The rows of a file, one part after the other. *)
Lemma ecg_rows_app (a b : list (list pystr)) :
  forall acc,
    ecg_rows (a ++ b) acc = (acc' <- ecg_rows a acc ;; ecg_rows b acc').
Proof.
  induction a as [|row a IH]; intro acc; [reflexivity|].
  cbn [app ecg_rows]. destruct (ecg_row_step row acc); cbn [bind];
    [apply IH|reflexivity].
Qed.

(** A row of at most one field leaves the metadata and does the same
    to the samples whatever the metadata. *)
Lemma step_short (row : list pystr) (md md' : dict pystr)
  (xs xs' : list pyfloat) :
  List.length row <= 1 ->
  ecg_row_step row (md, xs) = Ok (md', xs') ->
  md' = md /\ forall md0, ecg_row_step row (md0, xs) = Ok (md0, xs').
Proof.
  unfold ecg_row_step. destruct row as [|f0 [|f1 more]]; cbn [fst snd];
    cbn [List.length]; intro Hlen; [| |lia].
  - intro H. injection H as <- <-. now split.
  - destruct (strip f0) as [|c v].
    + intro H. injection H as <- <-. now split.
    + destruct (number_re_match (c :: v)).
      * destruct (py_float (c :: v)) as [x|]; [|discriminate].
        intro H. injection H as <- <-. now split.
      * intro H. injection H as <- <-. now split.
Qed.

(** A row of two or more fields leaves the samples and does the same to
    the metadata whatever the samples. *)
Lemma step_long (row : list pystr) (md md' : dict pystr)
  (xs xs' : list pyfloat) :
  2 <= List.length row ->
  ecg_row_step row (md, xs) = Ok (md', xs') ->
  xs' = xs /\ forall xs0, ecg_row_step row (md, xs0) = Ok (md', xs0).
Proof.
  unfold ecg_row_step. destruct row as [|f0 [|f1 more]]; cbn [fst snd];
    cbn [List.length]; intro Hlen; [lia|lia|].
  intro H. injection H as <- <-. now split.
Qed.

Definition is_long (row : list pystr) : bool := 2 <=? List.length row.

Lemma ecg_rows_split (rows : list (list pystr)) :
  forall md0 xs0 md xs,
    ecg_rows rows (md0, xs0) = Ok (md, xs) ->
    forall mdA xsB,
      ecg_rows (filter (fun row => negb (is_long row)) rows) (mdA, xs0)
      = Ok (mdA, xs)
      /\ ecg_rows (filter is_long rows) (md0, xsB) = Ok (md, xsB).
Proof.
  induction rows as [|row rows IH]; intros md0 xs0 md xs H mdA xsB.
  - cbn in H. injection H as <- <-. now split.
  - cbn [ecg_rows] in H.
    destruct (ecg_row_step row (md0, xs0)) as [[md1 xs1]|] eqn:Es;
      [|discriminate].
    cbn [bind] in H. cbn [filter]. cbv beta.
    destruct (is_long row) eqn:El; cbn [negb ecg_rows].
    + assert (Hl : 2 <= List.length row) by (now apply Nat.leb_le).
      destruct (step_long _ _ _ _ _ Hl Es) as [-> Hany].
      rewrite (Hany xsB). cbn [bind].
      exact (IH _ _ _ _ H mdA xsB).
    + assert (Hs : List.length row <= 1).
      { unfold is_long in El. apply Nat.leb_gt in El. lia. }
      destruct (step_short _ _ _ _ _ Hs Es) as [-> Hany].
      rewrite (Hany mdA). cbn [bind].
      exact (IH _ _ _ _ H mdA xsB).
Qed.

Lemma ecg_rows_later_keys (rows : list (list pystr)) (k : pystr) :
  (forall row, In row rows ->
     match row with
     | g0 :: _ :: _ => strip g0 <> k
     | _ => True
     end) ->
  forall md0 xs0 md xs,
    ecg_rows rows (md0, xs0) = Ok (md, xs) ->
    dict_get md k = dict_get md0 k.
Proof.
  induction rows as [|row rows IH]; intros Hk md0 xs0 md xs H.
  - cbn in H. now injection H as <- _.
  - cbn [ecg_rows] in H.
    destruct (ecg_row_step row (md0, xs0)) as [[md1 xs1]|] eqn:Es;
      [|discriminate].
    cbn [bind] in H.
    rewrite (IH (fun r Hr => Hk r (or_intror Hr)) _ _ _ _ H).
    pose proof (Hk row (or_introl eq_refl)) as Hrow.
    destruct row as [|f0 [|f1 more]].
    + cbn in Es. now injection Es as <- _.
    + destruct (step_short [f0] _ _ _ _ (le_n 1) Es) as [-> _].
      reflexivity.
    + cbn in Es. injection Es as <- _.
      apply dict_get_set_other. congruence.
Qed.

End WithRuntime.

End EcgFacts.

(** X5. A file is read row by row with no memory of position: the rows
    of a file read as those of its first part, then those of the rest;
    the samples are those of the rows of at most one field alone, in
    their order, and the metadata is that of the longer rows alone,
    wherever header and sample rows stand. *)
Theorem ecg_rows_are_read_by_shape :
  forall (rt : PyRuntime),
    (forall (a b : list (list pystr)) (acc : dict pystr * list pyfloat),
        health_postprocess.ecg_rows (a ++ b) acc
        = (acc' <- health_postprocess.ecg_rows a acc ;;
           health_postprocess.ecg_rows b acc'))
    /\ (forall (rows : list (list pystr)) (metadata : dict pystr)
               (samples : list pyfloat),
           health_postprocess.parse_ecg_csv (Some rows)
           = Ok (metadata, samples) ->
           health_postprocess.parse_ecg_csv
             (Some (filter (fun row => List.length row <=? 1) rows))
           = Ok ([], samples)
           /\ health_postprocess.parse_ecg_csv
                (Some (filter (fun row => 2 <=? List.length row) rows))
              = Ok (metadata, [])).
Proof.
  intro rt. split; [apply EcgFacts.ecg_rows_app|].
  intros rows metadata samples H.
  unfold health_postprocess.parse_ecg_csv in *.
  destruct (EcgFacts.ecg_rows_split rows _ _ _ _ H [] []) as [H1 H2].
  split; [|exact H2].
  rewrite (filter_ext (fun row => List.length row <=? 1)
             (fun row => negb (EcgFacts.is_long row))); [exact H1|].
  intro row. unfold EcgFacts.is_long.
  destruct (Nat.leb_spec 2 (List.length row)),
    (Nat.leb_spec (List.length row) 1); cbn; try reflexivity; lia.
Qed.

Lemma ecg_rows_are_read_by_shape_witness :
  health_postprocess.parse_ecg_csv (rt := ascii_runtime)
    (Some (filter (fun row => List.length row <=? 1)
             [[str "Lead"; str "I"]; [str "12"]; [];
              [str "Unit"; str "uV"]; [str "13"]]))
  = Ok ([], [Finite 12%R; Finite 13%R])
  /\ health_postprocess.parse_ecg_csv (rt := ascii_runtime)
       (Some (filter (fun row => 2 <=? List.length row)
                [[str "Lead"; str "I"]; [str "12"]; [];
                 [str "Unit"; str "uV"]; [str "13"]]))
     = Ok ([(str "Lead", str "I"); (str "Unit", str "uV")], []).
Proof.
  apply (proj2 (ecg_rows_are_read_by_shape ascii_runtime)). reflexivity.
Defined.

(** X6. The value kept for a metadata key is that of the last row of two
    or more fields with that key: a row sets its key to its second
    field, both stripped, and rows with other keys or with at most one
    field do not touch it. *)
Theorem ecg_metadata_last_row_wins :
  forall (rt : PyRuntime) (before after : list (list pystr))
         (field0 field1 : pystr) (more : list pystr)
         (metadata : dict pystr) (samples : list pyfloat),
    health_postprocess.parse_ecg_csv
      (Some (before ++ (field0 :: field1 :: more) :: after))
    = Ok (metadata, samples) ->
    (forall row, In row after ->
       match row with
       | g0 :: _ :: _ => strip g0 <> strip field0
       | _ => True
       end) ->
    dict_get metadata (strip field0) = Some (strip field1).
Proof.
  intros rt before after field0 field1 more metadata samples H Hafter.
  unfold health_postprocess.parse_ecg_csv in H.
  rewrite EcgFacts.ecg_rows_app in H.
  destruct (health_postprocess.ecg_rows before ([], [])) as [[md0 xs0]|];
    [|discriminate].
  cbn [bind health_postprocess.ecg_rows health_postprocess.ecg_row_step
       fst snd] in H.
  rewrite (EcgFacts.ecg_rows_later_keys after (strip field0) Hafter
             _ _ _ _ H).
  apply EcgFacts.dict_get_set_same.
Qed.

Lemma ecg_metadata_last_row_wins_witness :
  dict_get [(str "Lead", str "II")] (strip (str "Lead "))
  = Some (strip (str " II")).
Proof.
  apply (ecg_metadata_last_row_wins ascii_runtime
           [[str "Lead"; str "I"]] [[str "7"]]
           (str "Lead ") (str " II") [str "ignored"]
           [(str "Lead", str "II")] [Finite 7%R]).
  - reflexivity.
  - intros row [<-|[]]. exact I.
Defined.

(** ** The two number patterns *)

Module NumberRe.
Import health_postprocess EcgFacts.

(** A plain decimal: digits, then maybe a point and digits. *)
Definition plain_decimal (digit : codepoint -> bool) (m : pystr) : Prop :=
  exists whole frac,
    whole <> [] /\ forallb digit whole = true
    /\ (m = whole
        \/ (m = whole ++ 46%N :: frac
            /\ frac <> [] /\ forallb digit frac = true)).

Lemma forallb_head (f : codepoint -> bool) (s : pystr) :
  s <> [] -> forallb f s = true ->
  exists c r, s = c :: r /\ f c = true.
Proof.
  destruct s as [|c r]; [easy|]. intros _ H. cbn in H.
  apply andb_prop in H as [H _]. now exists c, r.
Qed.

Lemma length_zero_nil {A} (l : list A) :
  Nat.eqb (List.length l) 0 = false <-> l <> [].
Proof. destruct l; cbn; split; congruence. Qed.


(** An optional sign and a plain decimal. *)
Definition signed_decimal (digit : codepoint -> bool) (value : pystr)
  : Prop :=
  exists sign m,
    value = sign ++ m
    /\ (sign = [] \/ sign = [43%N] \/ sign = [45%N])
    /\ plain_decimal digit m.

Lemma number_re_match_shape (rt : PyRuntime) :
  is_decimal 43%N = false -> is_decimal 45%N = false ->
  is_decimal 46%N = false ->
  forall value : pystr,
    number_re_match value = true <-> signed_decimal is_decimal value.
Proof.
  intros H43 H45 H46 value.
  assert (Hmatch : forall m,
             (match take_while is_decimal m with
              | [] => false
              | _ :: _ =>
                  match drop_while is_decimal m with
                  | [] => true
                  | 46%N :: frac =>
                      negb (Nat.eqb (List.length frac) 0)
                      && forallb is_decimal frac
                  | _ => false
                  end
              end = true)
             <-> plain_decimal is_decimal m).
  { intro m. destruct (take_drop_while is_decimal m) as [Hs [Hw Hd]].
    split.
    - destruct (take_while is_decimal m) as [|w ws] eqn:Et;
        [discriminate|].
      destruct (drop_while is_decimal m) as [|c r] eqn:Ed.
      + intros _. exists (w :: ws), []. rewrite app_nil_r in Hs.
        split; [discriminate|]. split; [exact Hw|]. left. exact Hs.
      + destruct (N.eqb_spec c 46) as [->|Hc].
        * intro H. apply andb_prop in H as [Hn Hf].
          apply negb_true_iff, length_zero_nil in Hn.
          exists (w :: ws), r. split; [discriminate|].
          split; [exact Hw|]. right. split; [exact Hs|]. now split.
        * intro H. exfalso. destruct c as [|p]; [discriminate|].
          do 6 (destruct p as [p|p|]; try discriminate). congruence.
    - intros [whole [frac [Hne [Hall [->|[-> [Hfne Hfall]]]]]]].
      + destruct (take_drop_while_app is_decimal whole [] Hall I)
          as [E1 E2].
        rewrite app_nil_r in E1, E2. rewrite E1, E2.
        destruct whole; [contradiction|reflexivity].
      + destruct (take_drop_while_app is_decimal whole (46%N :: frac)
                    Hall H46) as [-> ->].
        destruct whole; [contradiction|].
        rewrite Hfall, andb_true_r. apply negb_true_iff.
        now apply length_zero_nil. }
  unfold number_re_match, signed_decimal. split.
  - intro H. destruct value as [|c r]; [discriminate|].
    destruct (N.eqb_spec c 43) as [->|N43].
    { exists [43%N], r. cbn [orb] in H. apply Hmatch in H. auto. }
    destruct (N.eqb_spec c 45) as [->|N45].
    { exists [45%N], r. cbn [orb] in H. apply Hmatch in H. auto. }
    cbn [orb] in H. exists [], (c :: r). apply Hmatch in H. auto.
  - intros [sign [m [-> [Hs Hm]]]].
    assert (Hhead : exists c r, m = c :: r /\ is_decimal c = true).
    { destruct Hm as [whole [frac [Hne [Hall Hshape]]]].
      destruct (forallb_head _ _ Hne Hall) as [c [r [-> Hc]]].
      destruct Hshape as [->|[-> _]]; now exists c; eexists. }
    apply Hmatch in Hm.
    destruct Hs as [->|[->| ->]]; cbn [app]; [|exact Hm|exact Hm].
    destruct Hhead as [c [r [-> Hc]]].
    destruct (N.eqb_spec c 43) as [->|_]; [congruence|].
    destruct (N.eqb_spec c 45) as [->|_]; [congruence|].
    exact Hm.
Qed.

End NumberRe.

(** C9, as the code has it. A row of one field that is, stripped, an
    optional sign, one or more digits and an optional fraction of a
    point and one or more digits, adds its number to the samples; a row
    of two or more fields sets the metadata entry of its first field to
    its second and ignores the rest; a row of one field of any other
    content changes nothing, whether [float] reads it or not. The digits
    of the runtime are neither signs nor the point. *)
Theorem ecg_row_classified_by_shape :
  forall rt : PyRuntime,
    is_decimal 43%N = false -> is_decimal 45%N = false ->
    is_decimal 46%N = false ->
    forall (metadata : dict pystr) (samples : list pyfloat),
      (forall (field : pystr) (x : pyfloat),
          NumberRe.signed_decimal is_decimal (strip field) ->
          py_float (strip field) = Some x ->
          health_postprocess.ecg_row_step [field] (metadata, samples)
          = Ok (metadata, samples ++ [x]))
      /\ (forall (field0 field1 : pystr) (more : list pystr),
             health_postprocess.ecg_row_step (field0 :: field1 :: more)
               (metadata, samples)
             = Ok (dict_set metadata (strip field0) (strip field1),
                   samples))
      /\ (forall field : pystr,
             ~ NumberRe.signed_decimal is_decimal (strip field) ->
             health_postprocess.ecg_row_step [field] (metadata, samples)
             = Ok (metadata, samples)).
Proof.
  intros rt H43 H45 H46 metadata samples. repeat split.
  - intros field x Hs Hf. unfold health_postprocess.ecg_row_step.
    apply (NumberRe.number_re_match_shape rt H43 H45 H46) in Hs.
    destruct (strip field) as [|c r]; [discriminate Hs|].
    now rewrite Hs, Hf.
  - intros field Hs. unfold health_postprocess.ecg_row_step.
    destruct (strip field) as [|c r]; [reflexivity|].
    destruct (health_postprocess.number_re_match (c :: r)) eqn:E;
      [|reflexivity].
    apply (NumberRe.number_re_match_shape rt H43 H45 H46) in E.
    contradiction.
Qed.

Lemma ecg_row_classified_witness :
  health_postprocess.ecg_row_step (rt := ascii_runtime)
    [str " -72 "] ([], [])
  = Ok ([], [] ++ [Finite (-72)]).
Proof.
  apply (proj1 (ecg_row_classified_by_shape ascii_runtime eq_refl eq_refl
                  eq_refl [] [])).
  - exists [45%N], (str "72"). split; [reflexivity|].
    split; [auto|]. exists (str "72"), [].
    split; [discriminate|]. split; [reflexivity|]. now left.
  - reflexivity.
Defined.

(** C9 as stated fails: [float] reads the field [12.] as the number 12,
    yet the row adds no sample, and no metadata either. *)
Lemma ecg_row_number_is_dropped :
  py_float (PyRuntime := ascii_runtime) (strip (str "12."))
  = Some (Finite 12)
  /\ health_postprocess.ecg_row_step (rt := ascii_runtime)
       [str "12."] ([], [])
     = Ok ([], []).
Proof.
  split; [|reflexivity].
  change (Some (Finite (IZR 12 / IZR 1)) = Some (Finite 12)).
  do 2 f_equal. lra.
Qed.

(** X7. [number_re] accepts exactly an optional sign, one or more
    digits and an optional fraction of a point and one or more digits,
    given that the digits of the runtime are neither signs nor the
    point. *)
Theorem number_re_accepts_plain_decimals :
  forall rt : PyRuntime,
    is_decimal 43%N = false -> is_decimal 45%N = false ->
    is_decimal 46%N = false ->
    forall value : pystr,
      health_postprocess.number_re_match value = true
      <-> exists sign m,
            value = sign ++ m
            /\ (sign = [] \/ sign = [43%N] \/ sign = [45%N])
            /\ NumberRe.plain_decimal is_decimal m.
Proof. exact NumberRe.number_re_match_shape. Qed.

Lemma number_re_accepts_plain_decimals_witness :
  health_postprocess.number_re_match (rt := ascii_runtime) (str "-12.5")
  = true
  <-> exists sign m,
        str "-12.5" = sign ++ m
        /\ (sign = [] \/ sign = [43%N] \/ sign = [45%N])
        /\ NumberRe.plain_decimal
             (is_decimal (PyRuntime := ascii_runtime)) m.
Proof.
  apply (number_re_accepts_plain_decimals ascii_runtime); reflexivity.
Defined.



(** ** Batches and metadata in primary ingestion *)

Module Batches.
Import health_to_sqlite Ids Ingest IngestRun.

Lemma append_at (b : buffers) (t t' : table) (rows : list row) :
  append b t rows t' = b t' ++ (if table_eqb t t' then rows else []).
Proof.
  unfold append, update. destruct (table_eqb_spec t t') as [->|_];
    [reflexivity|now rewrite app_nil_r].
Qed.

(** The rows of a table, stored or still buffered. *)
Definition content (st : state) (t : table) : list row :=
  rows_of (db st) t ++ rows_by_table st t.

(** Two states that differ in how much has been flushed only. *)
Definition alike (st sh : state) : Prop :=
  next_id st = next_id sh /\ in_record st = in_record sh
  /\ record_metadata_entries st = record_metadata_entries sh
  /\ forall t, content st t = content sh t.

Section WithRuntime.
Context {rt : PyRuntime}.

Lemma on_end_alike (with_metadata : bool) (elem : element)
  (st sh : state) :
  alike st sh ->
  alike (on_end with_metadata elem st) (on_end with_metadata elem sh).
Proof.
  intros [Hn [Hi [He Hc]]]. unfold alike, content, on_end in *.
  rewrite <- Hn, <- Hi, <- He.
  destruct (PyStr.eqb (tag elem) (str "MetadataEntry") && with_metadata
            && in_record st).
  { cbn [db next_id rows_by_table in_record record_metadata_entries].
    rewrite He. now repeat split. }
  destruct (table_of_tag (tag elem)) as [t'|]; [|now repeat split].
  destruct (table_eqb t' records);
    cbn [db next_id rows_by_table in_record record_metadata_entries];
    (split; [reflexivity|]); (split; [assumption || reflexivity|]);
    (split; [reflexivity|]); intro t;
    try destruct (with_metadata && negb _);
    rewrite ?append_at, ?app_assoc, Hc; reflexivity.
Qed.

(** An ["end"] event after its branch: the test of the threshold and
    the batch it may write move rows from the buffers to the store and
    change nothing else. *)
Lemma step_end_content (bs : Z) (with_metadata : bool) (elem : element)
  (st st' : state) :
  step bs with_metadata (End, elem) st = Ok st' ->
  let s1 := on_end with_metadata elem st in
  next_id st' = next_id s1 /\ in_record st' = in_record s1
  /\ record_metadata_entries st' = record_metadata_entries s1
  /\ forall t, content st' t = content s1 t.
Proof.
  intro E. cbn [step] in E. cbv zeta in *.
  set (s1 := on_end with_metadata elem st) in *.
  destruct (threshold_reached bs s1).
  - destruct (flush (db s1) (rows_by_table s1)) as [[c b]|] eqn:Ef;
      [|discriminate].
    cbn [bind fst snd] in E. injection E as <-.
    apply flush_ok in Ef as [-> [_ Hr]]. do 3 (split; [reflexivity|]).
    intro t. unfold content. cbn [db rows_by_table].
    rewrite Hr. unfold no_rows. now rewrite app_nil_r.
  - injection E as <-. now repeat split.
Qed.

Lemma step_alike (bs bs' : Z) (with_metadata : bool) (ev : event)
  (st sh st' sh' : state) :
  alike st sh ->
  step bs with_metadata ev st = Ok st' ->
  step bs' with_metadata ev sh = Ok sh' ->
  alike st' sh'.
Proof.
  intros Ha H H'. destruct ev as [[|] elem].
  - cbn [step] in H, H'. destruct Ha as [Hn [Hi [He Hc]]].
    destruct (PyStr.eqb (tag elem) (str "Record"));
      injection H as <-; injection H' as <-; now repeat split.
  - pose proof (on_end_alike with_metadata elem st sh Ha)
      as [Hn [Hi [He Hc]]].
    destruct (step_end_content _ _ _ _ _ H) as [A1 [A2 [A3 A4]]].
    destruct (step_end_content _ _ _ _ _ H') as [B1 [B2 [B3 B4]]].
    do 3 (split; [congruence|]). intro t. now rewrite A4, B4.
Qed.

Lemma run_alike (bs bs' : Z) (with_metadata : bool)
  (events : list event) :
  forall st sh st' sh',
    alike st sh ->
    run bs with_metadata events st = Ok st' ->
    run bs' with_metadata events sh = Ok sh' ->
    alike st' sh'.
Proof.
  induction events as [|ev rest IH]; intros st sh st' sh' Ha H H';
    cbn [run] in H, H'.
  - injection H as <-. injection H' as <-. exact Ha.
  - destruct (step bs with_metadata ev st) as [s1|] eqn:E1;
      [|discriminate].
    destruct (step bs' with_metadata ev sh) as [h1|] eqn:E2;
      [|discriminate].
    cbn [bind] in H, H'.
    exact (IH _ _ _ _ (step_alike _ _ _ _ _ _ _ _ Ha E1 E2) H H').
Qed.

Lemma main_content (c c' : conn) (events : list event) (bs code : Z)
  (with_metadata : bool) :
  main c (Parsed events) bs with_metadata = Ok (c', code) ->
  exists st,
    run bs with_metadata events (initial c) = Ok st
    /\ forall t, rows_of c' t = content st t.
Proof.
  unfold main. intro H.
  destruct (run bs with_metadata events (initial c)) as [st|];
    [|discriminate].
  cbn [bind] in H.
  destruct (flush (db st) (rows_by_table st)) as [[c1 b]|] eqn:Ef;
    [|discriminate].
  cbn [bind fst] in H. injection H as <- _.
  apply flush_ok in Ef as [_ [_ Hr]]. now exists st.
Qed.

Lemma main_returns (events : list event) (bs : Z) (with_metadata : bool) :
  exists c', main fresh (Parsed events) bs with_metadata = Ok (c', 0%Z).
Proof.
  unfold main.
  destruct (run_numbered bs with_metadata events _ _ initial_numbered)
    as [st [-> Hst]].
  cbn [bind]. destruct (flush_numbered _ _ Hst) as [c' [-> _]].
  cbn [bind fst]. now exists c'.
Qed.

(** What an ["end"] event leaves in the metadata table and in the list
    of captured entries when capture is off. *)
Lemma on_end_without_metadata (elem : element) (st : state) :
  rows_by_table (on_end false elem st) record_metadata
  = rows_by_table st record_metadata
  /\ record_metadata_entries (on_end false elem st)
     = record_metadata_entries st.
Proof.
  unfold on_end. rewrite andb_false_r. cbn [andb].
  destruct (table_of_tag (tag elem)) as [t'|] eqn:Et; [|now split].
  pose proof (table_of_tag_keyed _ _ Et) as Hk.
  assert (Hne : table_eqb t' record_metadata = false).
  { destruct t'; try reflexivity. discriminate Hk. }
  destruct (table_eqb t' records);
    cbn [rows_by_table record_metadata_entries];
    rewrite append_at, Hne, app_nil_r; now split.
Qed.

Lemma run_without_metadata (bs : Z) (events : list event) :
  forall st st',
    run bs false events st = Ok st' ->
    content st' record_metadata = content st record_metadata.
Proof.
  induction events as [|ev rest IH]; intros st st' H; cbn [run] in H.
  - now injection H as <-.
  - destruct (step bs false ev st) as [s1|] eqn:E; [|discriminate].
    cbn [bind] in H. rewrite (IH _ _ H). clear IH H.
    destruct ev as [[|] elem]; cbn [step] in E.
    + destruct (PyStr.eqb (tag elem) (str "Record"));
        now injection E as <-.
    + destruct (on_end_without_metadata elem st) as [Hb _].
      assert (Hdb : db (on_end false elem st) = db st)
        by apply on_end_effect.
      destruct (step_end_content _ _ _ _ _ E) as [_ [_ [_ Hc]]].
      rewrite Hc. unfold content. now rewrite Hb, Hdb.
Qed.

(** The rows of table [t] that a run writes when the counter of [t]
    stands at [last]: one per element of its tag, in document order. *)
Fixpoint rows_from (t : table) (last : Z) (events : list event)
  : list row :=
  match events with
  | [] => []
  | ev :: rest =>
      if writes_to t ev
      then row_of t (last + 1) (attrib (snd ev))
           :: rows_from t (last + 1) rest
      else rows_from t last rest
  end.

Lemma rows_from_numbered (t : table) (events : list event) :
  forall last,
    rows_from t last events
    = List.map (fun p => row_of t (fst p) (attrib (snd (snd p))))
        (combine (ids_from (last + 1) (count_rows t events))
           (filter (writes_to t) events)).
Proof.
  unfold count_rows.
  induction events as [|ev rest IH]; intro last; [reflexivity|].
  cbn [rows_from filter]. destruct (writes_to t ev).
  - cbn [List.length]. rewrite ids_from_cons. cbn [combine List.map fst snd].
    now rewrite IH.
  - apply IH.
Qed.

Lemma step_rows (bs : Z) (with_metadata : bool) (ev : event)
  (st st' : state) (t : table) :
  has_primary_key t = true ->
  step bs with_metadata ev st = Ok st' ->
  next_id st' t
  = (if writes_to t ev then next_id st t + 1 else next_id st t)%Z
  /\ content st' t = content st t ++ rows_from t (next_id st t) [ev].
Proof.
  intros Ht E. destruct ev as [[|] elem].
  - cbn [step] in E. cbn [rows_from writes_to]. rewrite app_nil_r.
    destruct (PyStr.eqb (tag elem) (str "Record"));
      injection E as <-; now split.
  - destruct (step_end_content _ _ _ _ _ E) as [Hn [_ [_ Hc]]].
    destruct (on_end_effect with_metadata elem st) as [Hdb Heff].
    specialize (Heff t Ht). rewrite Hn, Hc. unfold content.
    cbn [rows_from snd]. rewrite Hdb.
    destruct (writes_to t (End, elem)); destruct Heff as [-> ->];
      (split; [reflexivity|]);
      [now rewrite app_assoc|now rewrite app_nil_r].
Qed.

Lemma run_rows (bs : Z) (with_metadata : bool) (t : table)
  (events : list event) :
  has_primary_key t = true ->
  forall st st',
    run bs with_metadata events st = Ok st' ->
    content st' t = content st t ++ rows_from t (next_id st t) events.
Proof.
  intro Ht. induction events as [|ev rest IH]; intros st st' H;
    cbn [run] in H.
  - injection H as <-. cbn [rows_from]. now rewrite app_nil_r.
  - destruct (step bs with_metadata ev st) as [s1|] eqn:E;
      [|discriminate].
    cbn [bind] in H. rewrite (IH _ _ H).
    destruct (step_rows _ _ _ _ _ t Ht E) as [Hn ->].
    rewrite Hn, <- app_assoc. f_equal. cbn [rows_from].
    destruct (writes_to t ev); reflexivity.
Qed.

Lemma run_app (bs : Z) (with_metadata : bool) (l r : list event) :
  forall st,
    run bs with_metadata (l ++ r) st
    = (st' <- run bs with_metadata l st ;; run bs with_metadata r st').
Proof.
  induction l as [|ev l IH]; intro st; [reflexivity|].
  cbn [app run]. destruct (step bs with_metadata ev st); [|reflexivity].
  cbn [bind]. apply IH.
Qed.

Definition is_metadata_entry (e : element) : bool :=
  PyStr.eqb (tag e) (str "MetadataEntry").

Definition writes_no_row (e : element) : bool :=
  match table_of_tag (tag e) with Some _ => false | None => true end.

Definition entry_of (e : element) : option pystr * option pystr :=
  (dict_get (attrib e) (str "key"), dict_get (attrib e) (str "value")).

(** An event between the start and the end of a [Record]: the start of
    an element that is no [Record], or the end of one that writes no
    row. *)
Definition inside_record (ev : event) : bool :=
  match ev with
  | (Start, e) => negb (PyStr.eqb (tag e) (str "Record"))
  | (End, e) => writes_no_row e
  end.

(** The elements that end in a stretch of events. *)
Definition ended (events : list event) : list element :=
  flat_map (fun ev => match ev with
                      | (Start, _) => []
                      | (End, e) => [e]
                      end) events.

(** The events inside a [Record]: the [MetadataEntry] elements that end
    while it is open are captured in order, and nothing is written. *)
Lemma run_inside (bs : Z) (inner : list event) :
  forallb inside_record inner = true ->
  forall st st',
    in_record st = true ->
    run bs true inner st = Ok st' ->
    next_id st' = next_id st /\ in_record st' = true
    /\ record_metadata_entries st'
       = record_metadata_entries st
         ++ List.map entry_of (filter is_metadata_entry (ended inner))
    /\ forall t, content st' t = content st t.
Proof.
  induction inner as [|[[|] e] rest IH]; intros Hall st st' Hin H;
    cbn [run] in H.
  - injection H as <-. cbn [ended flat_map filter List.map].
    rewrite app_nil_r. now repeat split.
  - cbn [forallb inside_record] in Hall.
    apply andb_prop in Hall as [He Hrest].
    cbn [step] in H. apply negb_true_iff in He. rewrite He in H.
    cbn [bind] in H. exact (IH Hrest st st' Hin H).
  - cbn [forallb inside_record] in Hall.
    apply andb_prop in Hall as [He Hrest].
    destruct (step bs true (End, e) st) as [s1|] eqn:E; [|discriminate].
    cbn [bind] in H.
    destruct (step_end_content _ _ _ _ _ E) as [A1 [A2 [A3 A4]]].
    unfold content, on_end in A1, A2, A3, A4. unfold writes_no_row in He.
    change (ended ((End, e) :: rest)) with (e :: ended rest).
    cbn [filter]. unfold is_metadata_entry at 1.
    destruct (table_of_tag (tag e)); [discriminate|].
    rewrite Hin in A1, A2, A3, A4.
    destruct (PyStr.eqb (tag e) (str "MetadataEntry"));
      cbn [andb next_id in_record record_metadata_entries db
           rows_by_table] in A1, A2, A3, A4;
      rewrite ?Hin in A2;
      destruct (IH Hrest s1 st' A2 H) as [B1 [B2 [B3 B4]]];
      (split; [congruence|]); (split; [exact B2|]); split.
    + rewrite B3, A3, <- app_assoc. reflexivity.
    + intro t. rewrite B4. apply A4.
    + rewrite B3, A3. reflexivity.
    + intro t. rewrite B4. apply A4.
Qed.

(** The end of a [Record] whose entries have been captured. *)
Lemma on_end_record (elem : element) (st : state) :
  tag elem = str "Record" ->
  let id := (next_id st records + 1)%Z in
  rows_by_table (on_end true elem st) record_metadata
  = rows_by_table st record_metadata
    ++ List.map (fun kv => [Int id; text_cell (fst kv); text_cell (snd kv)])
         (record_metadata_entries st)
  /\ in_record (on_end true elem st) = false.
Proof.
  intros Ht id. unfold on_end. rewrite Ht.
  change (PyStr.eqb (str "Record") (str "MetadataEntry")) with false.
  change (table_of_tag (str "Record")) with (Some records).
  cbn [andb table_eqb rows_by_table in_record]. fold id.
  destruct (record_metadata_entries st) as [|kv kvs].
  - cbn [List.length Nat.eqb negb List.map]. rewrite append_at.
    cbn [table_eqb]. now rewrite !app_nil_r.
  - cbn [List.length Nat.eqb negb]. rewrite !append_at.
    cbn [table_eqb]. now rewrite app_nil_r.
Qed.

End WithRuntime.

End Batches.

(** X9. The batch size does not show in the result: on a fresh store the
    run returns for every batch size, and two runs over the same export
    with different batch sizes leave the same rows, in the same order,
    in every table. *)
Theorem batch_size_does_not_show :
  forall (rt : PyRuntime) (events : list health_to_sqlite.event)
         (batch_size batch_size' : Z) (with_metadata : bool),
  exists c c',
    health_to_sqlite.main Ingest.fresh (health_to_sqlite.Parsed events)
      batch_size with_metadata = Ok (c, 0%Z)
    /\ health_to_sqlite.main Ingest.fresh (health_to_sqlite.Parsed events)
         batch_size' with_metadata = Ok (c', 0%Z)
    /\ forall t,
         health_to_sqlite.rows_of c t = health_to_sqlite.rows_of c' t.
Proof.
  intros rt events bs bs' wm.
  destruct (Batches.main_returns events bs wm) as [c Hc].
  destruct (Batches.main_returns events bs' wm) as [c' Hc'].
  exists c, c'. split; [exact Hc|]. split; [exact Hc'|].
  destruct (Batches.main_content _ _ _ _ _ _ Hc) as [st [Hr Hrows]].
  destruct (Batches.main_content _ _ _ _ _ _ Hc') as [sh [Hr' Hrows']].
  assert (Ha : Batches.alike (health_to_sqlite.initial Ingest.fresh)
                 (health_to_sqlite.initial Ingest.fresh))
    by now repeat split.
  destruct (Batches.run_alike _ _ _ _ _ _ _ _ Ha Hr Hr')
    as [_ [_ [_ Hcontent]]].
  intro t. now rewrite Hrows, Hrows', Hcontent.
Qed.

(** X10. Without [--with-metadata] the table [record_metadata] is never
    written: a run that returns leaves it as it found it, whatever the
    export holds. *)
Theorem metadata_off_writes_no_metadata :
  forall (rt : PyRuntime) (c c' : health_to_sqlite.conn)
         (events : list health_to_sqlite.event) (batch_size code : Z),
    health_to_sqlite.main c (health_to_sqlite.Parsed events) batch_size
      false = Ok (c', code) ->
    health_to_sqlite.rows_of c' health_to_sqlite.record_metadata
    = health_to_sqlite.rows_of c health_to_sqlite.record_metadata.
Proof.
  intros rt c c' events bs code H.
  destruct (Batches.main_content _ _ _ _ _ _ H) as [st [Hr Hrows]].
  rewrite Hrows, (Batches.run_without_metadata _ _ _ _ Hr).
  unfold Batches.content. cbn. apply app_nil_r.
Qed.

Definition heart_rate_record : element :=
  Element (str "Record")
    [(str "type", str "HeartRate"); (str "value", str "61")] None [].

Definition motion_context_entry : element :=
  Element (str "MetadataEntry")
    [(str "key", str "HKMetadataKeyHeartRateMotionContext");
     (str "value", str "1")] None [].

(** A [Record] with one [MetadataEntry], then a [Workout]. *)
Definition small_export : list health_to_sqlite.event :=
  [(health_to_sqlite.Start, heart_rate_record);
   (health_to_sqlite.Start, motion_context_entry);
   (health_to_sqlite.End, motion_context_entry);
   (health_to_sqlite.End, heart_rate_record);
   workout_start; workout_end].

Definition after_small_export (batch_size : Z) (with_metadata : bool)
  : health_to_sqlite.conn :=
  match health_to_sqlite.main (rt := ascii_runtime) Ingest.fresh
          (health_to_sqlite.Parsed small_export) batch_size
          with_metadata with
  | Ok (c, _) => c
  | Raise _ => Ingest.fresh
  end.

Lemma metadata_off_writes_no_metadata_witness :
  health_to_sqlite.rows_of (after_small_export 1 false)
    health_to_sqlite.record_metadata
  = [].
Proof.
  apply (metadata_off_writes_no_metadata ascii_runtime Ingest.fresh
           (after_small_export 1 false) small_export 1 0).
  reflexivity.
Defined.

(** X11. A run that returns has added to each entity table one row per
    element of its tag, in document order: the k-th such element gives
    the row with id k, built from that element's attributes. *)
Theorem tables_hold_the_elements_in_order :
  forall (rt : PyRuntime) (c c' : health_to_sqlite.conn)
         (events : list health_to_sqlite.event) (batch_size code : Z)
         (with_metadata : bool) (t : health_to_sqlite.table),
    health_to_sqlite.has_primary_key t = true ->
    health_to_sqlite.main c (health_to_sqlite.Parsed events) batch_size
      with_metadata
    = Ok (c', code) ->
    health_to_sqlite.rows_of c' t
    = health_to_sqlite.rows_of c t
      ++ List.map
           (fun p => health_to_sqlite.row_of t (fst p)
                       (attrib (snd (snd p))))
           (combine (Ids.ids_from 1 (Ingest.count_rows t events))
              (filter (Ingest.writes_to t) events)).
Proof.
  intros rt c c' events bs code wm t Ht H.
  destruct (Batches.main_content _ _ _ _ _ _ H) as [st [Hr Hrows]].
  rewrite Hrows, (Batches.run_rows _ _ t _ Ht _ _ Hr).
  rewrite Batches.rows_from_numbered. unfold Batches.content. cbn.
  now rewrite app_nil_r.
Qed.

Lemma tables_hold_the_elements_in_order_witness :
  health_to_sqlite.rows_of (after_small_export 1 true)
    health_to_sqlite.records
  = [] ++ [health_to_sqlite.row_of (rt := ascii_runtime)
             health_to_sqlite.records 1 (attrib heart_rate_record)].
Proof.
  apply (tables_hold_the_elements_in_order ascii_runtime Ingest.fresh
           (after_small_export 1 true) small_export 1 0 true
           health_to_sqlite.records);
    reflexivity.
Defined.

(** X12. With [--with-metadata], the [MetadataEntry] elements that end
    between the start and the end of a [Record] are written to
    [record_metadata] in document order, each with the id that this
    [Record] gets. Between the two events lie the start and end events
    of the elements below the [Record]; those that write no row of
    their own are passed over. The rows are counted stored or still
    buffered. *)
Theorem record_metadata_carries_the_record_id :
  forall (rt : PyRuntime) (batch_size : Z) (rec : element)
         (inner : list health_to_sqlite.event)
         (st st' : health_to_sqlite.state),
    tag rec = str "Record" ->
    forallb Batches.inside_record inner = true ->
    health_to_sqlite.run batch_size true
      ((health_to_sqlite.Start, rec)
       :: inner ++ [(health_to_sqlite.End, rec)]) st = Ok st' ->
    let id := (health_to_sqlite.next_id st health_to_sqlite.records + 1)%Z in
    Batches.content st' health_to_sqlite.record_metadata
    = Batches.content st health_to_sqlite.record_metadata
      ++ List.map
           (fun e => [health_to_sqlite.Int id;
                      health_to_sqlite.text_cell
                        (dict_get (attrib e) (str "key"));
                      health_to_sqlite.text_cell
                        (dict_get (attrib e) (str "value"))])
           (filter Batches.is_metadata_entry (Batches.ended inner))
    /\ health_to_sqlite.next_id st' health_to_sqlite.records = id
    /\ health_to_sqlite.in_record st' = false.
Proof.
  intros rt bs rec inner st st' Htag Hall H id.
  cbn [health_to_sqlite.run health_to_sqlite.step] in H.
  rewrite Htag in H.
  change (PyStr.eqb (str "Record") (str "Record")) with true in H.
  cbn [bind] in H. rewrite Batches.run_app in H.
  match type of H with
  | (st' <- health_to_sqlite.run _ _ _ ?s0 ;; _) = _ =>
      set (s0' := s0) in H;
      destruct (health_to_sqlite.run bs true inner s0') as [s1|] eqn:E1;
      [|discriminate]
  end.
  cbn [bind health_to_sqlite.run] in H.
  destruct (health_to_sqlite.step bs true (health_to_sqlite.End, rec) s1)
    as [s2|] eqn:E2; [|discriminate].
  cbn [bind] in H. injection H as <-.
  destruct (Batches.run_inside bs inner Hall s0' s1 eq_refl E1)
    as [A1 [A2 [A3 A4]]].
  destruct (Batches.step_end_content _ _ _ _ _ E2) as [B1 [B2 [B3 B4]]].
  destruct (Batches.on_end_record rec s1 Htag) as [C1 C2].
  destruct (Ingest.on_end_effect true rec s1) as [Hdb Heff].
  specialize (Heff health_to_sqlite.records eq_refl).
  unfold Ingest.writes_to in Heff. rewrite Htag in Heff.
  change (health_to_sqlite.table_of_tag (str "Record"))
    with (Some health_to_sqlite.records) in Heff.
  cbn [health_to_sqlite.table_eqb] in Heff. destruct Heff as [Hn _].
  split; [|split].
  - rewrite B4. unfold Batches.content at 1. rewrite Hdb, C1, app_assoc.
    fold (Batches.content s1 health_to_sqlite.record_metadata).
    rewrite A4, A3, A1. unfold s0', Batches.content.
    cbn [health_to_sqlite.db health_to_sqlite.rows_by_table
         health_to_sqlite.next_id
         health_to_sqlite.record_metadata_entries app].
    fold id. f_equal. rewrite map_map. reflexivity.
  - rewrite B1, Hn, A1. reflexivity.
  - now rewrite B2.
Qed.

Lemma record_metadata_carries_the_record_id_witness :
  match health_to_sqlite.run (rt := ascii_runtime) 1 true
          ((health_to_sqlite.Start, heart_rate_record)
           :: [(health_to_sqlite.Start, motion_context_entry);
               (health_to_sqlite.End, motion_context_entry)]
           ++ [(health_to_sqlite.End, heart_rate_record)])
          (health_to_sqlite.initial Ingest.fresh) with
  | Ok st' =>
      Batches.content st' health_to_sqlite.record_metadata
      = [[health_to_sqlite.Int 1;
          health_to_sqlite.Text
            (str "HKMetadataKeyHeartRateMotionContext");
          health_to_sqlite.Text (str "1")]]
      /\ health_to_sqlite.next_id st' health_to_sqlite.records = 1%Z
      /\ health_to_sqlite.in_record st' = false
  | Raise _ => False
  end.
Proof.
  destruct (health_to_sqlite.run (rt := ascii_runtime) 1 true _ _)
    as [st'|] eqn:E; [|discriminate E].
  exact (record_metadata_carries_the_record_id ascii_runtime 1
           heart_rate_record
           [(health_to_sqlite.Start, motion_context_entry);
            (health_to_sqlite.End, motion_context_entry)] _ st' eq_refl
           eq_refl E).
Defined.

(** ** Ingestion into a store that holds rows *)

Module Reingest.
Import health_to_sqlite Ids Ingest IngestRun Batches.

Lemma id_taken_app (z : Z) (a b : list row) :
  id_taken z (a ++ b) = id_taken z a || id_taken z b.
Proof. unfold id_taken. apply existsb_app. Qed.

Lemma ids_from_In (start z : Z) (n : nat) :
  (start <= z < start + Z.of_nat n)%Z -> In z (ids_from start n).
Proof.
  intro H. unfold ids_from. apply in_map_iff.
  exists (Z.to_nat (z - start)). split; [lia|]. apply in_seq. lia.
Qed.

Lemma all_tables_In (t : table) : In t all_tables.
Proof. destruct t; cbn; auto 10. Qed.

Lemma map_app_split {A B C} (f : A -> C) (g : B -> C) (a b : list A) :
  forall l,
    List.map f (a ++ b) = List.map g l ->
    List.map f a = List.map g (firstn (List.length a) l)
    /\ List.map f b = List.map g (skipn (List.length a) l).
Proof.
  induction a as [|x a IH]; intros l H; [now split|].
  destruct l as [|y l]; [discriminate|]. cbn in H. injection H as Hx H.
  destruct (IH l H) as [H1 H2]. cbn. now rewrite Hx, H1.
Qed.

(** *** The only exception is a key that is taken *)

Lemma executemany_raises (t : table) (rows : list row) :
  forall stored e,
    executemany t stored rows = Raise e -> e = IntegrityError.
Proof.
  induction rows as [|r rest IH]; intros stored e H; cbn in H;
    [discriminate|].
  unfold insert in H.
  destruct (row_id r) as [z|];
    [destruct (has_primary_key t && id_taken z stored)|];
    cbn [bind] in H; [congruence|eauto|eauto].
Qed.

Lemma flush_tables_raises (b : buffers) (ts : list table) :
  forall db e, flush_tables ts db b = Raise e -> e = IntegrityError.
Proof.
  induction ts as [|t ts IH]; intros db e H; cbn [flush_tables] in H;
    [discriminate|].
  destruct (b t) as [|r rows]; [eauto|].
  destruct (executemany t (db t) (r :: rows)) as [stored|e'] eqn:E;
    cbn [bind] in H; [eauto|].
  injection H as <-. exact (executemany_raises _ _ _ _ E).
Qed.

Lemma flush_raises (c : conn) (b : buffers) (e : exn) :
  flush c b = Raise e -> e = IntegrityError.
Proof.
  unfold flush.
  destruct (flush_tables all_tables (rows_of c) b) as [db'|e'] eqn:E;
    cbn [bind]; [discriminate|].
  intro H. injection H as <-. exact (flush_tables_raises _ _ _ _ E).
Qed.

(** *** What a batch that was written tells about the store *)

Lemma executemany_fresh_ids (t : table) (rows : list row) :
  has_primary_key t = true ->
  forall stored s',
    executemany t stored rows = Ok s' ->
    forall r z, In r rows -> row_id r = Some z ->
                id_taken z stored = false.
Proof.
  intro Ht. induction rows as [|x rest IH]; intros stored s' H r z Hr Hz;
    [destruct Hr|].
  cbn in H. destruct (insert t stored x) as [stored'|] eqn:Ei;
    [|discriminate].
  cbn [bind] in H. pose proof (insert_ok _ _ _ _ Ei) as ->.
  destruct Hr as [->|Hr].
  - unfold insert in Ei. rewrite Hz, Ht in Ei. cbn [andb] in Ei.
    destruct (id_taken z stored); [discriminate|reflexivity].
  - pose proof (IH _ _ H r z Hr Hz) as Hf. rewrite id_taken_app in Hf.
    now apply orb_false_iff in Hf as [Hf _].
Qed.

Lemma flush_tables_each (b : buffers) (ts : list table) :
  NoDup ts ->
  forall db db',
    flush_tables ts db b = Ok db' ->
    forall t, In t ts -> exists s, executemany t (db t) (b t) = Ok s.
Proof.
  induction 1 as [|t0 ts Hn Hd IH]; intros db db' H t Ht;
    [destruct Ht|].
  cbn [flush_tables] in H. destruct (b t0) as [|r rows] eqn:Eb.
  - destruct Ht as [<-|Ht]; [|exact (IH _ _ H t Ht)].
    rewrite Eb. now exists (db t0).
  - destruct (executemany t0 (db t0) (r :: rows)) as [stored|] eqn:Ee;
      [|discriminate].
    cbn [bind] in H. destruct Ht as [<-|Ht].
    + rewrite Eb. now exists stored.
    + destruct (IH _ _ H t Ht) as [s Hs].
      rewrite update_other in Hs; [now exists s|].
      intros ->. contradiction.
Qed.

Lemma flush_fresh_ids (c c' : conn) (b b' : buffers) (t : table) :
  has_primary_key t = true ->
  flush c b = Ok (c', b') ->
  forall r z, In r (b t) -> row_id r = Some z ->
              id_taken z (rows_of c t) = false.
Proof.
  unfold flush. intros Ht H.
  destruct (flush_tables all_tables (rows_of c) b) as [db'|] eqn:E;
    [|discriminate].
  destruct (flush_tables_each _ _ all_tables_NoDup _ _ E t (all_tables_In t))
    as [s Hs].
  exact (executemany_fresh_ids t (b t) Ht _ _ Hs).
Qed.

Section From.
(** The store the run starts from. *)
Variable c0 : conn.

(** Table [t] holds the rows it had, then rows under ids that were
    free. *)
Definition kept (t : table) (c : conn) : Prop :=
  exists added,
    rows_of c t = rows_of c0 t ++ added
    /\ forall r z, In r added -> row_id r = Some z ->
                   id_taken z (rows_of c0 t) = false.

Lemma flush_kept (t : table) (c c' : conn) (b b' : buffers) :
  has_primary_key t = true ->
  kept t c -> flush c b = Ok (c', b') -> kept t c'.
Proof.
  intros Ht [added [Ha Hf]] H.
  pose proof (flush_fresh_ids _ _ _ _ t Ht H) as Hnew.
  apply flush_ok in H as [_ [_ Hr]].
  exists (added ++ b t). rewrite Hr, Ha, app_assoc. split; [reflexivity|].
  intros r z Hin Hz. apply in_app_or in Hin as [Hin|Hin]; [eauto|].
  pose proof (Hnew r z Hin Hz) as Hfree.
  rewrite Ha, id_taken_app in Hfree.
  now apply orb_false_iff in Hfree as [Hfree _].
Qed.

Section WithRuntime.
Context {rt : PyRuntime}.

Lemma step_kept (t : table) (bs : Z) (with_metadata : bool) (ev : event)
  (st st' : state) :
  has_primary_key t = true ->
  kept t (db st) -> step bs with_metadata ev st = Ok st' ->
  kept t (db st').
Proof.
  intros Ht Hk H. destruct ev as [[|] elem]; cbn [step] in H.
  - destruct (PyStr.eqb (tag elem) (str "Record"));
      injection H as <-; exact Hk.
  - assert (Hdb : db (on_end with_metadata elem st) = db st)
      by apply on_end_effect.
    destruct (threshold_reached bs (on_end with_metadata elem st)).
    + destruct (flush _ _) as [[c b]|] eqn:Ef; [|discriminate].
      cbn [bind fst snd] in H. injection H as <-. cbn [db].
      rewrite Hdb in Ef. exact (flush_kept _ _ _ _ _ Ht Hk Ef).
    + injection H as <-. now rewrite Hdb.
Qed.

Lemma run_kept (t : table) (bs : Z) (with_metadata : bool)
  (events : list event) :
  has_primary_key t = true ->
  forall st st',
    kept t (db st) -> run bs with_metadata events st = Ok st' ->
    kept t (db st').
Proof.
  intro Ht. induction events as [|ev rest IH]; intros st st' Hk H;
    cbn [run] in H.
  - now injection H as <-.
  - destruct (step bs with_metadata ev st) as [s1|] eqn:E;
      [|discriminate].
    cbn [bind] in H. exact (IH _ _ (step_kept _ _ _ _ _ _ Ht Hk E) H).
Qed.

Lemma step_raises (bs : Z) (with_metadata : bool) (ev : event)
  (st : state) (e : exn) :
  step bs with_metadata ev st = Raise e -> e = IntegrityError.
Proof.
  destruct ev as [[|] elem]; cbn [step].
  - destruct (PyStr.eqb (tag elem) (str "Record")); discriminate.
  - destruct (threshold_reached bs _); [|discriminate].
    destruct (flush _ _) as [cb|e'] eqn:Ef; cbn [bind]; [discriminate|].
    intro H. injection H as <-. exact (flush_raises _ _ _ Ef).
Qed.

Lemma run_raises (bs : Z) (with_metadata : bool) (events : list event) :
  forall st e,
    run bs with_metadata events st = Raise e -> e = IntegrityError.
Proof.
  induction events as [|ev rest IH]; intros st e H; cbn [run] in H;
    [discriminate|].
  destruct (step bs with_metadata ev st) as [s1|e'] eqn:E;
    cbn [bind] in H; [eauto|].
  injection H as <-. exact (step_raises _ _ _ _ _ E).
Qed.

Lemma rows_from_ids (t : table) (events : list event) :
  has_primary_key t = true ->
  forall last,
    List.map row_id (rows_from t last events)
    = List.map Some (ids_from (last + 1) (count_rows t events)).
Proof.
  intro Ht. unfold count_rows.
  induction events as [|ev rest IH]; intro last; [reflexivity|].
  cbn [rows_from filter]. destruct (writes_to t ev); [|apply IH].
  cbn [List.length List.map]. rewrite ids_from_cons, IH.
  cbn [List.map]. now rewrite (row_of_id t _ _ Ht).
Qed.

(** *** What a run needs to go through *)

Variable N : table -> nat.
Hypothesis free :
  forall t, has_primary_key t = true ->
            forall z, In z (ids_from 1 (N t)) ->
                      id_taken z (rows_of c0 t) = false.

(** The run has given out the ids 1 .. [k t] of table [t]; the rows
    under them are behind the rows the table had, or buffered. *)
Definition ready (st : state) (k : table -> nat) : Prop :=
  forall t,
    has_primary_key t = true ->
    next_id st t = Z.of_nat (k t)
    /\ exists flushed,
         rows_of (db st) t = rows_of c0 t ++ flushed
         /\ List.map row_id (flushed ++ rows_by_table st t)
            = List.map Some (ids_from 1 (k t)).

Lemma executemany_succeeds (t : table) (rows : list row) :
  forall (stored : list row) (l : list Z),
    List.map row_id rows = List.map Some l -> NoDup l ->
    (forall z, In z l -> id_taken z stored = false) ->
    executemany t stored rows = Ok (stored ++ rows).
Proof.
  induction rows as [|r rest IH]; intros stored l Hm Hl Hf; cbn.
  - now rewrite app_nil_r.
  - destruct l as [|z l]; [discriminate|]. cbn in Hm.
    injection Hm as Hr Hm. inversion Hl as [|? ? Hz Hl']; subst.
    unfold insert. rewrite Hr, (Hf z (or_introl eq_refl)), andb_false_r.
    cbn [bind]. rewrite (IH (stored ++ [r]) l Hm Hl'), <- app_assoc;
      [reflexivity|].
    intros z' Hz'. rewrite id_taken_app, (Hf z' (or_intror Hz')).
    cbn. rewrite Hr. destruct (Z.eqb_spec z z'); [now subst|reflexivity].
Qed.

Lemma flush_ready (st : state) (k : table -> nat) :
  ready st k -> (forall t, k t <= N t) ->
  exists c',
    flush (db st) (rows_by_table st) = Ok (c', no_rows)
    /\ forall t, rows_of c' t = rows_of (db st) t ++ rows_by_table st t.
Proof.
  intros H Hk.
  destruct (flush_tables_succeeds (rows_by_table st) all_tables
              all_tables_NoDup (rows_of (db st))) as [db' E].
  { intros t _. destruct (has_primary_key t) eqn:Ht;
      [|now apply executemany_no_key].
    destruct (H t Ht) as [_ [flushed [Hdb Hm]]].
    destruct (map_app_split _ _ _ _ _ Hm) as [H1 H2].
    pose proof (ids_from_NoDup 1 (k t)) as Hnd.
    rewrite <- (firstn_skipn (List.length flushed) (ids_from 1 (k t)))
      in Hnd.
    destruct (ImporterFacts.NoDup_app_inv _ _ Hnd) as [_ [Hnd2 Hdis]].
    apply (executemany_succeeds t _ _ _ H2 Hnd2).
    intros z Hz. rewrite Hdb, id_taken_app. apply orb_false_iff. split.
    - apply (free t Ht). apply ids_from_In.
      assert (Hin : In z (ids_from 1 (k t))).
      { rewrite <- (firstn_skipn (List.length flushed)).
        apply in_or_app. now right. }
      apply ids_from_lt in Hin. specialize (Hk t). lia.
    - apply (id_taken_false z flushed _ H1). intro Hin.
      exact (Hdis z Hin Hz). }
  unfold flush. rewrite E. cbn [bind].
  eexists; split; [reflexivity|]. intro t. cbn [rows_of].
  rewrite (flush_tables_ok _ _ all_tables_NoDup _ _ E t).
  now rewrite all_tables_complete.
Qed.

Lemma on_end_ready (with_metadata : bool) (elem : element) (st : state)
  (k : table -> nat) :
  ready st k ->
  ready (on_end with_metadata elem st)
    (fun t => k t + (if writes_to t (End, elem) then 1 else 0)).
Proof.
  intros H t Ht.
  destruct (on_end_effect with_metadata elem st) as [Hdb Heff].
  specialize (Heff t Ht). destruct (H t Ht) as [Hn [flushed [Hf Hm]]].
  rewrite Hdb.
  destruct (writes_to t (End, elem)); destruct Heff as [-> ->].
  - split; [lia|]. exists flushed. split; [exact Hf|].
    rewrite app_assoc, map_app, Hm. cbn [List.map].
    rewrite (row_of_id t _ _ Ht), Nat.add_1_r, ids_from_snoc, map_app, Hn.
    cbn [List.map]. do 3 f_equal. lia.
  - rewrite Nat.add_0_r. split; [exact Hn|]. now exists flushed.
Qed.

Lemma step_ready (bs : Z) (with_metadata : bool) (ev : event)
  (st : state) (k : table -> nat) :
  ready st k ->
  (forall t, k t + (if writes_to t ev then 1 else 0) <= N t) ->
  exists st',
    step bs with_metadata ev st = Ok st'
    /\ ready st' (fun t => k t + (if writes_to t ev then 1 else 0)).
Proof.
  intros H Hk. destruct ev as [[|] elem]; cbn [step].
  - assert (Hsame : ready st (fun t => k t + (if writes_to t (Start, elem)
                                               then 1 else 0))).
    { intros t Ht. cbn [writes_to]. rewrite Nat.add_0_r. now apply H. }
    destruct (PyStr.eqb (tag elem) (str "Record"));
      (eexists; split; [reflexivity|exact Hsame]).
  - pose proof (on_end_ready with_metadata elem st k H) as H1.
    destruct (threshold_reached bs (on_end with_metadata elem st)).
    + destruct (flush_ready _ _ H1 Hk) as [c' [-> Hrows]].
      cbn [bind fst snd]. eexists; split; [reflexivity|].
      intros t Ht. destruct (H1 t Ht) as [Hn [flushed [Hf Hm]]].
      cbn [db next_id rows_by_table]. split; [exact Hn|].
      exists (flushed ++ rows_by_table (on_end with_metadata elem st) t).
      rewrite Hrows, Hf, <- app_assoc. split; [reflexivity|].
      unfold no_rows. now rewrite app_nil_r.
    + eexists; split; [reflexivity|exact H1].
Qed.

Lemma run_ready (bs : Z) (with_metadata : bool) (events : list event) :
  forall (st : state) (k : table -> nat),
    ready st k ->
    (forall t, k t + count_rows t events <= N t) ->
    exists st',
      run bs with_metadata events st = Ok st'
      /\ ready st' (fun t => k t + count_rows t events).
Proof.
  induction events as [|ev rest IH]; intros st k H Hk; cbn [run].
  - eexists; split; [reflexivity|]. intros t Ht.
    unfold count_rows. cbn [filter List.length]. rewrite Nat.add_0_r.
    now apply H.
  - assert (Hcount : forall t,
               count_rows t (ev :: rest)
               = (if writes_to t ev then 1 else 0) + count_rows t rest).
    { intro t. unfold count_rows. cbn [filter].
      now destruct (writes_to t ev). }
    destruct (step_ready bs with_metadata ev st k H) as [st1 [-> H1]].
    { intro t. specialize (Hk t). rewrite Hcount in Hk. lia. }
    cbn [bind]. destruct (IH _ _ H1) as [st' [-> H']].
    { intro t. specialize (Hk t). rewrite Hcount in Hk. lia. }
    eexists; split; [reflexivity|]. intros t Ht.
    rewrite Hcount, Nat.add_assoc. now apply H'.
Qed.

End WithRuntime.

End From.

End Reingest.

(** X13. Ingestion into a store that already holds rows. The counters
    start at 0 whatever the store holds, so over an export that is read
    to its end the run returns exactly when, in every entity table, none
    of the ids 1 .. N is taken, N being the number of elements of the
    table's tag in the export; the one exception such a run can end in
    is the integrity error of a taken key. Over an export that breaks
    off the run ends in that error or in the [ParseError]; an export
    that is not found gives the exit status 2 and leaves the store as it
    is, and one that cannot be opened for another reason ends the run
    with the error of the system. *)
Theorem ingest_returns_iff_ids_free :
  forall (rt : PyRuntime) (c : health_to_sqlite.conn)
         (events : list health_to_sqlite.event) (batch_size : Z)
         (with_metadata : bool),
    ((exists c',
         health_to_sqlite.main c (health_to_sqlite.Parsed events)
           batch_size with_metadata = Ok (c', 0%Z))
     <-> (forall t z,
             health_to_sqlite.has_primary_key t = true ->
             In z (Ids.ids_from 1 (Ingest.count_rows t events)) ->
             health_to_sqlite.id_taken z (health_to_sqlite.rows_of c t)
             = false))
    /\ (forall e,
           health_to_sqlite.main c (health_to_sqlite.Parsed events)
             batch_size with_metadata
           = Raise e ->
           e = IntegrityError)
    /\ (exists e,
           health_to_sqlite.main c (health_to_sqlite.Broken events)
             batch_size with_metadata
           = Raise e
           /\ (e = ParseError \/ e = IntegrityError))
    /\ health_to_sqlite.main c health_to_sqlite.NotFound batch_size
         with_metadata
       = Ok (c, 2%Z)
    /\ health_to_sqlite.main c health_to_sqlite.Unreadable batch_size
         with_metadata
       = Raise OSError.
Proof.
  intros rt c events bs wm.
  split; [split|split; [|split; [|split; reflexivity]]].
  - intros [c' H] t z Ht Hz.
    destruct (Batches.main_content _ _ _ _ _ _ H) as [st [Hr Hrows]].
    assert (Hk0 : Reingest.kept c t
                    (health_to_sqlite.db (health_to_sqlite.initial c))).
    { exists []. split; [now rewrite app_nil_r|easy]. }
    pose proof (Reingest.run_kept c t bs wm events Ht _ _ Hk0 Hr) as Hk.
    unfold health_to_sqlite.main in H. rewrite Hr in H. cbn [bind] in H.
    destruct (health_to_sqlite.flush _ _) as [[c1 b]|] eqn:Ef;
      [|discriminate].
    cbn [bind fst] in H. injection H as <-.
    destruct (Reingest.flush_kept c t _ _ _ _ Ht Hk Ef)
      as [added [Ha Hfree]].
    rewrite Hrows, (Batches.run_rows _ _ t _ Ht _ _ Hr) in Ha.
    unfold Batches.content in Ha. cbn in Ha.
    rewrite app_nil_r in Ha. apply app_inv_head in Ha. subst added.
    assert (Hin : In (Some z)
                    (List.map health_to_sqlite.row_id
                       (Batches.rows_from t 0 events))).
    { rewrite (Reingest.rows_from_ids t events Ht). now apply in_map. }
    apply in_map_iff in Hin as [r [Hz' Hr']].
    exact (Hfree r z Hr' Hz').
  - intro Hfree. unfold health_to_sqlite.main.
    assert (H0 : Reingest.ready c (health_to_sqlite.initial c)
                   (fun _ => 0)).
    { intros t Ht. split; [reflexivity|]. exists [].
      now rewrite app_nil_r. }
    destruct (Reingest.run_ready c (fun t => Ingest.count_rows t events)
                (fun t Ht z Hz => Hfree t z Ht Hz) bs wm events _ _ H0)
      as [st [-> Hst]]; [intro; cbn; lia|].
    cbn [bind].
    destruct (Reingest.flush_ready c (fun t => Ingest.count_rows t events)
                (fun t Ht z Hz => Hfree t z Ht Hz) _ _ Hst)
      as [c' [-> _]]; [intro; cbn; lia|].
    cbn [bind fst]. now exists c'.
  - unfold health_to_sqlite.main. intros e H.
    destruct (health_to_sqlite.run bs wm events _) as [st|e'] eqn:Er;
      cbn [bind] in H.
    + destruct (health_to_sqlite.flush _ _) as [cb|e'] eqn:Ef;
        cbn [bind] in H; [discriminate|].
      injection H as <-. exact (Reingest.flush_raises _ _ _ Ef).
    + injection H as <-. exact (Reingest.run_raises _ _ _ _ _ Er).
  - unfold health_to_sqlite.main.
    destruct (health_to_sqlite.run bs wm events _) as [st|e'] eqn:Er;
      cbn [bind].
    + exists ParseError. split; [reflexivity|now left].
    + exists e'. split; [reflexivity|]. right.
      exact (Reingest.run_raises _ _ _ _ _ Er).
Qed.

Lemma ingest_returns_iff_ids_free_witness :
  exists c',
    health_to_sqlite.main (rt := ascii_runtime) Ingest.fresh
      (health_to_sqlite.Parsed small_export) 1 true = Ok (c', 0%Z).
Proof.
  apply (proj2 (proj1 (ingest_returns_iff_ids_free ascii_runtime
                         Ingest.fresh small_export 1 true))).
  intros t z _ _. reflexivity.
Defined.

(** ** The rows an import adds *)

Module ImporterRows.
Import health_postprocess Ids Importer ImporterFacts.

Lemma concat_snoc {A} (l : list (list A)) (x : list A) :
  List.concat (l ++ [x]) = List.concat l ++ x.
Proof. rewrite concat_app. cbn. now rewrite app_nil_r. Qed.

Section Rows.
Variables Row Child File : Type.
Variable id_of : Row -> Z.
Variable path_of : Row -> pystr.
Variable accepts : pystr -> bool.
Variable make : pystr -> File -> Z -> result (option (Row * list Child)).
Variable index_on_parents : bool.

Hypothesis make_row :
  forall path file id row children,
    make path file id = Ok (Some (row, children)) ->
    id_of row = id /\ path_of row = path.

Local Abbreviation flush := (g_flush id_of path_of).
Local Abbreviation ingest := (g_ingest id_of path_of make).
Local Abbreviation loop := (g_loop id_of path_of accepts make).
Local Abbreviation import :=
  (g_import id_of path_of accepts make index_on_parents).
Local Abbreviation paths := (List.map path_of).
Local Abbreviation ids := (List.map id_of).
Local Abbreviation stored := (stored Row Child).

(** What the files of a listing yield, taken in order: the parent row
    and the child rows of each file that passes the tests and yields
    rows, under the ids handed out from [id] on. *)
Fixpoint made_of (dir : pystr) (skip_existing : bool)
  (existing : list pystr) (entries : list (pystr * File)) (id : Z)
  : list (Row * list Child) :=
  match entries with
  | [] => []
  | (name, file) :: rest =>
      if negb (accepts name)
      then made_of dir skip_existing existing rest id
      else if skip_existing && mem (path_join dir name) existing
      then made_of dir skip_existing existing rest id
      else
        match make (path_join dir name) file id with
        | Ok (Some p) =>
            p :: made_of dir skip_existing existing rest (id + 1)
        | _ => made_of dir skip_existing existing rest id
        end
  end.

Lemma ingest_made (path : pystr) (file : File) (st st' : gstate Row Child) :
  ingest path file st = Ok st' ->
  match make path file (g_id st) with
  | Ok (Some (row, children)) =>
      g_id st' = (g_id st + 1)%Z /\ g_count st' = S (g_count st)
      /\ ((g_store st' = g_store st /\ g_rows st' = g_rows st ++ [row]
           /\ g_kids st' = g_kids st ++ children)
          \/ (flush (g_store st) (g_rows st ++ [row])
                (g_kids st ++ children) = Ok (g_store st')
              /\ g_rows st' = [] /\ g_kids st' = []))
  | Ok None => st' = st
  | Raise _ => False
  end.
Proof.
  unfold g_ingest.
  destruct (make path file (g_id st)) as [[[row children]|]|];
    cbn [bind]; [| congruence | discriminate].
  destruct (20000 <=? _)%Z.
  - destruct (flush _ _ _) as [s|] eqn:Ef; [|discriminate].
    cbn [bind]. intro H. injection H as <-.
    cbn [g_id g_count g_store g_rows g_kids]. repeat split. now right.
  - intro H. injection H as <-.
    cbn [g_id g_count g_store g_rows g_kids]. repeat split. now left.
Qed.

Section From.
(** The store the run started from. *)
Variable s0 : store Row Child.

Local Abbreviation id0 := (_next_id (g_ids id_of s0)).

(** The pairs [made] so far stand in the two tables behind what these
    held, or in the buffers. *)
Definition traced (st : gstate Row Child) (made : list (Row * list Child))
  (remaining : list pystr) : Prop :=
  exists flushed kflushed,
    parents (g_store st) = option_map (fun l => l ++ flushed) (parents s0)
    /\ stored (g_store st) = stored s0 ++ flushed
    /\ kids (g_store st) = option_map (fun l => l ++ kflushed) (kids s0)
    /\ flushed ++ g_rows st = List.map fst made
    /\ kflushed ++ g_kids st = List.concat (List.map snd made)
    /\ g_count st = List.length made
    /\ g_id st = (id0 + Z.of_nat (List.length made))%Z
    /\ ids (List.map fst made) = ids_from id0 (List.length made)
    /\ NoDup (paths (List.map fst made))
    /\ forall r, In r (List.map fst made) ->
                 ~ In (path_of r) (paths (stored s0))
                 /\ ~ In (path_of r) remaining.

Lemma traced_weaken (st : gstate Row Child)
  (made : list (Row * list Child)) (p : pystr) (remaining : list pystr) :
  traced st made (p :: remaining) -> traced st made remaining.
Proof.
  intros [flushed [kflushed [P [St [K [Hr [Hk [Hc [Hid [Hids [Hn Hf]]]]]]]]]]].
  exists flushed, kflushed. repeat split; try assumption.
  - now apply Hf.
  - intro Hin. apply (proj2 (Hf r H)). now right.
Qed.

Lemma traced_ingest (path : pystr) (file : File)
  (st st' : gstate Row Child) (made : list (Row * list Child))
  (remaining : list pystr) :
  traced st made (path :: remaining) ->
  ~ In path remaining -> ~ In path (paths (stored s0)) ->
  ingest path file st = Ok st' ->
  traced st'
    (made ++ match make path file (g_id st) with
             | Ok (Some p) => [p]
             | _ => []
             end) remaining.
Proof.
  intros Ht Hrem Hnew H. apply ingest_made in H.
  destruct (make path file (g_id st)) as [[[row children]|]|] eqn:Em;
    [| |destruct H].
  2:{ subst st'. rewrite app_nil_r. exact (traced_weaken _ _ _ _ Ht). }
  destruct Ht
    as [flushed [kflushed [P [St [K [Hr [Hk [Hc [Hid [Hids [Hn Hf]]]]]]]]]]].
  destruct (make_row _ _ _ _ _ Em) as [Hrid Hrp].
  destruct H as [Hid' [Hc' Hcases]].
  assert (Hlen : List.length (made ++ [(row, children)])
                 = S (List.length made))
    by (rewrite length_app; cbn; lia).
  assert (Hrows : List.map fst (made ++ [(row, children)])
                  = List.map fst made ++ [row])
    by now rewrite map_app.
  assert (Hkids : List.concat (List.map snd (made ++ [(row, children)]))
                  = List.concat (List.map snd made) ++ children)
    by (rewrite map_app; cbn [List.map snd]; apply concat_snoc).
  assert (Hids' : ids (List.map fst made ++ [row])
                  = ids_from id0 (S (List.length made))).
  { rewrite map_app, Hids, ids_from_snoc. cbn [List.map].
    now rewrite Hrid, Hid. }
  assert (Hn' : NoDup (paths (List.map fst made ++ [row]))).
  { rewrite map_app. apply NoDup_app; [exact Hn| |].
    - repeat constructor. easy.
    - intros p Hp [<-|[]]. apply in_map_iff in Hp as [r [E Hin]].
      apply (proj2 (Hf r Hin)). left. congruence. }
  assert (Hf' : forall r, In r (List.map fst made ++ [row]) ->
                  ~ In (path_of r) (paths (stored s0))
                  /\ ~ In (path_of r) remaining).
  { intros r Hin. apply in_app_or in Hin as [Hin|[<-|[]]].
    - destruct (Hf r Hin) as [H1 H2]. split; [exact H1|].
      intro; apply H2. now right.
    - rewrite Hrp. now split. }
  destruct Hcases as [[Es [Er Ek]]|[Ef [Er Ek]]].
  - exists flushed, kflushed. rewrite Es, Er, Ek, Hlen, Hrows, Hkids.
    rewrite !app_assoc, Hr, Hk.
    repeat split; try assumption; try (now apply Hf'); lia.
  - assert (Hall : flushed ++ g_rows st ++ [row]
                   = List.map fst made ++ [row])
      by now rewrite app_assoc, Hr.
    rewrite <- Hall in Hids', Hn', Hf'.
    destruct (flush_inserts_all _ _ _ _ s0 _ _ _ _ _ _ P St Hids' Hn'
                (fun r Hin => proj1 (Hf' r Hin)) Ef) as [P' St'].
    destruct (flush_grows _ _ _ _ _ _ _ _ Ef) as [_ [K' _]].
    exists (flushed ++ g_rows st ++ [row]),
      (kflushed ++ g_kids st ++ children).
    rewrite Er, Ek, Hlen, Hrows, Hkids, !app_nil_r, K', K,
      option_map_app_app.
    rewrite <- Hall.
    repeat split; try assumption; try (now apply Hf'); try lia.
    now rewrite app_assoc, Hk.
Qed.

Lemma traced_loop (dir : pystr) (entries : list (pystr * File)) :
  forall st st' made,
    NoDup (List.map (entry_path File dir) entries) ->
    traced st made (List.map (entry_path File dir) entries) ->
    loop dir true (paths (stored s0)) entries st = Ok st' ->
    traced st'
      (made ++ made_of dir true (paths (stored s0)) entries (g_id st)) [].
Proof.
  induction entries as [|[name file] rest IH]; intros st st' made Hnd Ht H;
    cbn [g_loop made_of] in H |- *.
  - injection H as <-. now rewrite app_nil_r.
  - cbn [List.map] in Hnd, Ht. inversion Hnd as [|? ? Hhead Hrest]; subst.
    pose proof (traced_weaken _ _ _ _ Ht) as Hweak.
    destruct (negb (accepts name)); [exact (IH _ _ _ Hrest Hweak H)|].
    cbn [andb] in H |- *.
    destruct (mem (path_join dir name) (paths (stored s0))) eqn:Em;
      [exact (IH _ _ _ Hrest Hweak H)|].
    destruct (ingest (path_join dir name) file st) as [st1|] eqn:Ei;
      [|discriminate].
    cbn [bind] in H.
    assert (Hnew : ~ In (path_join dir name) (paths (stored s0))).
    { intro Hin. apply mem_In in Hin. congruence. }
    pose proof (traced_ingest _ _ _ _ _ _ Ht Hhead Hnew Ei) as Ht1.
    pose proof (ingest_made _ _ _ _ Ei) as Hm.
    change (entry_path File dir (name, file)) with (path_join dir name)
      in Ht1.
    destruct (make (path_join dir name) file (g_id st))
      as [[[row children]|]|]; [| |destruct Hm].
    + destruct Hm as [Hid _]. rewrite <- Hid.
      pose proof (IH _ _ _ Hrest Ht1 H) as Hfin.
      now rewrite <- app_assoc in Hfin.
    + subst st1. rewrite app_nil_r in Ht1. exact (IH _ _ _ Hrest Ht1 H).
Qed.

End From.

(** With skip-existing and distinct paths in the directory, a run that
    returns has put what the files yield behind what the two tables
    held, and counts the files that yielded. *)
Theorem import_made (s s' : store Row Child) (dir : pystr)
  (files : list (pystr * File)) (n : nat) :
  NoDup (List.map (entry_path File dir) files) ->
  import s dir (Some files) true = Ok (s', n) ->
  let made :=
    made_of dir true (paths (stored s)) (sorted files)
      (_next_id (g_ids id_of s)) in
  parents s' = option_map (fun l => l ++ List.map fst made) (parents s)
  /\ kids s' = option_map (fun l => l ++ List.concat (List.map snd made)) (kids s)
  /\ n = List.length made
  /\ ids (List.map fst made)
     = ids_from (_next_id (g_ids id_of s)) (List.length made).
Proof.
  intros Hnd H made. unfold g_import in H.
  assert (Hex : list_existing (g_paths path_of s) = paths (stored s)).
  { unfold g_paths, ImporterFacts.stored. now destruct (parents s). }
  rewrite Hex in H.
  destruct (loop dir true _ (sorted files) (g_start id_of s))
    as [st|] eqn:El; [|discriminate].
  cbn [bind] in H.
  assert (Hnd' : NoDup (List.map (entry_path File dir) (sorted files))).
  { eapply Permutation_NoDup; [|exact Hnd].
    apply Permutation_map. symmetry. apply Listing.sorted_perm. }
  assert (Ht0 : traced s (g_start id_of s) []
                  (List.map (entry_path File dir) (sorted files))).
  { exists [], [].
    cbn [g_start g_store g_rows g_kids g_count g_id app List.map List.concat
         List.length].
    rewrite !option_map_app_nil, app_nil_r, Z.add_0_r.
    repeat split; try easy. constructor. }
  destruct (traced_loop s dir _ _ _ _ Hnd' Ht0 El)
    as [flushed [kflushed [P [St [K [Hr [Hk [Hc [Hid [Hids [Hn Hf]]]]]]]]]]].
  cbn [app g_start g_id] in Hr, Hk, Hc, Hid, Hids, Hn, Hf.
  fold made in Hr, Hk, Hc, Hid, Hids, Hn, Hf.
  unfold g_finish in H.
  destruct (flush (g_store st) (g_rows st) (g_kids st)) as [s1|] eqn:Ef;
    [|discriminate].
  cbn [bind] in H.
  destruct (create_index (kids s1)) as [[]|]; [|discriminate].
  cbn [bind] in H.
  destruct (if index_on_parents then create_index (parents s1) else Ok tt)
    as [[]|]; [|discriminate].
  cbn [bind] in H. injection H as <- <-.
  rewrite <- Hr in Hids, Hn, Hf.
  destruct (flush_inserts_all _ _ _ _ s _ _ _ _ _ _ P St Hids Hn
              (fun r Hin => proj1 (Hf r Hin)) Ef) as [P' _].
  destruct (flush_grows _ _ _ _ _ _ _ _ Ef) as [_ [K' _]].
  rewrite P', K', K, option_map_app_app, Hr, Hk.
  repeat split; try assumption. now rewrite <- Hr.
Qed.

(** In either mode the counter, the count and the child table follow
    what the files yield, whether or not a parent row is ignored. *)
Lemma loop_counts (dir : pystr) (skip : bool) (existing : list pystr)
  (entries : list (pystr * File)) :
  forall st st',
    loop dir skip existing entries st = Ok st' ->
    let made := made_of dir skip existing entries (g_id st) in
    g_id st' = (g_id st + Z.of_nat (List.length made))%Z
    /\ g_count st' = g_count st + List.length made
    /\ exists kflushed,
         kids (g_store st')
         = option_map (fun l => l ++ kflushed) (kids (g_store st))
         /\ kflushed ++ g_kids st'
            = g_kids st ++ List.concat (List.map snd made).
Proof.
  induction entries as [|[name file] rest IH]; intros st st' H;
    cbn [g_loop made_of] in H |- *.
  - injection H as <-. cbn [List.length List.map List.concat].
    rewrite Z.add_0_r, Nat.add_0_r. repeat split. exists [].
    now rewrite option_map_app_nil, app_nil_r.
  - destruct (negb (accepts name)); [exact (IH _ _ H)|].
    destruct (skip && mem (path_join dir name) existing);
      [exact (IH _ _ H)|].
    destruct (ingest (path_join dir name) file st) as [st1|] eqn:Ei;
      [|discriminate].
    cbn [bind] in H. apply ingest_made in Ei.
    destruct (make (path_join dir name) file (g_id st))
      as [[[row children]|]|]; [| |destruct Ei].
    2:{ subst st1. exact (IH _ _ H). }
    destruct Ei as [Hid [Hc Hcases]].
    destruct (IH _ _ H) as [Hid' [Hc' [kf [K Hk]]]]. rewrite Hid in *.
    cbn [List.length List.map List.concat snd].
    split; [lia|]. split; [lia|].
    destruct Hcases as [[Es [_ Ek]]|[Ef [_ Ek]]].
    + exists kf. rewrite K, Es, Hk, Ek, <- app_assoc. now split.
    + destruct (flush_grows _ _ _ _ _ _ _ _ Ef) as [_ [K' _]].
      exists ((g_kids st ++ children) ++ kf).
      rewrite K, K', option_map_app_app, <- !app_assoc, Hk, Ek.
      now split.
Qed.

Theorem import_counts (s s' : store Row Child) (dir : pystr)
  (files : list (pystr * File)) (skip : bool) (n : nat) :
  import s dir (Some files) skip = Ok (s', n) ->
  let made :=
    made_of dir skip
      (if skip then list_existing (g_paths path_of s) else [])
      (sorted files) (_next_id (g_ids id_of s)) in
  n = List.length made
  /\ kids s'
     = option_map (fun l => l ++ List.concat (List.map snd made)) (kids s).
Proof.
  intros H made. unfold g_import in H.
  destruct (loop dir skip _ (sorted files) (g_start id_of s))
    as [st|] eqn:El; [|discriminate].
  cbn [bind] in H.
  destruct (loop_counts _ _ _ _ _ _ El) as [_ [Hc [kf [K Hk]]]].
  cbn [g_start g_id g_count g_kids g_store app] in Hc, K, Hk.
  fold made in Hc, Hk.
  unfold g_finish in H.
  destruct (flush (g_store st) (g_rows st) (g_kids st)) as [s1|] eqn:Ef;
    [|discriminate].
  cbn [bind] in H.
  destruct (create_index (kids s1)) as [[]|]; [|discriminate].
  cbn [bind] in H.
  destruct (if index_on_parents then create_index (parents s1) else Ok tt)
    as [[]|]; [|discriminate].
  cbn [bind] in H. injection H as <- <-.
  destruct (flush_grows _ _ _ _ _ _ _ _ Ef) as [_ [K' _]].
  split; [exact Hc|]. now rewrite K', K, option_map_app_app, Hk.
Qed.

(** Every pair comes from a file of the listing. *)
Lemma made_of_sound (dir : pystr) (skip : bool) (existing : list pystr)
  (entries : list (pystr * File)) :
  forall id p,
    In p (made_of dir skip existing entries id) ->
    exists name file id',
      In (name, file) entries
      /\ make (path_join dir name) file id' = Ok (Some p).
Proof.
  induction entries as [|[name file] rest IH]; intros id p Hp;
    cbn [made_of] in Hp; [destruct Hp|].
  assert (Hrest : forall id0,
             In p (made_of dir skip existing rest id0) ->
             exists name0 file0 id',
               In (name0, file0) ((name, file) :: rest)
               /\ make (path_join dir name0) file0 id' = Ok (Some p)).
  { intros id0 Hin. destruct (IH _ _ Hin) as [n0 [f0 [i0 [H1 H2]]]].
    exists n0, f0, i0. split; [now right|exact H2]. }
  destruct (negb (accepts name)); [eauto|].
  destruct (skip && mem (path_join dir name) existing); [eauto|].
  destruct (make (path_join dir name) file id) as [[q|]|] eqn:Em; eauto.
  destruct Hp as [<-|Hp]; [|eauto].
  exists name, file, id. split; [now left|exact Em].
Qed.

Section Kids.
(** The column of a child row that refers to its parent. *)
Variable kid_id : Child -> Z.

Hypothesis make_kids :
  forall path file id row children,
    make path file id = Ok (Some (row, children)) ->
    forall k, In k children -> kid_id k = id.

Definition belongs (p : Row * list Child) : Prop :=
  forall k, In k (snd p) -> kid_id k = id_of (fst p).

Lemma made_of_belongs (dir : pystr) (skip : bool) (existing : list pystr)
  (entries : list (pystr * File)) (id : Z) :
  Forall belongs (made_of dir skip existing entries id).
Proof.
  apply Forall_forall. intros [row children] Hp.
  destruct (made_of_sound _ _ _ _ _ _ Hp) as [name [file [id' [_ Hm]]]].
  intros k Hk. cbn [fst snd] in *.
  rewrite (make_kids _ _ _ _ _ Hm k Hk).
  now destruct (make_row _ _ _ _ _ Hm) as [-> _].
Qed.

Lemma kids_have_parents (made : list (Row * list Child)) :
  Forall belongs made ->
  forall k, In k (List.concat (List.map snd made)) ->
            In (kid_id k) (ids (List.map fst made)).
Proof.
  intros Hb k Hk. apply in_concat in Hk as [children [Hc Hk]].
  apply in_map_iff in Hc as [p [<- Hp]].
  rewrite Forall_forall in Hb. rewrite (Hb p Hp k Hk).
  apply in_map. now apply in_map.
Qed.

Lemma kids_of_parent (made : list (Row * list Child)) :
  Forall belongs made -> NoDup (ids (List.map fst made)) ->
  forall p, In p made ->
            filter (fun k => (kid_id k =? id_of (fst p))%Z)
              (List.concat (List.map snd made))
            = snd p.
Proof.
  induction made as [|q made IH]; intros Hb Hn p Hp; [destruct Hp|].
  inversion Hb as [|? ? Hq Hb']; subst.
  cbn [List.map ids] in Hn. inversion Hn as [|? ? Hq1 Hn']; subst.
  cbn [List.map List.concat]. rewrite filter_app.
  assert (Hnone : forall z l,
             (forall k, In k l -> kid_id k <> z) ->
             filter (fun k => (kid_id k =? z)%Z) l = []).
  { intros z l Hl. induction l as [|k l IHl]; [reflexivity|].
    cbn [filter]. destruct (Z.eqb_spec (kid_id k) z) as [E|_].
    - exfalso. exact (Hl k (or_introl eq_refl) E).
    - apply IHl. intros k' Hk'. apply Hl. now right. }
  assert (Hall : forall z l,
             (forall k, In k l -> kid_id k = z) ->
             filter (fun k => (kid_id k =? z)%Z) l = l).
  { intros z l Hl. induction l as [|k l IHl]; [reflexivity|].
    cbn [filter]. rewrite (Hl k (or_introl eq_refl)), Z.eqb_refl.
    f_equal. apply IHl. intros k' Hk'. apply Hl. now right. }
  destruct Hp as [->|Hp].
  - rewrite (Hall _ _ Hq), Hnone; [apply app_nil_r|].
    intros k Hk E. apply Hq1. rewrite <- E.
    now apply kids_have_parents.
  - rewrite (IH Hb' Hn' p Hp), Hnone; [reflexivity|].
    intros k Hk E. apply Hq1. rewrite <- (Hq k Hk), E.
    apply in_map. now apply in_map.
Qed.

End Kids.

Section Yields.
(** Whether a file yields rows. *)
Variable yields : File -> bool.

Hypothesis make_some :
  forall path file id p,
    make path file id = Ok (Some p) -> yields file = true.

Hypothesis make_none :
  forall path file id,
    make path file id = Ok None -> yields file = false.

(** The files an import counts. *)
Definition counted (dir : pystr) (skip : bool) (existing : list pystr)
  (e : pystr * File) : bool :=
  accepts (fst e) && negb (skip && mem (path_join dir (fst e)) existing)
  && yields (snd e).

(** In a loop that comes to its end no file has raised. *)
Lemma made_paths (dir : pystr) (skip : bool) (existing : list pystr)
  (entries : list (pystr * File)) :
  forall st st',
    loop dir skip existing entries st = Ok st' ->
    paths (List.map fst (made_of dir skip existing entries (g_id st)))
    = List.map (fun e => path_join dir (fst e))
        (filter (counted dir skip existing) entries).
Proof.
  induction entries as [|[name file] rest IH]; intros st st' H;
    [reflexivity|].
  cbn [g_loop] in H. cbn [made_of filter]. unfold counted at 1.
  cbn [fst snd].
  destruct (accepts name); cbn [negb andb] in H |- *;
    [|exact (IH _ _ H)].
  destruct (skip && mem (path_join dir name) existing); cbn [negb];
    [exact (IH _ _ H)|].
  destruct (ingest (path_join dir name) file st) as [st1|] eqn:Ei;
    [|discriminate].
  cbn [bind] in H. apply ingest_made in Ei.
  destruct (make (path_join dir name) file (g_id st))
    as [[[row children]|]|] eqn:Em; [| |destruct Ei].
  - rewrite (make_some _ _ _ _ Em). destruct Ei as [Hid _].
    cbn [List.map fst]. rewrite <- Hid, (IH _ _ H).
    now destruct (make_row _ _ _ _ _ Em) as [_ ->].
  - rewrite (make_none _ _ _ Em). subst st1. exact (IH _ _ H).
Qed.

Lemma import_paths (s s' : store Row Child) (dir : pystr)
  (files : list (pystr * File)) (skip : bool) (n : nat) :
  import s dir (Some files) skip = Ok (s', n) ->
  let existing :=
    if skip then list_existing (g_paths path_of s) else [] in
  paths (List.map fst (made_of dir skip existing (sorted files)
                         (_next_id (g_ids id_of s))))
  = List.map (fun e => path_join dir (fst e))
      (filter (counted dir skip existing) (sorted files)).
Proof.
  intros H existing. unfold g_import in H.
  destruct (loop dir skip _ (sorted files) (g_start id_of s))
    as [st|] eqn:El; [|discriminate].
  exact (made_paths _ _ _ _ _ _ El).
Qed.

End Yields.

End Rows.

End ImporterRows.

(** ** What the two importers add *)

Module ImportedRows.
Import health_postprocess Ids Importer ImporterFacts Imports ImporterRows.

Lemma str_leb_antisym (a b : pystr) :
  str_leb a b = true -> str_leb b a = true -> a = b.
Proof.
  revert b; induction a as [|x a IH]; intros [|y b]; cbn; try easy.
  destruct (N.ltb_spec x y), (N.ltb_spec y x); try easy; try lia.
  intros H1 H2. assert (x = y) by lia. subst. f_equal. now apply IH.
Qed.

Lemma sorted_unique {F} (l1 : list (pystr * F)) :
  forall l2,
    StronglySorted (Listing.name_le F) l1 ->
    StronglySorted (Listing.name_le F) l2 ->
    Permutation l1 l2 -> NoDup (List.map fst l1) -> l1 = l2.
Proof.
  induction l1 as [|x l1 IH]; intros l2 H1 H2 Hp Hn.
  - apply Permutation_nil in Hp. now subst.
  - destruct l2 as [|y l2];
      [apply Permutation_sym, Permutation_nil in Hp; discriminate|].
    inversion H1 as [|? ? H1' Hx]; subst.
    inversion H2 as [|? ? H2' Hy]; subst.
    cbn [List.map] in Hn. inversion Hn as [|? ? Hx1 Hn']; subst.
    assert (Hxy : x = y).
    { assert (Hyin : In y (x :: l1)).
      { apply (Permutation_in _ (Permutation_sym Hp)). now left. }
      destruct Hyin as [E|Hyin]; [exact E|].
      assert (Hxin : In x (y :: l2)).
      { apply (Permutation_in _ Hp). now left. }
      destruct Hxin as [E|Hxin]; [now symmetry|].
      exfalso. apply Hx1.
      rewrite Forall_forall in Hx, Hy.
      rewrite (str_leb_antisym _ _ (Hx y Hyin) (Hy x Hxin)).
      now apply in_map. }
    subst y. f_equal. apply (IH l2 H1' H2'); [|exact Hn'].
    exact (Permutation_cons_inv Hp).
Qed.

(** The listing is sorted before it is read, so the order in which the
    directory is listed does not show. *)
Lemma sorted_of_permutation {F} (l1 l2 : list (pystr * F)) :
  Permutation l1 l2 -> NoDup (List.map fst l1) -> sorted l1 = sorted l2.
Proof.
  intros Hp Hn. apply sorted_unique.
  - apply Listing.sorted_sorted.
  - apply Listing.sorted_sorted.
  - rewrite !Listing.sorted_perm. exact Hp.
  - eapply Permutation_NoDup; [|exact Hn].
    apply Permutation_map. symmetry. apply Listing.sorted_perm.
Qed.

Section WithRuntime.
Context {rt : PyRuntime}.

Lemma point_rows_of_ids (id : Z) (points : list point) :
  forall idx k,
    In k (point_rows_of id idx points) -> point_route_id k = id.
Proof.
  induction points as [|p rest IH]; intros idx k Hk; [destruct Hk|].
  destruct Hk as [<-|Hk]; [reflexivity|exact (IH _ _ Hk)].
Qed.

Lemma point_rows_of_length (id : Z) (points : list point) :
  forall idx, List.length (point_rows_of id idx points) = List.length points.
Proof.
  induction points as [|p rest IH]; intro idx; [reflexivity|].
  cbn. now rewrite IH.
Qed.

Lemma make_route_kids (path : pystr) (file : gpx_file) (id : Z)
  (row : route_row) (children : list point_row) :
  make_route path file id = Ok (Some (row, children)) ->
  (forall k, In k children -> point_route_id k = id)
  /\ point_count row = List.length children
  /\ 1 <= point_count row.
Proof.
  unfold make_route. destruct (parse_points file) as [[|p ps]|];
    cbn [bind]; try discriminate.
  destruct (route_distance (p :: ps)); cbn [bind]; [|discriminate].
  intro H. injection H as <- <-. cbn [point_count].
  split; [|split; [|cbn; lia]].
  - intros k Hk. exact (point_rows_of_ids id (p :: ps) 0 k Hk).
  - symmetry. exact (point_rows_of_length id (p :: ps) 0).
Qed.

Lemma make_ecg_kids (path : pystr) (file : csv_file) (id : Z)
  (row : ecg_row) (children : list sample_row) :
  make_ecg path file id = Ok (Some (row, children)) ->
  (forall k, In k children -> sample_ecg_id k = id)
  /\ 1 <= List.length children.
Proof.
  unfold make_ecg. destruct (parse_ecg_csv file) as [[metadata [|x xs]]|];
    cbn [bind fst snd]; try discriminate.
  destruct (_parse_sample_rate _); cbn [bind]; [|discriminate].
  intro H. injection H as <- <-. split.
  - intros k [<-|Hk]; [reflexivity|].
    apply in_map_iff in Hk as [iv [<- _]]. reflexivity.
  - cbn. lia.
Qed.

(** A track file that is read and holds a [trkpt] element. *)
Definition has_points (file : gpx_file) : bool :=
  match parse_points file with
  | Ok (_ :: _) => true
  | _ => false
  end.

(** A recording that is read, holds a sample, and whose sample rate is
    read. *)
Definition has_samples (file : csv_file) : bool :=
  match parse_ecg_csv file with
  | Ok (metadata, _ :: _) =>
      match _parse_sample_rate (dict_get metadata (str "Sample Rate")) with
      | Ok _ => true
      | Raise _ => false
      end
  | _ => false
  end.

Lemma make_route_some (path : pystr) (file : gpx_file) (id : Z)
  (p : route_row * list point_row) :
  make_route path file id = Ok (Some p) -> has_points file = true.
Proof.
  unfold has_points, make_route.
  destruct (parse_points file) as [[|q qs]|]; cbn [bind];
    try discriminate. reflexivity.
Qed.

Lemma make_route_no_points (path : pystr) (file : gpx_file) (id : Z) :
  make_route path file id = Ok None -> has_points file = false.
Proof.
  unfold has_points, make_route.
  destruct (parse_points file) as [[|q qs]|]; cbn [bind];
    try discriminate; [reflexivity|].
  destruct (route_distance (q :: qs)); discriminate.
Qed.

Lemma make_ecg_some (path : pystr) (file : csv_file) (id : Z)
  (p : ecg_row * list sample_row) :
  make_ecg path file id = Ok (Some p) -> has_samples file = true.
Proof.
  unfold has_samples, make_ecg.
  destruct (parse_ecg_csv file) as [[metadata [|x xs]]|];
    cbn [bind fst snd]; try discriminate.
  destruct (_parse_sample_rate _); cbn [bind]; [reflexivity|discriminate].
Qed.

Lemma make_ecg_no_samples (path : pystr) (file : csv_file) (id : Z) :
  make_ecg path file id = Ok None -> has_samples file = false.
Proof.
  unfold has_samples, make_ecg.
  destruct (parse_ecg_csv file) as [[metadata [|x xs]]|];
    cbn [bind fst snd]; try discriminate; [reflexivity|].
  destruct (_parse_sample_rate _); cbn [bind]; discriminate.
Qed.

(** What [made_of] gives for a directory of track files, and for one of
    recordings. *)
Definition routes_made (c : conn) (dir : pystr) (skip : bool)
  (files : list (pystr * gpx_file))
  : list (route_row * list point_row) :=
  made_of route_row point_row gpx_file is_gpx make_route dir skip
    (if skip then list_existing (route_paths c) else [])
    (sorted files) (_next_id (route_ids c)).

Definition ecgs_made (c : conn) (dir : pystr) (skip : bool)
  (files : list (pystr * csv_file))
  : list (ecg_row * list sample_row) :=
  made_of ecg_row sample_row csv_file is_csv make_ecg dir skip
    (if skip then list_existing (ecg_paths c) else [])
    (sorted files) (_next_id (ecg_ids c)).

Lemma routes_counts (c c' : conn) (dir : pystr)
  (files : list (pystr * gpx_file)) (skip : bool) (n : nat) :
  import_workout_routes c dir (Some files) skip = Ok (c', n) ->
  n = List.length (routes_made c dir skip files)
  /\ workout_route_points c'
     = option_map
         (fun l => l ++ List.concat
                          (List.map snd (routes_made c dir skip files)))
         (workout_route_points c).
Proof.
  intro H. rewrite import_workout_routes_generic in H.
  apply map_result_ok in H as [[s1 k] [H Hc]]. injection Hc as -> ->.
  apply import_counts in H as [Hn Hk].
  split; [exact Hn|exact Hk].
Qed.

Lemma ecgs_counts (c c' : conn) (dir : pystr)
  (files : list (pystr * csv_file)) (skip : bool) (n : nat) :
  import_ecg c dir (Some files) skip = Ok (c', n) ->
  n = List.length (ecgs_made c dir skip files)
  /\ ecg_samples c'
     = option_map
         (fun l => l ++ List.concat
                          (List.map snd (ecgs_made c dir skip files)))
         (ecg_samples c).
Proof.
  intro H. rewrite import_ecg_generic in H.
  apply map_result_ok in H as [[s1 k] [H Hc]]. injection Hc as -> ->.
  apply import_counts in H as [Hn Hk].
  split; [exact Hn|exact Hk].
Qed.

Lemma routes_paths (c c' : conn) (dir : pystr)
  (files : list (pystr * gpx_file)) (skip : bool) (n : nat) :
  import_workout_routes c dir (Some files) skip = Ok (c', n) ->
  List.map route_file_path (List.map fst (routes_made c dir skip files))
  = List.map (fun e => path_join dir (fst e))
      (filter
         (counted gpx_file is_gpx has_points dir skip
            (if skip then list_existing (route_paths c) else []))
         (sorted files)).
Proof.
  intro H. rewrite import_workout_routes_generic in H.
  apply map_result_ok in H as [[s1 k] [H Hc]]. injection Hc as -> ->.
  exact (import_paths _ _ _ _ _ _ _ _ make_route_row has_points
           make_route_some make_route_no_points _ _ _ _ _ _ H).
Qed.

Lemma ecgs_paths (c c' : conn) (dir : pystr)
  (files : list (pystr * csv_file)) (skip : bool) (n : nat) :
  import_ecg c dir (Some files) skip = Ok (c', n) ->
  List.map ecg_file_path (List.map fst (ecgs_made c dir skip files))
  = List.map (fun e => path_join dir (fst e))
      (filter
         (counted csv_file is_csv has_samples dir skip
            (if skip then list_existing (ecg_paths c) else []))
         (sorted files)).
Proof.
  intro H. rewrite import_ecg_generic in H.
  apply map_result_ok in H as [[s1 k] [H Hc]]. injection Hc as -> ->.
  exact (import_paths _ _ _ _ _ _ _ _ make_ecg_row has_samples
           make_ecg_some make_ecg_no_samples _ _ _ _ _ _ H).
Qed.

Lemma routes_rows (c c' : conn) (dir : pystr)
  (files : list (pystr * gpx_file)) (n : nat) :
  NoDup (List.map (fun e => path_join dir (fst e)) files) ->
  import_workout_routes c dir (Some files) true = Ok (c', n) ->
  workout_routes c'
  = option_map (fun l => l ++ List.map fst (routes_made c dir true files))
      (workout_routes c)
  /\ NoDup (List.map route_id_of
              (List.map fst (routes_made c dir true files))).
Proof.
  intros Hnd H. rewrite import_workout_routes_generic in H.
  apply map_result_ok in H as [[s1 k] [H Hc]]. injection Hc as -> ->.
  destruct (import_made _ _ _ _ _ _ _ _ make_route_row _ _ _ _ _ Hnd H)
    as [P [_ [_ Hids]]].
  assert (Hex : List.map route_file_path
                  (stored route_row point_row (route_store c))
                = list_existing (route_paths c)).
  { unfold route_paths, stored, route_store. cbn [parents].
    now destruct (workout_routes c). }
  rewrite Hex in P, Hids.
  split; [exact P|]. unfold routes_made.
  change (route_ids c) with (g_ids route_id_of (route_store c)).
  rewrite Hids. apply ids_from_NoDup.
Qed.

Lemma ecgs_rows (c c' : conn) (dir : pystr)
  (files : list (pystr * csv_file)) (n : nat) :
  NoDup (List.map (fun e => path_join dir (fst e)) files) ->
  import_ecg c dir (Some files) true = Ok (c', n) ->
  ecg_records c'
  = option_map (fun l => l ++ List.map fst (ecgs_made c dir true files))
      (ecg_records c)
  /\ NoDup (List.map ecg_id_of
              (List.map fst (ecgs_made c dir true files))).
Proof.
  intros Hnd H. rewrite import_ecg_generic in H.
  apply map_result_ok in H as [[s1 k] [H Hc]]. injection Hc as -> ->.
  destruct (import_made _ _ _ _ _ _ _ _ make_ecg_row _ _ _ _ _ Hnd H)
    as [P [_ [_ Hids]]].
  assert (Hex : List.map ecg_file_path
                  (stored ecg_row sample_row (ecg_store c))
                = list_existing (ecg_paths c)).
  { unfold ecg_paths, stored, ecg_store. cbn [parents].
    now destruct (ecg_records c). }
  rewrite Hex in P, Hids.
  split; [exact P|]. unfold ecgs_made.
  change (ecg_ids c) with (g_ids ecg_id_of (ecg_store c)).
  rewrite Hids. apply ids_from_NoDup.
Qed.

End WithRuntime.

End ImportedRows.

(** X14. With skip-existing and distinct paths in the directory, the two
    tables of an importer grow in step: every point row added carries
    the id of a route row added, and every route row added has exactly
    [point_count] point rows, at least one; every sample row added
    carries the id of an ECG row added, and every ECG row added has a
    sample row. The count returned is the number of parent rows added. *)
Theorem skip_existing_import_has_no_orphans :
  forall rt : PyRuntime,
    (forall (c c' : health_postprocess.conn) (dir : pystr)
            (files : list (pystr * health_postprocess.gpx_file)) (n : nat),
        NoDup (List.map
                 (fun e => health_postprocess.path_join dir (fst e))
                 files) ->
        health_postprocess.import_workout_routes c dir (Some files) true
        = Ok (c', n) ->
        exists new_routes new_points,
          health_postprocess.workout_routes c'
          = option_map (fun l => l ++ new_routes)
              (health_postprocess.workout_routes c)
          /\ health_postprocess.workout_route_points c'
             = option_map (fun l => l ++ new_points)
                 (health_postprocess.workout_route_points c)
          /\ List.length new_routes = n
          /\ (forall p,
                 In p new_points ->
                 In (health_postprocess.point_route_id p)
                   (List.map health_postprocess.route_id_of new_routes))
          /\ (forall r,
                 In r new_routes ->
                 1 <= health_postprocess.point_count r
                 /\ List.length
                      (filter
                         (fun p =>
                            (health_postprocess.point_route_id p
                             =? health_postprocess.route_id_of r)%Z)
                         new_points)
                    = health_postprocess.point_count r))
    /\ (forall (c c' : health_postprocess.conn) (dir : pystr)
               (files : list (pystr * health_postprocess.csv_file))
               (n : nat),
           NoDup (List.map
                    (fun e => health_postprocess.path_join dir (fst e))
                    files) ->
           health_postprocess.import_ecg c dir (Some files) true
           = Ok (c', n) ->
           exists new_records new_samples,
             health_postprocess.ecg_records c'
             = option_map (fun l => l ++ new_records)
                 (health_postprocess.ecg_records c)
             /\ health_postprocess.ecg_samples c'
                = option_map (fun l => l ++ new_samples)
                    (health_postprocess.ecg_samples c)
             /\ List.length new_records = n
             /\ (forall k,
                    In k new_samples ->
                    In (health_postprocess.sample_ecg_id k)
                      (List.map health_postprocess.ecg_id_of new_records))
             /\ (forall r,
                    In r new_records ->
                    1 <= List.length
                           (filter
                              (fun k =>
                                 (health_postprocess.sample_ecg_id k
                                  =? health_postprocess.ecg_id_of r)%Z)
                              new_samples))).
Proof.
  intro rt. split.
  - intros c c' dir files n Hnd H.
    destruct (ImportedRows.routes_rows _ _ _ _ _ Hnd H) as [P Hn].
    destruct (ImportedRows.routes_counts _ _ _ _ _ _ H) as [Hc Hk].
    set (made := ImportedRows.routes_made c dir true files) in *.
    assert (Hb : Forall
                   (ImporterRows.belongs _ _
                      health_postprocess.route_id_of
                      health_postprocess.point_route_id) made).
    { apply (ImporterRows.made_of_belongs _ _ _ _ _ _ _
               Imports.make_route_row).
      intros path file id row children Hm.
      exact (proj1 (ImportedRows.make_route_kids _ _ _ _ _ Hm)). }
    exists (List.map fst made), (List.concat (List.map snd made)).
    split; [exact P|]. split; [exact Hk|].
    split; [now rewrite length_map|]. split.
    + exact (ImporterRows.kids_have_parents _ _ _ _ _ Hb).
    + intros r Hr. apply in_map_iff in Hr as [[row children] [<- Hp]].
      rewrite (ImporterRows.kids_of_parent _ _ _ _ _ Hb Hn _ Hp).
      destruct (ImporterRows.made_of_sound _ _ _ _ _ _ _ _ _ _ _ Hp)
        as [name [file [id' [_ Hm]]]].
      destruct (ImportedRows.make_route_kids _ _ _ _ _ Hm)
        as [_ [Hcount Hpos]].
      cbn [fst snd]. split; [exact Hpos|now symmetry].
  - intros c c' dir files n Hnd H.
    destruct (ImportedRows.ecgs_rows _ _ _ _ _ Hnd H) as [P Hn].
    destruct (ImportedRows.ecgs_counts _ _ _ _ _ _ H) as [Hc Hk].
    set (made := ImportedRows.ecgs_made c dir true files) in *.
    assert (Hb : Forall
                   (ImporterRows.belongs _ _
                      health_postprocess.ecg_id_of
                      health_postprocess.sample_ecg_id) made).
    { apply (ImporterRows.made_of_belongs _ _ _ _ _ _ _
               Imports.make_ecg_row).
      intros path file id row children Hm.
      exact (proj1 (ImportedRows.make_ecg_kids _ _ _ _ _ Hm)). }
    exists (List.map fst made), (List.concat (List.map snd made)).
    split; [exact P|]. split; [exact Hk|].
    split; [now rewrite length_map|]. split.
    + exact (ImporterRows.kids_have_parents _ _ _ _ _ Hb).
    + intros r Hr. apply in_map_iff in Hr as [[row children] [<- Hp]].
      rewrite (ImporterRows.kids_of_parent _ _ _ _ _ Hb Hn _ Hp).
      destruct (ImporterRows.made_of_sound _ _ _ _ _ _ _ _ _ _ _ Hp)
        as [name [file [id' [_ Hm]]]].
      exact (proj2 (ImportedRows.make_ecg_kids _ _ _ _ _ Hm)).
Qed.

(** The store after [a.gpx], then [b.gpx], have been ingested. *)
Definition store_after_two_routes : health_postprocess.conn :=
  {| health_postprocess.workout_routes :=
       Some [one_point_route 1; one_point_route_at "routes/b.gpx" 2];
     health_postprocess.workout_route_points :=
       Some [one_point_row 1; one_point_row 2];
     health_postprocess.ecg_records := Some [one_sample_ecg 1];
     health_postprocess.ecg_samples := Some [one_sample_row 1] |}.

Lemma skip_existing_import_has_no_orphans_witness :
  exists new_routes new_points,
    health_postprocess.workout_routes store_after_two_routes
    = option_map (fun l => l ++ new_routes)
        (health_postprocess.workout_routes store_after_one_run)
    /\ health_postprocess.workout_route_points store_after_two_routes
       = option_map (fun l => l ++ new_points)
           (health_postprocess.workout_route_points store_after_one_run)
    /\ List.length new_routes = 1
    /\ (forall p,
           In p new_points ->
           In (health_postprocess.point_route_id p)
             (List.map health_postprocess.route_id_of new_routes))
    /\ (forall r,
           In r new_routes ->
           1 <= health_postprocess.point_count r
           /\ List.length
                (filter
                   (fun p =>
                      (health_postprocess.point_route_id p
                       =? health_postprocess.route_id_of r)%Z)
                   new_points)
              = health_postprocess.point_count r).
Proof.
  apply (proj1 (skip_existing_import_has_no_orphans ascii_runtime)
           store_after_one_run store_after_two_routes (str "routes/")
           [(str "b.gpx", one_point_gpx); (str "a.gpx", one_point_gpx)] 1).
  - repeat constructor; cbn; intuition discriminate.
  - reflexivity.
Defined.

(** X15. In either mode the count an importer returns is the number of
    files of the listing whose name has the suffix, whose path is not
    skipped, and that are read and yield rows: a track file with a
    [trkpt] element, a recording with a sample and a sample rate that is
    read. Files whose parent row the table then ignores are counted
    too. *)
Theorem import_counts_the_files_that_yield :
  forall rt : PyRuntime,
    (forall (c c' : health_postprocess.conn) (dir : pystr)
            (files : list (pystr * health_postprocess.gpx_file))
            (skip : bool) (n : nat),
        health_postprocess.import_workout_routes c dir (Some files) skip
        = Ok (c', n) ->
        n = List.length
              (filter
                 (fun e =>
                    health_postprocess.is_gpx (fst e)
                    && negb (skip
                             && health_postprocess.mem
                                  (health_postprocess.path_join dir (fst e))
                                  (health_postprocess.list_existing
                                     (health_postprocess.route_paths c)))
                    && ImportedRows.has_points (snd e))
                 files))
    /\ (forall (c c' : health_postprocess.conn) (dir : pystr)
               (files : list (pystr * health_postprocess.csv_file))
               (skip : bool) (n : nat),
           health_postprocess.import_ecg c dir (Some files) skip
           = Ok (c', n) ->
           n = List.length
                 (filter
                    (fun e =>
                       health_postprocess.is_csv (fst e)
                       && negb (skip
                                && health_postprocess.mem
                                     (health_postprocess.path_join dir
                                        (fst e))
                                     (health_postprocess.list_existing
                                        (health_postprocess.ecg_paths c)))
                       && ImportedRows.has_samples (snd e))
                    files)).
Proof.
  intro rt.
  assert (Hlen : forall (F : Type) (p q : pystr * F -> bool)
                        (files : list (pystr * F)),
             (forall e, p e = q e) ->
             List.length (filter p (health_postprocess.sorted files))
             = List.length (filter q files)).
  { intros F p q files Hpq. rewrite <- Listing.sorted_filter.
    rewrite (Permutation_length (Listing.sorted_perm F (filter p files))).
    now rewrite (filter_ext p q Hpq). }
  split.
  - intros c c' dir files skip n H.
    rewrite (proj1 (ImportedRows.routes_counts _ _ _ _ _ _ H)).
    rewrite <- (length_map fst),
      <- (length_map health_postprocess.route_file_path).
    rewrite (ImportedRows.routes_paths _ _ _ _ _ _ H).
    rewrite length_map. apply Hlen. intros [name file].
    unfold ImporterRows.counted. now destruct skip.
  - intros c c' dir files skip n H.
    rewrite (proj1 (ImportedRows.ecgs_counts _ _ _ _ _ _ H)).
    rewrite <- (length_map fst),
      <- (length_map health_postprocess.ecg_file_path).
    rewrite (ImportedRows.ecgs_paths _ _ _ _ _ _ H).
    rewrite length_map. apply Hlen. intros [name file].
    unfold ImporterRows.counted. now destruct skip.
Qed.

Lemma import_counts_the_files_that_yield_witness :
  1 = List.length
        (filter
           (fun e =>
              health_postprocess.is_gpx (fst e)
              && negb (true
                       && health_postprocess.mem
                            (health_postprocess.path_join (str "routes/")
                               (fst e))
                            (health_postprocess.list_existing
                               (health_postprocess.route_paths
                                  store_after_one_run)))
              && ImportedRows.has_points (rt := ascii_runtime) (snd e))
           [(str "b.gpx", one_point_gpx); (str "a.gpx", one_point_gpx);
            (str "notes.txt", None)]).
Proof.
  apply (proj1 (import_counts_the_files_that_yield ascii_runtime)
           store_after_one_run store_after_two_routes (str "routes/")
           [(str "b.gpx", one_point_gpx); (str "a.gpx", one_point_gpx);
            (str "notes.txt", None)] true 1).
  reflexivity.
Defined.

(** X16. With skip-existing and distinct paths in the directory, the
    rows added to the route table are those of the counted files in the
    sorted order of their names: the k-th of them is stored under the
    k-th id after the highest stored one and under its own path. *)
Theorem new_routes_follow_the_sorted_names :
  forall (rt : PyRuntime) (c c' : health_postprocess.conn) (dir : pystr)
         (files : list (pystr * health_postprocess.gpx_file)) (n : nat),
    NoDup (List.map (fun e => health_postprocess.path_join dir (fst e))
             files) ->
    health_postprocess.import_workout_routes c dir (Some files) true
    = Ok (c', n) ->
    exists new,
      health_postprocess.workout_routes c'
      = option_map (fun l => l ++ new) (health_postprocess.workout_routes c)
      /\ List.map health_postprocess.route_file_path new
         = List.map (fun e => health_postprocess.path_join dir (fst e))
             (filter
                (fun e =>
                   health_postprocess.is_gpx (fst e)
                   && negb (health_postprocess.mem
                              (health_postprocess.path_join dir (fst e))
                              (health_postprocess.list_existing
                                 (health_postprocess.route_paths c)))
                   && ImportedRows.has_points (snd e))
                (health_postprocess.sorted files))
      /\ List.map health_postprocess.route_id_of new
         = Ids.ids_from
             (health_postprocess._next_id (health_postprocess.route_ids c))
             n.
Proof.
  intros rt c c' dir files n Hnd H.
  destruct (ImportedRows.routes_rows _ _ _ _ _ Hnd H) as [P _].
  destruct (ImportedRows.routes_counts _ _ _ _ _ _ H) as [Hc _].
  exists (List.map fst (ImportedRows.routes_made c dir true files)).
  split; [exact P|]. split.
  - rewrite (ImportedRows.routes_paths _ _ _ _ _ _ H). reflexivity.
  - rewrite Importer.import_workout_routes_generic in H.
    apply Imports.map_result_ok in H as [[s1 k] [H E]].
    injection E as -> ->.
    destruct (ImporterRows.import_made _ _ _ _ _ _ _ _
                Imports.make_route_row _ _ _ _ _ Hnd H)
      as [_ [_ [Hn Hids]]].
    assert (Hex : List.map health_postprocess.route_file_path
                    (ImporterFacts.stored _ _ (Importer.route_store c))
                  = health_postprocess.list_existing
                      (health_postprocess.route_paths c)).
    { unfold health_postprocess.route_paths, ImporterFacts.stored,
        Importer.route_store. cbn [Importer.parents].
      now destruct (health_postprocess.workout_routes c). }
    rewrite Hex in Hids, Hn. rewrite Hn. exact Hids.
Qed.

Lemma new_routes_follow_the_sorted_names_witness :
  exists new,
    health_postprocess.workout_routes store_after_two_routes
    = option_map (fun l => l ++ new)
        (health_postprocess.workout_routes store_after_one_run)
    /\ List.map health_postprocess.route_file_path new
       = [str "routes/b.gpx"]
    /\ List.map health_postprocess.route_id_of new = [2%Z].
Proof.
  apply (new_routes_follow_the_sorted_names ascii_runtime
           store_after_one_run store_after_two_routes (str "routes/")
           [(str "b.gpx", one_point_gpx); (str "a.gpx", one_point_gpx)] 1).
  - repeat constructor; cbn; intuition discriminate.
  - reflexivity.
Defined.

(** X17. The order in which the directory is listed does not show: the
    names are sorted before the files are read, so two listings of the
    same files, no name twice, give the same result. *)
Theorem listing_order_does_not_show :
  forall (rt : PyRuntime) (c : health_postprocess.conn) (dir : pystr)
         (skip : bool),
    (forall l1 l2 : list (pystr * health_postprocess.gpx_file),
        Permutation l1 l2 -> NoDup (List.map fst l1) ->
        health_postprocess.import_workout_routes c dir (Some l1) skip
        = health_postprocess.import_workout_routes c dir (Some l2) skip)
    /\ (forall l1 l2 : list (pystr * health_postprocess.csv_file),
           Permutation l1 l2 -> NoDup (List.map fst l1) ->
           health_postprocess.import_ecg c dir (Some l1) skip
           = health_postprocess.import_ecg c dir (Some l2) skip).
Proof.
  intros rt c dir skip. split; intros l1 l2 Hp Hn.
  - unfold health_postprocess.import_workout_routes.
    now rewrite (ImportedRows.sorted_of_permutation l1 l2 Hp Hn).
  - unfold health_postprocess.import_ecg.
    now rewrite (ImportedRows.sorted_of_permutation l1 l2 Hp Hn).
Qed.

Lemma listing_order_does_not_show_witness :
  health_postprocess.import_workout_routes (rt := ascii_runtime)
    store_after_one_run (str "routes/")
    (Some [(str "b.gpx", one_point_gpx); (str "c.gpx", one_point_gpx)])
    true
  = health_postprocess.import_workout_routes (rt := ascii_runtime)
      store_after_one_run (str "routes/")
      (Some [(str "c.gpx", one_point_gpx); (str "b.gpx", one_point_gpx)])
      true.
Proof.
  apply (proj1 (listing_order_does_not_show ascii_runtime
                  store_after_one_run (str "routes/") true)).
  - apply perm_swap.
  - repeat constructor; cbn; intuition discriminate.
Defined.

(** ** The normal form of a source name *)

Module NormalForm.

Definition not_space (c : codepoint) : bool := negb (is_space c).

Lemma tidy_chars (t : pystr) :
  forall b,
    tidy b t = true ->
    forall c, In c t ->
              c <> 8216%N /\ c <> 8217%N /\ (is_space c = true -> c = 32%N).
Proof.
  induction t as [|x t IH]; intros b H c Hc; [destruct Hc|].
  cbn [tidy] in H. destruct (is_space x) eqn:Hx.
  - apply andb_prop in H as [H Ht]. apply andb_prop in H as [H _].
    apply N.eqb_eq in H. subst x.
    destruct Hc as [<-|Hc]; [|exact (IH _ Ht c Hc)].
    repeat split; congruence.
  - apply andb_prop in H as [H Ht].
    destruct Hc as [<-|Hc]; [|exact (IH _ Ht c Hc)].
    apply negb_true_iff, orb_false_iff in H as [H1 H2].
    apply N.eqb_neq in H1, H2. repeat split; congruence.
Qed.

Lemma tidy_no_run (l : pystr) :
  forall t prev a b r,
    tidy prev t = true -> t = l ++ a :: b :: r ->
    is_space a = true -> is_space b = false.
Proof.
  induction l as [|x l IH]; intros t prev a b r H -> Ha.
  - cbn [app tidy] in H. rewrite Ha in H.
    apply andb_prop in H as [_ H]. cbn [tidy] in H.
    destruct (is_space b); [|reflexivity].
    apply andb_prop in H as [H _]. apply andb_prop in H as [_ H].
    discriminate H.
  - cbn [app tidy] in H.
    destruct (is_space x); apply andb_prop in H as [_ H];
      exact (IH _ _ a b r H eq_refl Ha).
Qed.

Lemma filter_lstrip (s : pystr) :
  filter not_space (lstrip s) = filter not_space s.
Proof.
  induction s as [|c r IH]; [reflexivity|].
  cbn [lstrip]. destruct (is_space c) eqn:Hc; [|reflexivity].
  cbn [filter]. unfold not_space at 2. now rewrite Hc.
Qed.

Lemma filter_rstrip (s : pystr) :
  filter not_space (rstrip s) = filter not_space s.
Proof.
  induction s as [|c r IH]; [reflexivity|].
  cbn [rstrip]. destruct (rstrip r) as [|x r'] eqn:Er.
  - cbn [filter] in IH |- *. rewrite <- IH.
    unfold not_space. destruct (is_space c) eqn:Hc; cbn; now rewrite ?Hc.
  - cbn [filter]. now rewrite <- IH.
Qed.

Lemma filter_collapse (s : pystr) :
  forall b, filter not_space (sub_ws_runs_from b s) = filter not_space s.
Proof.
  induction s as [|c r IH]; intro b; [reflexivity|].
  cbn [sub_ws_runs_from filter]. unfold not_space at 2.
  destruct (is_space c) eqn:Hc; cbn [negb].
  - rewrite filter_app, IH. now destruct b.
  - cbn [filter]. unfold not_space at 1. now rewrite Hc, IH.
Qed.

Lemma filter_replaced (s : pystr) :
  filter not_space (List.map replaced s)
  = List.map (fun c => if is_apostrophe c then 39%N else c)
      (filter not_space s).
Proof.
  induction s as [|c r IH]; [reflexivity|].
  cbn [List.map filter].
  replace (not_space (replaced c)) with (negb (is_space c))
    by (unfold not_space; now rewrite replaced_space).
  replace (not_space c) with (negb (is_space c)) by reflexivity.
  destruct (is_space c) eqn:Hc; cbn [negb]; [exact IH|].
  cbn [List.map]. rewrite IH. f_equal.
  unfold replaced, is_apostrophe.
  destruct (N.eqb_spec c 8217) as [->|H1]; [reflexivity|].
  destruct (N.eqb_spec c 8216) as [->|H2]; [reflexivity|].
  destruct (N.eqb_spec c 160) as [->|H3]; [discriminate Hc|].
  destruct (N.eqb_spec c 39) as [->|H4]; reflexivity.
Qed.

End NormalForm.

(** X18. The normal form of a name. It holds no curly apostrophe and no
    whitespace but single U+0020 between two other code points, none at
    either end; its other code points are those of the name, in order,
    the curly apostrophes made straight. *)
Theorem normalized_name_is_clean :
  normalize_source_name None = None
  /\ forall s : pystr,
     exists t,
       normalize_source_name (Some s) = Some t
       /\ (forall c, In c t ->
                     c <> 8216%N /\ c <> 8217%N
                     /\ (is_space c = true -> c = 32%N))
       /\ (forall l a b r,
              t = l ++ a :: b :: r -> is_space a = true ->
              is_space b = false)
       /\ lstrip t = t /\ rstrip t = t
       /\ filter (fun c => negb (is_space c)) t
          = List.map (fun c => if is_apostrophe c then 39%N else c)
              (filter (fun c => negb (is_space c)) s).
Proof.
  split; [reflexivity|]. intro s.
  exists (strip (sub_ws_runs (List.map replaced s))).
  split; [apply normalize_unfold|].
  set (u := sub_ws_runs (List.map replaced s)).
  assert (Hu : tidy false u = true) by apply tidy_collapse.
  assert (Ht : tidy false (strip u) = true).
  { unfold strip. apply tidy_rstrip. exact (tidy_lstrip _ _ Hu). }
  split; [exact (NormalForm.tidy_chars _ _ Ht)|].
  split; [intros l a b r E; exact (NormalForm.tidy_no_run l _ _ a b r Ht E)|].
  split; [|split].
  - unfold strip. apply lstrip_headed, headed_rstrip, headed_lstrip.
  - unfold strip. apply rstrip_idem.
  - change (fun c => negb (is_space c)) with NormalForm.not_space.
    unfold strip, u, sub_ws_runs.
    now rewrite NormalForm.filter_rstrip, NormalForm.filter_lstrip,
      NormalForm.filter_collapse, NormalForm.filter_replaced.
Qed.

(** ** [build_source_aliases] and the views *)

Module Aliases.
Import health_postprocess.

(** What [SELECT DISTINCT source_name FROM t] gives for the six tables
    read in turn: [None] for a table that does not exist (the
    [OperationalError] that is passed over), else the column. *)
Definition source_columns := list (option (list (option pystr))).

Definition pystr_eq_dec : forall a b : pystr, {a = b} + {a <> b} :=
  list_eq_dec N.eq_dec.

(** The set [sources] after the loop over the tables: the names that are
    not null, each once. Python does not fix the order in which a set is
    iterated over; the list has them as they were first met. *)
Definition sources (columns : source_columns) : list pystr :=
  nodup pystr_eq_dec (keep_some (List.concat (keep_some columns))).

(** [executemany("INSERT OR REPLACE INTO source_aliases ...", rows)] for
    [rows = [(src, normalize_source_name(src)) for src in order]];
    [raw_source] is the primary key, so the table is a [dict] from the
    raw name to the normalised one. *)
Definition insert_aliases (order : list pystr)
  (source_aliases : dict (option pystr)) : dict (option pystr) :=
  fold_left
    (fun table src => dict_set table src (normalize_source_name (Some src)))
    order source_aliases.

Definition build_source_aliases (columns : source_columns)
  (source_aliases : dict (option pystr)) : dict (option pystr) :=
  insert_aliases (sources columns) source_aliases.

Lemma keep_some_In {A} (l : list (option A)) (x : A) :
  In x (keep_some l) <-> In (Some x) l.
Proof.
  induction l as [|[y|] l IH]; cbn [keep_some]; [easy| |].
  - cbn [In]. rewrite IH. split; (intros [E|H]; [left; congruence|now right]).
  - cbn [In]. rewrite IH. split; [now right|]. intros [E|H]; easy.
Qed.

Lemma sources_In (columns : source_columns) (src : pystr) :
  In src (sources columns)
  <-> exists column, In (Some column) columns /\ In (Some src) column.
Proof.
  unfold sources. rewrite nodup_In, keep_some_In, in_concat. split.
  - intros [column [Hc Hs]]. exists column.
    split; [now apply keep_some_In|exact Hs].
  - intros [column [Hc Hs]]. exists column.
    split; [now apply keep_some_In|exact Hs].
Qed.

Lemma insert_aliases_get (order : list pystr) :
  forall (source_aliases : dict (option pystr)) (src : pystr),
    dict_get (insert_aliases order source_aliases) src
    = if in_dec pystr_eq_dec src order
      then Some (normalize_source_name (Some src))
      else dict_get source_aliases src.
Proof.
  unfold insert_aliases.
  induction order as [|x order IH]; intros table src; [reflexivity|].
  cbn [fold_left]. rewrite IH.
  destruct (in_dec pystr_eq_dec src order) as [Hin|Hout];
    destruct (in_dec pystr_eq_dec src (x :: order)) as [Hin'|Hout'];
    try reflexivity.
  - exfalso. apply Hout'. now right.
  - destruct Hin' as [->|Hin']; [|contradiction].
    apply EcgFacts.dict_get_set_same.
  - apply EcgFacts.dict_get_set_other. intros ->. apply Hout'. now left.
Qed.

Lemma built_get (columns : source_columns)
  (source_aliases : dict (option pystr)) (column : list (option pystr))
  (src : pystr) :
  In (Some column) columns -> In (Some src) column ->
  dict_get (build_source_aliases columns source_aliases) src
  = Some (normalize_source_name (Some src)).
Proof.
  intros Hc Hs. unfold build_source_aliases. rewrite insert_aliases_get.
  destruct (in_dec _ src (sources columns)) as [_|Hout]; [reflexivity|].
  exfalso. apply Hout. apply sources_In. now exists column.
Qed.

End Aliases.

(** X19. After [build_source_aliases] the alias table maps every source
    name found in a table that exists to its normal form; the aliases
    of names found in no table are left as they were; and the order in
    which the set of names is iterated over does not show in any
    lookup. *)
Theorem aliases_map_every_source_name :
  forall (columns : Aliases.source_columns)
         (source_aliases : dict (option pystr)),
    (forall column src,
        In (Some column) columns -> In (Some src) column ->
        dict_get (Aliases.build_source_aliases columns source_aliases) src
        = Some (normalize_source_name (Some src)))
    /\ (forall src,
           (forall column, In (Some column) columns ->
                           ~ In (Some src) column) ->
           dict_get (Aliases.build_source_aliases columns source_aliases) src
           = dict_get source_aliases src)
    /\ (forall order src,
           Permutation order (Aliases.sources columns) ->
           dict_get (Aliases.insert_aliases order source_aliases) src
           = dict_get (Aliases.build_source_aliases columns source_aliases)
               src).
Proof.
  intros columns source_aliases. unfold Aliases.build_source_aliases.
  split; [|split].
  - intros column src Hc Hs. exact (Aliases.built_get _ _ _ _ Hc Hs).
  - intros src Hnone. rewrite Aliases.insert_aliases_get.
    destruct (in_dec _ src (Aliases.sources columns)) as [Hin|_];
      [|reflexivity].
    apply Aliases.sources_In in Hin as [column [Hc Hs]].
    exfalso. exact (Hnone column Hc Hs).
  - intros order src Hp. rewrite !Aliases.insert_aliases_get.
    destruct (in_dec _ src order) as [Hin|Hout];
      destruct (in_dec _ src (Aliases.sources columns)) as [Hin'|Hout'];
      try reflexivity; exfalso.
    + apply Hout'. exact (Permutation_in _ Hp Hin).
    + apply Hout. exact (Permutation_in _ (Permutation_sym Hp) Hin').
Qed.

Lemma aliases_map_every_source_name_witness :
  dict_get
    (Aliases.build_source_aliases
       [Some [Some (str "Bob" ++ [8217%N] ++ str "s Watch"); None]; None]
       [(str "Old  Phone", Some (str "Old Phone"))])
    (str "Bob" ++ [8217%N] ++ str "s Watch")
  = Some (normalize_source_name
            (Some (str "Bob" ++ [8217%N] ++ str "s Watch"))).
Proof.
  apply (proj1 (aliases_map_every_source_name
                  [Some [Some (str "Bob" ++ [8217%N] ++ str "s Watch");
                         None]; None]
                  [(str "Old  Phone", Some (str "Old Phone"))])
           [Some (str "Bob" ++ [8217%N] ++ str "s Watch"); None]).
  - left. reflexivity.
  - left. reflexivity.
Defined.

(** X20. The aliases are built before the views are defined, so in
    [records_norm] every record shows the normal form of its own source
    name, null for a null name, whatever the alias table held before and
    whatever the other tables hold. *)
Theorem records_norm_shows_normalized_source :
  forall (records : list health_postprocess.record_row)
         (others : Aliases.source_columns)
         (source_aliases : dict (option pystr)),
    List.map health_postprocess.source_name_norm
      (health_postprocess.records_norm records
         (Aliases.build_source_aliases
            (Some (List.map health_postprocess.rec_source_name records)
             :: others)
            source_aliases))
    = List.map
        (fun r => normalize_source_name
                    (health_postprocess.rec_source_name r))
        records.
Proof.
  intros records others source_aliases.
  unfold health_postprocess.records_norm. rewrite map_map.
  apply map_ext_in. intros r Hr. cbn [health_postprocess.source_name_norm].
  destruct (health_postprocess.rec_source_name r) as [s|] eqn:Es;
    [|reflexivity].
  rewrite (Aliases.built_get _ source_aliases
             (List.map health_postprocess.rec_source_name records) s);
    [reflexivity|now left|].
  rewrite <- Es. now apply in_map.
Qed.

(** X21. The buffer of [records] is bounded by the batch size: with a
    positive batch size, after every event that has been handled it
    holds fewer rows than the batch size. (The buffers of the other
    tables are not bounded: they are written only when this one is.) *)
Theorem records_buffer_stays_below_batch_size :
  forall (rt : PyRuntime) (batch_size : Z) (with_metadata : bool)
         (events : list health_to_sqlite.event)
         (c : health_to_sqlite.conn) (st' : health_to_sqlite.state),
    (0 < batch_size)%Z ->
    health_to_sqlite.run batch_size with_metadata events
      (health_to_sqlite.initial c) = Ok st' ->
    (Z.of_nat (List.length
                 (health_to_sqlite.rows_by_table st'
                    health_to_sqlite.records)) < batch_size)%Z.
Proof.
  intros rt bs wm events c st' Hbs.
  assert (Hgen : forall st,
             (Z.of_nat (List.length
                          (health_to_sqlite.rows_by_table st
                             health_to_sqlite.records)) < bs)%Z ->
             health_to_sqlite.run bs wm events st = Ok st' ->
             (Z.of_nat (List.length
                          (health_to_sqlite.rows_by_table st'
                             health_to_sqlite.records)) < bs)%Z).
  { induction events as [|ev rest IH]; intros st Hst H;
      cbn [health_to_sqlite.run] in H.
    - now injection H as <-.
    - destruct (health_to_sqlite.step bs wm ev st) as [s1|] eqn:E;
        [|discriminate].
      cbn [bind] in H. apply (IH s1); [|exact H]. clear IH H.
      destruct ev as [[|] elem]; cbn [health_to_sqlite.step] in E.
      + destruct (PyStr.eqb (tag elem) (str "Record"));
          injection E as <-; exact Hst.
      + unfold health_to_sqlite.threshold_reached in E.
        destruct (Z.leb_spec bs
                    (Z.of_nat
                       (List.length
                          (health_to_sqlite.rows_by_table
                             (health_to_sqlite.on_end wm elem st)
                             health_to_sqlite.records)))) as [Hge|Hlt].
        * destruct (health_to_sqlite.flush _ _) as [[c1 b]|] eqn:Ef;
            [|discriminate].
          cbn [bind fst snd] in E. injection E as <-.
          apply Ingest.flush_ok in Ef as [-> _].
          cbn [health_to_sqlite.rows_by_table health_to_sqlite.no_rows
               List.length]. exact Hbs.
        * injection E as <-. exact Hlt. }
  apply Hgen. cbn. exact Hbs.
Qed.

Lemma records_buffer_stays_below_batch_size_witness :
  match health_to_sqlite.run (rt := ascii_runtime) 2 true small_export
          (health_to_sqlite.initial Ingest.fresh) with
  | Ok st' =>
      (Z.of_nat (List.length
                   (health_to_sqlite.rows_by_table st'
                      health_to_sqlite.records)) < 2)%Z
  | Raise _ => False
  end.
Proof.
  destruct (health_to_sqlite.run (rt := ascii_runtime) 2 true small_export
              (health_to_sqlite.initial Ingest.fresh))
    as [st'|] eqn:E; [|discriminate E].
  apply (records_buffer_stays_below_batch_size ascii_runtime 2 true
           small_export Ingest.fresh st'); [reflexivity|exact E].
Defined.

(** ** The bounding box of a route *)

Module BoundingBox.
Import health_postprocess Importer.
Local Open Scope R_scope.

(** *** The order of the floats that are not NaN *)

Lemma fle_refl (a : pyfloat) : a <> NaN -> fle a a = true.
Proof.
  destruct a as [x|[|]|]; cbn; try easy.
  intros _. destruct (Rle_dec x x); [reflexivity|lra].
Qed.

Lemma fle_trans (a b c : pyfloat) :
  fle a b = true -> fle b c = true -> fle a c = true.
Proof.
  destruct a as [x|[|]|], b as [y|[|]|], c as [z|[|]|]; cbn;
    try easy.
  destruct (Rle_dec x y), (Rle_dec y z), (Rle_dec x z); try easy. lra.
Qed.

Lemma flt_fle (a b : pyfloat) : flt a b = true -> fle a b = true.
Proof.
  destruct a as [x|[|]|], b as [y|[|]|]; cbn; try easy.
  destruct (Rlt_dec x y), (Rle_dec x y); try easy. lra.
Qed.

Lemma not_flt_fle (a b : pyfloat) :
  a <> NaN -> b <> NaN -> flt a b = false -> fle b a = true.
Proof.
  destruct a as [x|[|]|], b as [y|[|]|]; cbn; try easy.
  intros _ _. destruct (Rlt_dec x y), (Rle_dec y x); try easy. lra.
Qed.

(** *** [min] and [max] of a list without NaN *)

Definition no_nan (xs : list pyfloat) : Prop := forall x, In x xs -> x <> NaN.

Lemma fold_min_le (r : list pyfloat) :
  forall x,
    x <> NaN -> no_nan r ->
    let m := fold_left (fun cur item => if flt item cur then item else cur)
               r x in
    m <> NaN /\ fle m x = true /\ forall y, In y r -> fle m y = true.
Proof.
  induction r as [|z r IH]; intros x Hx Hr; cbv zeta in *;
    cbn [fold_left].
  - split; [exact Hx|]. split; [now apply fle_refl|easy].
  - assert (Hz : z <> NaN) by (apply Hr; now left).
    assert (Hr' : no_nan r) by (intros y Hy; apply Hr; now right).
    destruct (flt z x) eqn:E.
    + destruct (IH z Hz Hr') as [H0 [H1 H2]].
      split; [exact H0|]. split.
      * exact (fle_trans _ _ _ H1 (flt_fle _ _ E)).
      * intros y [<-|Hy]; [exact H1|now apply H2].
    + destruct (IH x Hx Hr') as [H0 [H1 H2]].
      split; [exact H0|]. split; [exact H1|].
      intros y [<-|Hy]; [|now apply H2].
      exact (fle_trans _ _ _ H1 (not_flt_fle _ _ Hz Hx E)).
Qed.

Lemma fold_max_ge (r : list pyfloat) :
  forall x,
    x <> NaN -> no_nan r ->
    let m := fold_left (fun cur item => if flt cur item then item else cur)
               r x in
    m <> NaN /\ fle x m = true /\ forall y, In y r -> fle y m = true.
Proof.
  induction r as [|z r IH]; intros x Hx Hr; cbv zeta in *;
    cbn [fold_left].
  - split; [exact Hx|]. split; [now apply fle_refl|easy].
  - assert (Hz : z <> NaN) by (apply Hr; now left).
    assert (Hr' : no_nan r) by (intros y Hy; apply Hr; now right).
    destruct (flt x z) eqn:E.
    + destruct (IH z Hz Hr') as [H0 [H1 H2]].
      split; [exact H0|]. split.
      * exact (fle_trans _ _ _ (flt_fle _ _ E) H1).
      * intros y [<-|Hy]; [exact H1|now apply H2].
    + destruct (IH x Hx Hr') as [H0 [H1 H2]].
      split; [exact H0|]. split; [exact H1|].
      intros y [<-|Hy]; [|now apply H2].
      exact (fle_trans _ _ _ (not_flt_fle _ _ Hx Hz E) H1).
Qed.

Lemma min_max_bound (xs : list pyfloat) (x : pyfloat) :
  no_nan xs -> In x xs ->
  exists lo hi,
    min_or_none xs = Some lo /\ max_or_none xs = Some hi
    /\ fle lo x = true /\ fle x hi = true.
Proof.
  destruct xs as [|x0 r]; [easy|]. intros Hn Hx.
  assert (H0 : x0 <> NaN) by (apply Hn; now left).
  assert (Hr : no_nan r) by (intros y Hy; apply Hn; now right).
  destruct (fold_min_le r x0 H0 Hr) as [_ [L1 L2]].
  destruct (fold_max_ge r x0 H0 Hr) as [_ [U1 U2]].
  eexists _, _. split; [reflexivity|]. split; [reflexivity|].
  destruct Hx as [<-|Hx]; split; auto.
Qed.

Section WithRuntime.
Context {rt : PyRuntime}.

Lemma point_rows_of_points (id : Z) (points : list point) :
  forall idx p,
    In p (point_rows_of id idx points) ->
    exists q, In q points /\ point_lat p = lat_of q
              /\ point_lon p = lon_of q.
Proof.
  induction points as [|q rest IH]; intros idx p Hp; [destruct Hp|].
  destruct Hp as [<-|Hp].
  - exists q. split; [now left|now split].
  - destruct (IH _ _ Hp) as [q' [Hq E]]. exists q'. split; [now right|exact E].
Qed.

Lemma point_rows_of_rows (id : Z) (points : list point) :
  forall idx q,
    In q points ->
    exists p, In p (point_rows_of id idx points)
              /\ point_lat p = lat_of q /\ point_lon p = lon_of q.
Proof.
  induction points as [|q0 rest IH]; intros idx q Hq; [destruct Hq|].
  destruct Hq as [<-|Hq].
  - eexists. split; [now left|now split].
  - destruct (IH (S idx) _ Hq) as [p [Hp E]].
    exists p. split; [now right|exact E].
Qed.

Lemma make_route_box (path : pystr) (file : gpx_file) (id : Z)
  (row : route_row) (children : list point_row) :
  make_route path file id = Ok (Some (row, children)) ->
  ((forall p, In p children -> point_lat p <> Some NaN) ->
   forall p x, In p children -> point_lat p = Some x ->
     exists lo hi, min_lat row = Some lo /\ max_lat row = Some hi
                   /\ fle lo x = true /\ fle x hi = true)
  /\ ((forall p, In p children -> point_lon p <> Some NaN) ->
      forall p x, In p children -> point_lon p = Some x ->
        exists lo hi, min_lon row = Some lo /\ max_lon row = Some hi
                      /\ fle lo x = true /\ fle x hi = true).
Proof.
  unfold make_route. destruct (parse_points file) as [[|q qs]|];
    cbn [bind]; try discriminate.
  destruct (route_distance (q :: qs)); cbn [bind]; [|discriminate].
  intro H. injection H as <- <-.
  cbn [min_lat max_lat min_lon max_lon]. split; intros Hn p x Hp Hx.
  - destruct (point_rows_of_points id (q :: qs) 0 p Hp)
      as [q' [Hq [El Eo]]].
    apply (min_max_bound (keep_some (List.map lat_of (q :: qs)))).
    + intros y Hy E. subst y.
      apply (proj1 (Aliases.keep_some_In (List.map lat_of (q :: qs)) NaN))
        in Hy.
      apply in_map_iff in Hy as [q1 [E1 Hq1]].
      destruct (point_rows_of_rows id (q :: qs) 0 q1 Hq1)
        as [p1 [Hp1 [El1 _]]].
      apply (Hn p1 Hp1). now rewrite El1.
    + apply (proj2 (Aliases.keep_some_In (List.map lat_of (q :: qs)) x)).
      rewrite <- Hx, El. now apply in_map.
  - destruct (point_rows_of_points id (q :: qs) 0 p Hp)
      as [q' [Hq [El Eo]]].
    apply (min_max_bound (keep_some (List.map lon_of (q :: qs)))).
    + intros y Hy E. subst y.
      apply (proj1 (Aliases.keep_some_In (List.map lon_of (q :: qs)) NaN))
        in Hy.
      apply in_map_iff in Hy as [q1 [E1 Hq1]].
      destruct (point_rows_of_rows id (q :: qs) 0 q1 Hq1)
        as [p1 [Hp1 [_ Eo1]]].
      apply (Hn p1 Hp1). now rewrite Eo1.
    + apply (proj2 (Aliases.keep_some_In (List.map lon_of (q :: qs)) x)).
      rewrite <- Hx, Eo. now apply in_map.
Qed.

End WithRuntime.

End BoundingBox.

(** X22. The bounding box of a route holds its points, NaN apart. With
    skip-existing and distinct paths in the directory, for every route
    row added none of whose point rows has the latitude NaN, [min_lat]
    and [max_lat] of the route are not null when a point row under its
    id has a latitude, and this latitude lies between them in the order
    of [float]; the same holds of the longitudes. *)
Theorem route_bounding_box_holds_its_points :
  forall (rt : PyRuntime) (c c' : health_postprocess.conn) (dir : pystr)
         (files : list (pystr * health_postprocess.gpx_file)) (n : nat),
    NoDup (List.map (fun e => health_postprocess.path_join dir (fst e))
             files) ->
    health_postprocess.import_workout_routes c dir (Some files) true
    = Ok (c', n) ->
    exists new_routes new_points,
      health_postprocess.workout_routes c'
      = option_map (fun l => l ++ new_routes)
          (health_postprocess.workout_routes c)
      /\ health_postprocess.workout_route_points c'
         = option_map (fun l => l ++ new_points)
             (health_postprocess.workout_route_points c)
      /\ forall r,
           In r new_routes ->
           ((forall q,
                In q new_points ->
                health_postprocess.point_route_id q
                = health_postprocess.route_id_of r ->
                health_postprocess.point_lat q <> Some NaN) ->
            forall p x,
              In p new_points ->
              health_postprocess.point_route_id p
              = health_postprocess.route_id_of r ->
              health_postprocess.point_lat p = Some x ->
              exists lo hi,
                health_postprocess.min_lat r = Some lo
                /\ health_postprocess.max_lat r = Some hi
                /\ fle lo x = true /\ fle x hi = true)
           /\ ((forall q,
                   In q new_points ->
                   health_postprocess.point_route_id q
                   = health_postprocess.route_id_of r ->
                   health_postprocess.point_lon q <> Some NaN) ->
               forall p x,
                 In p new_points ->
                 health_postprocess.point_route_id p
                 = health_postprocess.route_id_of r ->
                 health_postprocess.point_lon p = Some x ->
                 exists lo hi,
                   health_postprocess.min_lon r = Some lo
                   /\ health_postprocess.max_lon r = Some hi
                   /\ fle lo x = true /\ fle x hi = true).
Proof.
  intros rt c c' dir files n Hnd H.
  destruct (ImportedRows.routes_rows _ _ _ _ _ Hnd H) as [P Hn].
  destruct (ImportedRows.routes_counts _ _ _ _ _ _ H) as [_ Hk].
  set (made := ImportedRows.routes_made c dir true files) in *.
  assert (Hb : Forall
                 (ImporterRows.belongs _ _
                    health_postprocess.route_id_of
                    health_postprocess.point_route_id) made).
  { apply (ImporterRows.made_of_belongs _ _ _ _ _ _ _
             Imports.make_route_row).
    intros path file id row children Hm.
    exact (proj1 (ImportedRows.make_route_kids _ _ _ _ _ Hm)). }
  exists (List.map fst made), (List.concat (List.map snd made)).
  split; [exact P|]. split; [exact Hk|].
  intros r Hr.
  apply in_map_iff in Hr as [[row children] [<- Hpair]].
  cbn [fst].
  pose proof (ImporterRows.kids_of_parent _ _ _ _ _ Hb Hn _ Hpair) as Hf.
  cbn [fst snd] in Hf.
  assert (Hin : forall p,
             In p children
             <-> In p (List.concat (List.map snd made))
                 /\ health_postprocess.point_route_id p
                    = health_postprocess.route_id_of row).
  { intro p. rewrite <- Hf at 1. rewrite filter_In, Z.eqb_eq.
    reflexivity. }
  destruct (ImporterRows.made_of_sound _ _ _ _ _ _ _ _ _ _ _ Hpair)
    as [name [file [id' [_ Hm]]]].
  destruct (BoundingBox.make_route_box _ _ _ _ _ Hm) as [Hlat Hlon].
  split.
  - intros Hnan p x Hp Hid Hx.
    apply (Hlat (fun q Hq => Hnan q (proj1 (proj1 (Hin q) Hq))
                               (proj2 (proj1 (Hin q) Hq)))
             p x (proj2 (Hin p) (conj Hp Hid)) Hx).
  - intros Hnan p x Hp Hid Hx.
    apply (Hlon (fun q Hq => Hnan q (proj1 (proj1 (Hin q) Hq))
                               (proj2 (proj1 (Hin q) Hq)))
             p x (proj2 (Hin p) (conj Hp Hid)) Hx).
Qed.

Lemma route_bounding_box_holds_its_points_witness :
  exists new_routes new_points,
    health_postprocess.workout_routes store_after_two_routes
    = option_map (fun l => l ++ new_routes)
        (health_postprocess.workout_routes store_after_one_run)
    /\ health_postprocess.workout_route_points store_after_two_routes
       = option_map (fun l => l ++ new_points)
           (health_postprocess.workout_route_points store_after_one_run)
    /\ forall r,
         In r new_routes ->
         ((forall q,
              In q new_points ->
              health_postprocess.point_route_id q
              = health_postprocess.route_id_of r ->
              health_postprocess.point_lat q <> Some NaN) ->
          forall p x,
            In p new_points ->
            health_postprocess.point_route_id p
            = health_postprocess.route_id_of r ->
            health_postprocess.point_lat p = Some x ->
            exists lo hi,
              health_postprocess.min_lat r = Some lo
              /\ health_postprocess.max_lat r = Some hi
              /\ fle lo x = true /\ fle x hi = true)
         /\ ((forall q,
                 In q new_points ->
                 health_postprocess.point_route_id q
                 = health_postprocess.route_id_of r ->
                 health_postprocess.point_lon q <> Some NaN) ->
             forall p x,
               In p new_points ->
               health_postprocess.point_route_id p
               = health_postprocess.route_id_of r ->
               health_postprocess.point_lon p = Some x ->
               exists lo hi,
                 health_postprocess.min_lon r = Some lo
                 /\ health_postprocess.max_lon r = Some hi
                 /\ fle lo x = true /\ fle x hi = true).
Proof.
  apply (route_bounding_box_holds_its_points ascii_runtime
           store_after_one_run store_after_two_routes (str "routes/")
           [(str "b.gpx", one_point_gpx); (str "a.gpx", one_point_gpx)] 1).
  - repeat constructor; cbn; intuition discriminate.
  - reflexivity.
Defined.
